(** * Recruitment System API (src/app/app.py): a shallow embedding

    The service is a set of request handlers over a document store
    (collections candidates, admins, jobs, applications), a password
    hashing context and a resumes directory.  Handlers are embedded as
    state-passing functions [world -> outcome A * world]; a Python
    exception is an [outcome] other than [Return], and leaves the world
    as it was when the exception was raised.

    What the libraries under the service compute is taken as given, in a
    [Platform]: the bcrypt digest, the e-mail validator, the bytes the
    driver sends for an identifier shorter than 12 bytes, and the calls
    the file system refuses.  What the libraries decide on the face of
    their input is embedded: the scheme a hash string names, the NUL
    byte bcrypt refuses, the at-sign every address needs. *)

From Stdlib Require Import Strings.String Strings.Ascii NArith Lia.
From stdpp Require Import gmap strings list fin_maps.

Open Scope string_scope.
Open Scope list_scope.

(** ** Values and documents *)

(** [bson.ObjectId]: the raw bytes of the identifier ([ObjectId.binary]). *)
Record ObjectId := mkObjectId { binary : list N }.

#[global] Instance ObjectId_eq_dec : EqDecision ObjectId.
Proof. solve_decision. Defined.

(** The values the handlers read from and write to documents. *)
Inductive value :=
| VNull
| VStr (s : string)
| VOid (o : ObjectId)
| VList (l : list string).

#[global] Instance value_eq_dec : EqDecision value.
Proof. solve_decision. Defined.

(** A document is a Python dict from field names to values; a stored
    document carries its identifier under the key "_id". *)
Abbreviation document := (gmap string value).

(** ** Identifiers *)

Module Hex.

Definition is_space (c : ascii) : bool :=
  let n := N_of_ascii c in
  ((9 <=? n) && (n <=? 13) || (n =? 32))%N.

Definition digit_value (c : ascii) : option N :=
  let n := N_of_ascii c in
  if ((48 <=? n) && (n <=? 57))%N then Some (n - 48)%N
  else if ((97 <=? n) && (n <=? 102))%N then Some (n - 87)%N
  else if ((65 <=? n) && (n <=? 70))%N then Some (n - 55)%N
  else None.

(** [bytes.fromhex]: two hexadecimal digits per byte, ASCII whitespace
    skipped in front of a byte (never inside one). *)
Fixpoint fromhex (s : string) : option (list N) :=
  match s with
  | EmptyString => Some []
  | String c s' =>
      if is_space c then fromhex s'
      else match digit_value c, s' with
           | Some top, String d s'' =>
               match digit_value d with
               | Some bot => cons (16 * top + bot)%N <$> fromhex s''
               | None => None
               end
           | _, _ => None
           end
  end.

Definition digit (n : N) : ascii :=
  ascii_of_N (if (n <? 10)%N then n + 48 else n + 87)%N.

(** [binascii.hexlify]: two lower-case digits per byte. *)
Fixpoint hexlify (bs : list N) : string :=
  match bs with
  | [] => EmptyString
  | b :: bs' => String (digit (b / 16)) (String (digit (b mod 16)) (hexlify bs'))
  end.

End Hex.

(** [ObjectId(oid)] for a [str] argument: exactly 24 characters that
    [bytes.fromhex] accepts, otherwise [InvalidId] ([None] here). *)
Definition ObjectId_of_str (oid : string) : option ObjectId :=
  if (String.length oid =? 24)%nat then mkObjectId <$> Hex.fromhex oid else None.

(** [str(oid)]. *)
Definition str_of_ObjectId (o : ObjectId) : string := Hex.hexlify (binary o).

(** The driver generates the identifier of an inserted document.  The
    generator is a counter of the world; its [n]-th identifier is the
    12-byte big-endian rendering of [n]. *)
Fixpoint le_bytes (k : nat) (n : N) : list N :=
  match k with
  | O => []
  | S k' => (n mod 256)%N :: le_bytes k' (n / 256)%N
  end.

Definition generate_ObjectId (n : N) : ObjectId := mkObjectId (rev (le_bytes 12 n)).

(** ** Outcomes *)

Inductive exn :=
| InvalidId            (* bson.errors.InvalidId *)
| UnknownHashError     (* passlib.exc.UnknownHashError, a ValueError *)
| KeyError (k : string)
| TypeError
| ValidationError      (* pydantic, raised inside a handler *)
| HashError (e : string) (* whatever else the bcrypt handler raises *)
| PasswordValueError   (* passlib: a NUL byte in the secret *)
| OSError (e : string). (* a call the file system refuses *)

(** What a request ends in: the handler's return value, an
    [HTTPException] it raised, the framework's rejection of a parameter
    before the handler runs (422), or an exception nobody catches (a
    generic 500). *)
Inductive outcome (A : Type) :=
| Return (a : A)
| HTTPException (status_code : nat) (detail : string)
| RequestValidationError
| Raise (e : exn).

Arguments Return {A} a.
Arguments HTTPException {A} status_code detail.
Arguments RequestValidationError {A}.
Arguments Raise {A} e.

Definition http_status {A} (r : outcome A) : nat :=
  match r with
  | Return _ => 200
  | HTTPException c _ => c
  | RequestValidationError => 422
  | Raise _ => 500
  end.

(** ** The world: the database, the identifier generator, the salt
    source of the hashing context and the calls made to the file
    system *)

(** The two calls the service makes to the file system; the log keeps
    each call with the error it ended in, if any. *)
Inductive fs_op :=
| Makedirs (path : string)            (* os.makedirs(path, exist_ok=True) *)
| WriteFile (path data : string).     (* open(path, "wb"), then write *)

Abbreviation fs_event := (fs_op * option exn)%type.

Record world := mkWorld {
  candidates : list document;
  admins : list document;
  jobs : list document;
  applications : list document;
  oid_counter : N;
  urandom : N;
  fs_log : list fs_event
}.

Inductive collection := Candidates | Admins | Jobs | Applications.

Definition docs (c : collection) (w : world) : list document :=
  match c with
  | Candidates => candidates w
  | Admins => admins w
  | Jobs => jobs w
  | Applications => applications w
  end.

Definition with_docs (c : collection) (l : list document) (w : world) : world :=
  match c with
  | Candidates => mkWorld l (admins w) (jobs w) (applications w) (oid_counter w) (urandom w) (fs_log w)
  | Admins => mkWorld (candidates w) l (jobs w) (applications w) (oid_counter w) (urandom w) (fs_log w)
  | Jobs => mkWorld (candidates w) (admins w) l (applications w) (oid_counter w) (urandom w) (fs_log w)
  | Applications => mkWorld (candidates w) (admins w) (jobs w) l (oid_counter w) (urandom w) (fs_log w)
  end.

Definition with_oid_counter (n : N) (w : world) : world :=
  mkWorld (candidates w) (admins w) (jobs w) (applications w) n (urandom w) (fs_log w).

Definition with_urandom (n : N) (w : world) : world :=
  mkWorld (candidates w) (admins w) (jobs w) (applications w) (oid_counter w) n (fs_log w).

Definition with_fs_log (l : list fs_event) (w : world) : world :=
  mkWorld (candidates w) (admins w) (jobs w) (applications w) (oid_counter w) (urandom w) l.

(** ** The handler monad *)

Definition M (A : Type) : Type := world -> outcome A * world.

Definition ret {A} (a : A) : M A := fun w => (Return a, w).

Definition bind {A B} (m : M A) (k : A -> M B) : M B :=
  fun w =>
    match m w with
    | (Return a, w') => k a w'
    | (HTTPException c d, w') => (HTTPException c d, w')
    | (RequestValidationError, w') => (RequestValidationError, w')
    | (Raise e, w') => (Raise e, w')
    end.

Definition raise_HTTPException {A} (status_code : nat) (detail : string) : M A :=
  fun w => (HTTPException status_code detail, w).

Definition raise {A} (e : exn) : M A := fun w => (Raise e, w).

Notation "'let*' x ':=' m 'in' k" := (bind m (fun x => k))
  (at level 10, x name, m at level 100, k at level 200).
Notation "m ';;' k" := (bind m (fun _ => k))
  (at level 100, k at level 200, right associativity).

(** [d[k]]: a missing key raises KeyError. *)
Definition getitem (d : document) (k : string) : M value :=
  match d !! k with
  | Some v => ret v
  | None => raise (KeyError k)
  end.

(** ** The document store *)

(** A query [{key: q}] selects the documents whose field [key] equals
    [q]; a field holding an array is also selected when [q] is one of
    its elements. *)
Definition field_matches (q v : value) : bool :=
  bool_decide (v = q)
  || match v, q with
     | VList l, VStr s => bool_decide (s ∈ l)
     | _, _ => false
     end.

Definition matches (key : string) (q : value) (d : document) : bool :=
  match d !! key with
  | Some v => field_matches q v
  | None => false
  end.

(** [find_one]: the first selected document in the collection's order,
    or None. *)
Definition find_one (c : collection) (key : string) (q : value) : M (option document) :=
  fun w => (Return (List.find (matches key q) (docs c w)), w).

(** [find().to_list(n)]: the first [n] documents. *)
Definition find_to_list (c : collection) (n : nat) : M (list document) :=
  fun w => (Return (take n (docs c w)), w).

(** [insert_one]: the driver adds a generated "_id" to the document (the
    handlers never supply one), appends it and reports the identifier. *)
Definition insert_one (c : collection) (d : document) : M ObjectId :=
  fun w =>
    let oid := generate_ObjectId (oid_counter w) in
    (Return oid,
     with_oid_counter (N.succ (oid_counter w))
       (with_docs c (docs c w ++ [<["_id" := VOid oid]> d]) w)).

(** [{"$set": upd}] on the first selected document: the named fields are
    replaced, the others kept.  The result is None when nothing is
    selected. *)
Fixpoint set_first (p : document -> bool) (upd : document) (l : list document)
  : option (list document) :=
  match l with
  | [] => None
  | d :: l' =>
      if p d then Some ((upd ∪ d) :: l')
      else cons d <$> set_first p upd l'
  end.

(** [update_one]; the value returned is [result.matched_count]. *)
Definition update_one (c : collection) (key : string) (q : value) (upd : document) : M nat :=
  fun w =>
    match set_first (matches key q) upd (docs c w) with
    | Some l => (Return 1, with_docs c l w)
    | None => (Return 0, w)
    end.

(** Truth value of a dict, and of the result of [find_one]. *)
Definition dict_truthy (d : document) : bool := negb (bool_decide (d = ∅)).

Definition truthy (r : option document) : bool :=
  match r with
  | Some d => dict_truthy d
  | None => false
  end.

(** ** Parameter constraints: [Query(..., pattern=...)] *)

Module Pattern.

(** The fragment of the pattern language the route declarations use. *)
Inductive regex :=
| Bol                      (* ^ *)
| Eol                      (* $ *)
| Lit (s : string)
| Alt (r1 r2 : regex)
| Seq (r1 r2 : regex).

(** Consume a literal from the front of the text. *)
Fixpoint strip_prefix (p s : string) : option string :=
  match p, s with
  | EmptyString, _ => Some s
  | String a p', String b s' => if Ascii.eqb a b then strip_prefix p' s' else None
  | String _ _, EmptyString => None
  end.

(** Backtracking matcher in continuation style: [at_start] says whether
    the position is the start of the text, [s] is the rest of the text.
    The anchors match at the very start and the very end of the text
    (the validator's engine gives [$] no trailing-newline exception). *)
Fixpoint matches_at (r : regex) (at_start : bool) (s : string)
    (k : bool -> string -> bool) : bool :=
  match r with
  | Bol => if at_start then k at_start s else false
  | Eol => match s with EmptyString => k at_start s | _ => false end
  | Lit p =>
      match strip_prefix p s with
      | Some s' => k (at_start && (String.length p =? 0)%nat) s'
      | None => false
      end
  | Alt r1 r2 => matches_at r1 at_start s k || matches_at r2 at_start s k
  | Seq r1 r2 => matches_at r1 at_start s (fun b s' => matches_at r2 b s' k)
  end.

(** The constraint holds when the pattern matches somewhere in the text. *)
Fixpoint search_from (r : regex) (at_start : bool) (s : string) : bool :=
  matches_at r at_start s (fun _ _ => true)
  || match s with
     | EmptyString => false
     | String _ s' => search_from r false s'
     end.

Definition search (r : regex) (s : string) : bool := search_from r true s.

End Pattern.

(** ["^(Open|Closed|Filled)$"] *)
Definition status_pattern : Pattern.regex :=
  Pattern.Seq Pattern.Bol
    (Pattern.Seq
       (Pattern.Alt (Pattern.Lit "Open")
          (Pattern.Alt (Pattern.Lit "Closed") (Pattern.Lit "Filled")))
       Pattern.Eol).

(** ** The hashing context:
    [pwd_context = CryptContext(schemes=["bcrypt"], deprecated="auto")] *)

(** The bcrypt handler's computations are the library's and are taken as
    given: hashing a secret under a salt drawn from the system's random
    source, which returns the hash string or raises (the handler refuses
    some secrets, over-long ones for instance), and verifying a secret
    against a string the handler has identified as its own, which
    returns a truth value or raises (on a string it cannot parse, on a
    secret it refuses). *)
Record BcryptBackend := {
  bcrypt_hash : N -> string -> exn + string;
  bcrypt_verify : string -> string -> exn + bool
}.

(** bcrypt allows no NUL byte in a secret: the handler raises before it
    computes a digest. *)
Definition has_nul (secret : string) : bool :=
  existsb (Ascii.eqb Ascii.zero) (list_ascii_of_string secret).

(** [bcrypt.hash(secret)] under the salt [salt]. *)
Definition bcrypt_handler_hash (B : BcryptBackend) (salt : N) (secret : string)
  : exn + string :=
  if has_nul secret then inl PasswordValueError else bcrypt_hash B salt secret.

(** [bcrypt.ident_values] *)
Definition bcrypt_ident_values : list string :=
  ["$2$"; "$2a$"; "$2x$"; "$2y$"; "$2b$"].

(** [bcrypt.identify(hash)]: [hash.startswith(ident_values)]. *)
Definition bcrypt_identify (hash : string) : bool :=
  existsb (fun ident => String.prefix ident hash) bcrypt_ident_values.

Section Credentials.

Variable backend : BcryptBackend.

(** [CryptContext.hash] with the single scheme bcrypt: the handler draws
    a salt, then hashes or raises. *)
Definition CryptContext_hash (secret : string) : M string :=
  fun w =>
    (match bcrypt_handler_hash backend (urandom w) secret with
     | inr h => Return h
     | inl e => Raise e
     end,
     with_urandom (N.succ (urandom w)) w).

(** [CryptContext.verify]: an absent hash verifies as false; a hash that
    is not a string is a type error; a string that no scheme of the
    context identifies raises; otherwise the identified handler
    decides. *)
Definition CryptContext_verify (secret : string) (hash : value) : M bool :=
  match hash with
  | VNull => ret false
  | VStr h =>
      if bcrypt_identify h then
        match bcrypt_verify backend secret h with
        | inr b => ret b
        | inl e => raise e
        end
      else raise UnknownHashError
  | _ => raise TypeError
  end.

Definition get_password_hash (password : string) : M string :=
  CryptContext_hash password.

Definition verify_password (plain_password : string) (hashed_password : value) : M bool :=
  CryptContext_verify plain_password hashed_password.

End Credentials.


(** ** The platform under the service *)

Record Platform := {
  (* passlib's bcrypt handler *)
  bcrypt : BcryptBackend;
  (* the e-mail validator behind [EmailStr]: None when it rejects the
     string, else the normalised address *)
  email_validator : string -> option string;
  (* the 12 bytes the driver puts on the wire for an identifier whose
     [binary] is shorter *)
  short_id : list N -> list N;
  (* the error the file system answers a call with, after the calls
     logged so far; None when the call succeeds *)
  fs_refuses : list fs_event -> fs_op -> option exn
}.

(** [EmailStr]: an address has an at-sign, or it is rejected whatever
    else the validator checks. *)
Definition has_at (s : string) : bool :=
  existsb (Ascii.eqb "@") (list_ascii_of_string s).

Definition EmailStr (P : Platform) (s : string) : option string :=
  if has_at s then email_validator P s else None.

(** The identifier as the store receives it in a query or a document. *)
Definition on_wire (P : Platform) (o : ObjectId) : ObjectId :=
  if (length (binary o) =? 12)%nat then o else mkObjectId (short_id P (binary o)).

(** [os.path.dirname] (POSIX): the path up to its last slash, without
    trailing slashes unless it consists of slashes only. *)
Definition is_slash (c : ascii) : bool := Ascii.eqb c "/".

Fixpoint from_last_slash (reversed : list ascii) : list ascii :=
  match reversed with
  | [] => []
  | c :: r => if is_slash c then reversed else from_last_slash r
  end.

Fixpoint strip_slashes (reversed : list ascii) : list ascii :=
  match reversed with
  | [] => []
  | c :: r => if is_slash c then strip_slashes r else reversed
  end.

Definition dirname (p : string) : string :=
  let head := from_last_slash (rev (list_ascii_of_string p)) in
  string_of_list_ascii
    (rev (if forallb is_slash head then head else strip_slashes head)).

(** A call to the file system: logged with its outcome, raised when
    refused. *)
Definition perform (P : Platform) (op : fs_op) : M unit :=
  fun w =>
    let e := fs_refuses P (fs_log w) op in
    (match e with
     | Some x => Raise x
     | None => Return tt
     end,
     with_fs_log (fs_log w ++ [(op, e)]) w).

(** The framework's answer to a request whose parameters or body do not
    validate. *)
Definition reject_request {A} : M A := fun w => (RequestValidationError, w).

(** ** Schemas *)

Record Candidate := mkCandidate {
  email : string;
  password : string;
  name : string
}.

Record CandidateInDB := mkCandidateInDB {
  candidate_fields : Candidate;
  hashed_password : string
}.

Record CandidateResponse := mkCandidateResponse {
  cr_id : string;
  cr_email : string;
  cr_name : string
}.

Record LoginData := mkLoginData {
  login_email : string;
  login_password : string
}.

Record Job := mkJob {
  title : string;
  description : string;
  department : string;
  location : string;
  employment_type : string;
  salary_range : option string;
  application_deadline : option string;
  required_skills : list string;
  additional_info : option string
}.

Record JobResponse := mkJobResponse {
  jr_id : string;
  jr_fields : Job
}.

(** An entry of the list [view_resumes] returns. *)
Record ResumeEntry := mkResumeEntry {
  re_email : value;
  re_resume_path : value
}.

(** An uploaded file. *)
Record UploadFile := mkUploadFile {
  filename : string;
  content : string
}.

Definition optional_str (o : option string) : value :=
  match o with
  | Some s => VStr s
  | None => VNull
  end.

(** [candidate.dict()] *)
Definition Candidate_dict (c : Candidate) : document :=
  list_to_map
    [("email", VStr (email c)); ("password", VStr (password c)); ("name", VStr (name c))].

(** [candidate_in_db.dict(exclude=...)]: the fields of the base schema
    and hashed_password, without the excluded keys. *)
Definition CandidateInDB_dict (exclude : list string) (c : CandidateInDB) : document :=
  foldr delete
    (<["hashed_password" := VStr (hashed_password c)]> (Candidate_dict (candidate_fields c)))
    exclude.

(** [job.dict()] *)
Definition Job_dict (j : Job) : document :=
  list_to_map
    [("title", VStr (title j));
     ("description", VStr (description j));
     ("department", VStr (department j));
     ("location", VStr (location j));
     ("employment_type", VStr (employment_type j));
     ("salary_range", optional_str (salary_range j));
     ("application_deadline", optional_str (application_deadline j));
     ("required_skills", VList (required_skills j));
     ("additional_info", optional_str (additional_info j))].

(** Validation of the keyword arguments a response schema is built from,
    when they come out of a stored document. *)
Definition str_arg (v : option value) : M string :=
  match v with
  | Some (VStr s) => ret s
  | _ => raise ValidationError
  end.

Definition optional_str_arg (v : option value) : M (option string) :=
  match v with
  | Some (VStr s) => ret (Some s)
  | Some VNull => ret None
  | _ => raise ValidationError
  end.

Definition list_arg (v : option value) : M (list string) :=
  match v with
  | Some (VList l) => ret l
  | _ => raise ValidationError
  end.

(** [CandidateResponse(id=str(candidate["_id"]), email=candidate["email"],
    name=candidate["name"])]: the subscripts are evaluated left to
    right, then the schema validates. *)
Definition str_of_value (v : value) : string :=
  (* [str(v)]; the store accepts no array as "_id", so the last case is
     never the identifier of a stored document *)
  match v with
  | VOid o => str_of_ObjectId o
  | VStr s => s
  | VNull => "None"
  | VList _ => "[...]"
  end.

(** A keyword argument of type [EmailStr]: a string the validator
    accepts; the field holds the normalised address. *)
Definition email_arg (P : Platform) (v : option value) : M string :=
  match v with
  | Some (VStr s) =>
      match EmailStr P s with
      | Some e => ret e
      | None => raise ValidationError
      end
  | _ => raise ValidationError
  end.

(** [CandidateResponse(id=i, email=e, name=n)] *)
Definition CandidateResponse_new (P : Platform) (i : string) (e n : value)
  : M CandidateResponse :=
  let* e' := email_arg P (Some e) in
  let* n' := str_arg (Some n) in
  ret (mkCandidateResponse i e' n').

Definition CandidateResponse_of_doc (P : Platform) (candidate : document)
  : M CandidateResponse :=
  let* i := getitem candidate "_id" in
  let* e := getitem candidate "email" in
  let* n := getitem candidate "name" in
  CandidateResponse_new P (str_of_value i) e n.

(** [CandidateInDB] built from the keyword arguments [candidate] (the
    dict of the request body) and [hashed_password=h]: the schema
    validates the fields it is given, the e-mail among them, once more. *)
Definition CandidateInDB_new (P : Platform) (candidate : document) (h : string)
  : M CandidateInDB :=
  let* e := email_arg P (candidate !! "email") in
  let* p := str_arg (candidate !! "password") in
  let* n := str_arg (candidate !! "name") in
  ret (mkCandidateInDB (mkCandidate e p n) h).

(** [JobResponse(id=i, **job)]: a document that has a key "id" of its
    own makes the call itself a TypeError; keys the schema does not
    declare ("_id", "status") are ignored. *)
Definition JobResponse_of_kwargs (i : string) (job : document) : M JobResponse :=
  match job !! "id" with
  | Some _ => raise TypeError
  | None =>
      let* t := str_arg (job !! "title") in
      let* d := str_arg (job !! "description") in
      let* dep := str_arg (job !! "department") in
      let* l := str_arg (job !! "location") in
      let* et := str_arg (job !! "employment_type") in
      let* sr := optional_str_arg (job !! "salary_range") in
      let* ad := optional_str_arg (job !! "application_deadline") in
      let* rs := list_arg (job !! "required_skills") in
      let* ai := optional_str_arg (job !! "additional_info") in
      ret (mkJobResponse i (mkJob t d dep l et sr ad rs ai))
  end.

Definition JobResponse_of_doc (job : document) : M JobResponse :=
  let* i := getitem job "_id" in
  JobResponse_of_kwargs (str_of_value i) job.

(** A list comprehension whose element expression may raise. *)
Fixpoint mapM {A B} (f : A -> M B) (l : list A) : M (list B) :=
  match l with
  | [] => ret []
  | a :: l' =>
      let* b := f a in
      let* bs := mapM f l' in
      ret (b :: bs)
  end.

(** [ObjectId(s)] inside a handler. *)
Definition ObjectId_new (s : string) : M ObjectId :=
  match ObjectId_of_str s with
  | Some oid => ret oid
  | None => raise InvalidId
  end.

(** The request body of signup and of the logins as the framework hands
    it to the handler: the e-mail validated and normalised, or the
    request rejected. *)
Definition Candidate_validate (P : Platform) (body : Candidate) : option Candidate :=
  match EmailStr P (email body) with
  | Some e => Some (mkCandidate e (password body) (name body))
  | None => None
  end.

Definition LoginData_validate (P : Platform) (body : LoginData) : option LoginData :=
  match EmailStr P (login_email body) with
  | Some e => Some (mkLoginData e (login_password body))
  | None => None
  end.


(** ** The request handlers

    A route is the framework's validation of the request followed by the
    handler of the source.  Validation that can reject a request is
    embedded where the handler's parameter is a string the framework
    checks: the [EmailStr] of a body or a query parameter, and the
    pattern of the status.  Bodies and files that fail to parse never
    reach a handler; the routes below take them parsed. *)

Section Handlers.

Variable P : Platform.

(** [GET /] *)
Definition root : M string := ret "Welcome to the Recruitment System API".

(** The handler of [POST /candidates/signup], on the validated body. *)
Definition signup_handler (candidate : Candidate) : M CandidateResponse :=
  let* existing_candidate := find_one Candidates "email" (VStr (email candidate)) in
  if truthy existing_candidate then
    raise_HTTPException 400 "Email already registered"
  else
    let* hashed := get_password_hash (bcrypt P) (password candidate) in
    let* candidate_in_db := CandidateInDB_new P (Candidate_dict candidate) hashed in
    let* inserted_id :=
      insert_one Candidates (CandidateInDB_dict ["password"] candidate_in_db) in
    CandidateResponse_new P (str_of_ObjectId inserted_id)
      (VStr (email candidate)) (VStr (name candidate)).

(** [POST /candidates/signup] *)
Definition signup (body : Candidate) : M CandidateResponse :=
  match Candidate_validate P body with
  | Some candidate => signup_handler candidate
  | None => reject_request
  end.

(** The body shared by the two login handlers:
    [if not doc or not verify_password(password, doc["hashed_password"])]. *)
Definition check_credentials (B : BcryptBackend) (c : collection) (login_data : LoginData)
    (ok : string) : M string :=
  let* doc := find_one c "email" (VStr (login_email login_data)) in
  match doc with
  | None => raise_HTTPException 400 "Invalid email or password"
  | Some d =>
      if negb (dict_truthy d) then raise_HTTPException 400 "Invalid email or password"
      else
        let* h := getitem d "hashed_password" in
        let* verified := verify_password B (login_password login_data) h in
        if negb verified then raise_HTTPException 400 "Invalid email or password"
        else ret ok
  end.

(** [POST /candidates/login] *)
Definition login (body : LoginData) : M string :=
  match LoginData_validate P body with
  | Some login_data => check_credentials (bcrypt P) Candidates login_data "Login successful"
  | None => reject_request
  end.

(** The handler of [POST /jobs/{job_id}/apply], on the validated
    e-mail. *)
Definition apply_handler (job_id : string) (candidate_email : string) : M string :=
  let* oid := ObjectId_new job_id in
  let* job := find_one Jobs "_id" (VOid (on_wire P oid)) in
  if negb (truthy job) then raise_HTTPException 404 "Job not found"
  else
    let* candidate := find_one Candidates "email" (VStr candidate_email) in
    if negb (truthy candidate) then raise_HTTPException 404 "Candidate not found"
    else
      let* oid' := ObjectId_new job_id in
      insert_one Applications
        (list_to_map [("job_id", VOid (on_wire P oid'));
                      ("candidate_email", VStr candidate_email)]) ;;
      ret "Job application successful".

(** [POST /jobs/{job_id}/apply]: [candidate_email: EmailStr] is a query
    parameter the framework validates. *)
Definition apply_for_job (job_id : string) (candidate_email : string) : M string :=
  match EmailStr P candidate_email with
  | Some e => apply_handler job_id e
  | None => reject_request
  end.

(** [POST /candidates/{candidate_id}/resume] *)
Definition upload_resume (candidate_id : string) (file : UploadFile) : M string :=
  let* oid := ObjectId_new candidate_id in
  let* candidate := find_one Candidates "_id" (VOid (on_wire P oid)) in
  if negb (truthy candidate) then raise_HTTPException 404 "Candidate not found"
  else
    let resume_path := "resumes/" +:+ candidate_id +:+ "_" +:+ filename file in
    perform P (Makedirs (dirname resume_path)) ;;
    perform P (WriteFile resume_path (content file)) ;;
    let* oid' := ObjectId_new candidate_id in
    update_one Candidates "_id" (VOid (on_wire P oid'))
      {[ "resume_path" := VStr resume_path ]} ;;
    ret "Resume uploaded successfully".

(** [POST /admin/login] *)
Definition admin_login (body : LoginData) : M string :=
  match LoginData_validate P body with
  | Some login_data => check_credentials (bcrypt P) Admins login_data "Admin login successful"
  | None => reject_request
  end.

(** [GET /admin/candidates] *)
Definition view_candidates : M (list CandidateResponse) :=
  let* cands := find_to_list Candidates 100 in
  mapM (CandidateResponse_of_doc P) cands.

(** [GET /admin/resumes] *)
Definition has_key (k : string) (d : document) : bool := bool_decide (is_Some (d !! k)).

Definition resume_entry (candidate : document) : M ResumeEntry :=
  let* e := getitem candidate "email" in
  ret (mkResumeEntry e (default VNull (candidate !! "resume_path"))).

Definition view_resumes : M (list ResumeEntry) :=
  let* cands := find_to_list Candidates 100 in
  mapM resume_entry (List.filter (has_key "resume_path") cands).

(** [GET /jobs] *)
Definition get_jobs : M (list JobResponse) :=
  let* js := find_to_list Jobs 100 in
  mapM JobResponse_of_doc js.

(** [GET /jobs/{job_id}] *)
Definition get_job (job_id : string) : M JobResponse :=
  let* oid := ObjectId_new job_id in
  let* job := find_one Jobs "_id" (VOid (on_wire P oid)) in
  match job with
  | None => raise_HTTPException 404 "Job not found"
  | Some j => JobResponse_of_doc j
  end.

(** [POST /jobs] *)
Definition post_job (job : Job) : M JobResponse :=
  let* inserted_id := insert_one Jobs (Job_dict job) in
  JobResponse_of_kwargs (str_of_ObjectId inserted_id) (Job_dict job).

(** [PUT /jobs/{job_id}] *)
Definition update_job (job_id : string) (job : Job) : M JobResponse :=
  let* oid := ObjectId_new job_id in
  let* matched_count := update_one Jobs "_id" (VOid (on_wire P oid)) (Job_dict job) in
  if (matched_count =? 0)%nat then raise_HTTPException 404 "Job not found"
  else JobResponse_of_kwargs job_id (Job_dict job).

(** [PUT /jobs/{job_id}/status]: the framework checks the declared
    pattern of the query parameter before it calls the handler. *)
Definition update_job_status (job_id : string) (status : string) : M string :=
  if negb (Pattern.search status_pattern status) then
    reject_request
  else
    let* oid := ObjectId_new job_id in
    let* matched_count :=
      update_one Jobs "_id" (VOid (on_wire P oid)) {[ "status" := VStr status ]} in
    if (matched_count =? 0)%nat then raise_HTTPException 404 "Job not found"
    else ret ("Job status updated to " +:+ status).

(** [GET /candidates] *)
Definition get_candidates : M (list CandidateResponse) :=
  let* cands := find_to_list Candidates 100 in
  mapM (CandidateResponse_of_doc P) cands.

(** [GET /candidates/{candidate_id}] *)
Definition get_candidate (candidate_id : string) : M CandidateResponse :=
  let* oid := ObjectId_new candidate_id in
  let* candidate := find_one Candidates "_id" (VOid (on_wire P oid)) in
  match candidate with
  | None => raise_HTTPException 404 "Candidate not found"
  | Some c => CandidateResponse_of_doc P c
  end.

(** ** The service as a transition system *)

Inductive request :=
| GetRoot
| PostSignup (candidate : Candidate)
| PostLogin (login_data : LoginData)
| PostApply (job_id candidate_email : string)
| PostResume (candidate_id : string) (file : UploadFile)
| PostAdminLogin (login_data : LoginData)
| GetAdminCandidates
| GetAdminResumes
| GetJobs
| GetJob (job_id : string)
| PostJob (job : Job)
| PutJob (job_id : string) (job : Job)
| PutJobStatus (job_id status : string)
| GetCandidates
| GetCandidate (candidate_id : string).

(** The world after a request; the response goes to the client. *)
Definition serve (r : request) (w : world) : world :=
  match r with
  | GetRoot => snd (root w)
  | PostSignup c => snd (signup c w)
  | PostLogin d => snd (login d w)
  | PostApply j e => snd (apply_for_job j e w)
  | PostResume c f => snd (upload_resume c f w)
  | PostAdminLogin d => snd (admin_login d w)
  | GetAdminCandidates => snd (view_candidates w)
  | GetAdminResumes => snd (view_resumes w)
  | GetJobs => snd (get_jobs w)
  | GetJob j => snd (get_job j w)
  | PostJob j => snd (post_job j w)
  | PutJob i j => snd (update_job i j w)
  | PutJobStatus i s => snd (update_job_status i s w)
  | GetCandidates => snd (get_candidates w)
  | GetCandidate c => snd (get_candidate c w)
  end.

(** The worlds the service reaches from [w0] when it serves its requests
    one after the other.  (The runtime may also interleave two handlers
    at their awaits; see [signup_found] and [signup_resumed] below for
    what that does to signup.) *)
Inductive reachable (w0 : world) : world -> Prop :=
| reachable_start : reachable w0 w0
| reachable_serve r w : reachable w0 w -> reachable w0 (serve r w).

(** The signup handler on both sides of its first await: the lookup, and
    what the handler does once the lookup has answered. *)
Definition signup_found (candidate : Candidate) : M (option document) :=
  find_one Candidates "email" (VStr (email candidate)).

Definition signup_resumed (candidate : Candidate) (existing_candidate : option document)
  : M CandidateResponse :=
  if truthy existing_candidate then
    raise_HTTPException 400 "Email already registered"
  else
    let* hashed := get_password_hash (bcrypt P) (password candidate) in
    let* candidate_in_db := CandidateInDB_new P (Candidate_dict candidate) hashed in
    let* inserted_id :=
      insert_one Candidates (CandidateInDB_dict ["password"] candidate_in_db) in
    CandidateResponse_new P (str_of_ObjectId inserted_id)
      (VStr (email candidate)) (VStr (name candidate)).

End Handlers.

(** The world of a fresh deployment: an empty database, but for the
    administrators, who are created out of band. *)
Definition fresh_world (w : world) : Prop :=
  candidates w = [] /\ jobs w = [] /\ applications w = [].

(** ** A platform to run on

    Stand-ins for the libraries, to run the routes on concrete requests:
    a "hash" that keeps the salt counter and the secret in the clear
    behind a bcrypt identifier, a validator that lower-cases what follows
    the at-sign, zero padding of short identifiers and a file system
    that refuses nothing.  The theorems below hold for every platform;
    the stand-ins only let the concrete runs evaluate. *)
Definition demo_backend : BcryptBackend := {|
  bcrypt_hash := fun salt secret =>
    inr ("$2b$12$" +:+ Hex.hexlify (le_bytes 2 salt) +:+ "$" +:+ secret);
  bcrypt_verify := fun secret hash =>
    match Pattern.strip_prefix "$2b$12$" hash with
    | Some rest => inr (String.eqb (substring 5 (String.length rest - 5) rest) secret)
    | None => inl (HashError "malformed bcrypt hash")
    end
|}.

Definition to_lower (c : ascii) : ascii :=
  let n := N_of_ascii c in
  if ((65 <=? n) && (n <=? 90))%N then ascii_of_N (n + 32) else c.

Fixpoint lower (s : string) : string :=
  match s with
  | EmptyString => EmptyString
  | String c s' => String (to_lower c) (lower s')
  end.

Fixpoint lower_domain (s : string) : string :=
  match s with
  | EmptyString => EmptyString
  | String c s' => if Ascii.eqb c "@" then String c (lower s') else String c (lower_domain s')
  end.

Definition demo_platform : Platform := {|
  bcrypt := demo_backend;
  email_validator := fun s => Some (lower_domain s);
  short_id := fun bs => take 12 (bs ++ repeat 0%N 12);
  fs_refuses := fun _ _ => None
|}.

(** ** Vocabulary of the statements *)

(** Some document of collection [c] is selected by the query on the
    e-mail address, respectively on the identifier. *)
Definition email_registered (c : collection) (e : string) (w : world) : bool :=
  existsb (matches "email" (VStr e)) (docs c w).

Definition id_stored (c : collection) (oid : ObjectId) (w : world) : bool :=
  existsb (matches "_id" (VOid oid)) (docs c w).

(** The candidate document signup is said to store, with the identifier
    the store assigned. *)
Definition stored_candidate (oid : ObjectId) (e n h : string) : document :=
  list_to_map
    [("_id", VOid oid); ("email", VStr e); ("name", VStr n); ("hashed_password", VStr h)].

(** The application document apply is said to store. *)
Definition stored_application (oid job : ObjectId) (e : string) : document :=
  list_to_map [("_id", VOid oid); ("job_id", VOid job); ("candidate_email", VStr e)].

(** Handlers that leave the world alone. *)
Definition read_only {A} (m : M A) : Prop := forall w, snd (m w) = w.

(** The database of two worlds is the same: the four collections and
    the identifier generator. *)
Definition same_database (w w' : world) : Prop :=
  candidates w' = candidates w /\ admins w' = admins w /\ jobs w' = jobs w
  /\ applications w' = applications w /\ oid_counter w' = oid_counter w.

(** The validator accepts [a] and normalises it to [e], and [e] is in
    normal form: validated again, it comes back as it is. *)
Definition normalises (P : Platform) (a e : string) : Prop :=
  EmailStr P a = Some e /\ EmailStr P e = Some e.

(** Every address the validator returns is in normal form. *)
Definition idempotent_validator (P : Platform) : Prop :=
  forall a e, EmailStr P a = Some e -> EmailStr P e = Some e.

(** ** Worlds and requests the statements are run on *)

Definition empty_world : world := mkWorld [] [] [] [] 0 0 [].

Definition alice : Candidate := mkCandidate "a@x.com" "p1" "A".

(** An administrator record created out of band whose hashed_password
    is not a bcrypt string. *)
Definition legacy_admin_world : world :=
  mkWorld []
    [list_to_map [("_id", VOid (generate_ObjectId 7));
                  ("email", VStr "root@x.com");
                  ("hashed_password", VStr "hunter2")]]
    [] [] 8 0 [].

(** The document a login route reads the stored hash from. *)
Definition selected_by_email (c : collection) (e : string) (w : world) : option document :=
  List.find (matches "email" (VStr e)) (docs c w).

(** What a login route answers, in terms of the selected document and of
    what the hashing context says about its hashed_password: [r] is the
    route's result on the validated [login_data] in world [w], [ok] its
    success message. *)
Definition login_contract (B : BcryptBackend) (c : collection) (login_data : LoginData)
    (ok : string) (w : world) (r : outcome string * world) : Prop :=
  let selected := selected_by_email c (login_email login_data) w in
  let verdict h := fst (verify_password B (login_password login_data) h w) in
  snd r = w
  /\ (fst r = Return ok
      <-> exists doc h, selected = Some doc /\ doc !! "hashed_password" = Some h
                        /\ verdict h = Return true)
  /\ (fst r = HTTPException 400 "Invalid email or password"
      <-> selected = None
          \/ exists doc h, selected = Some doc /\ doc !! "hashed_password" = Some h
                           /\ verdict h = Return false)
  /\ (forall e, fst r = Raise e
      <-> exists doc, selected = Some doc
            /\ (doc !! "hashed_password" = None /\ e = KeyError "hashed_password"
                \/ exists h, doc !! "hashed_password" = Some h /\ verdict h = Raise e))
  /\ (forall doc h, selected = Some doc -> doc !! "hashed_password" = Some (VStr h) ->
      bcrypt_identify h = false -> fst r = Raise UnknownHashError).

Definition backend_engineer : Job :=
  mkJob "Backend engineer" "Builds the API" "Engineering" "Pune" "Full-time"
    None (Some "2025-01-31") ["python"; "mongodb"] None.

(** One candidate (alice) and one job, whose identifier renders as
    "000000000000000000000001". *)
Definition staffed_world : world :=
  snd (post_job backend_engineer (snd (signup demo_platform alice empty_world))).

(** Computations that end in a value or in an uncaught exception, never
    in an HTTP error of their own. *)
Definition raises_only {A} (m : M A) : Prop :=
  forall w, (forall s d, fst (m w) <> HTTPException s d)
            /\ fst (m w) <> RequestValidationError.

(** The path a resume is stored under. *)
Definition resume_path_of (candidate_id : string) (file : UploadFile) : string :=
  "resumes/" +:+ candidate_id +:+ "_" +:+ filename file.

(** After the calls logged in [log], the file system accepts the two
    calls that store [data] under [path]. *)
Definition fs_accepts (P : Platform) (log : list fs_event) (path data : string) : Prop :=
  fs_refuses P log (Makedirs (dirname path)) = None
  /\ fs_refuses P (log ++ [(Makedirs (dirname path), None)]) (WriteFile path data) = None.

(** Two signups on validated bodies whose lookups are both answered
    before either handler resumes: the interleaving the runtime allows
    at the first await of the handler. *)
Definition signups_interleaved (P : Platform) (c1 c2 : Candidate)
  : M (outcome CandidateResponse * outcome CandidateResponse) :=
  let* found1 := signup_found c1 in
  let* found2 := signup_found c2 in
  fun w =>
    let (r1, w1) := signup_resumed P c1 found1 w in
    let (r2, w2) := signup_resumed P c2 found2 w1 in
    (Return (r1, r2), w2).

(** The two calls a resume upload makes to the file system, both
    answered without error. *)
Definition resume_written (path data : string) : list fs_event :=
  [(Makedirs (dirname path), None); (WriteFile path data, None)].

(** The world after the resume of the candidate behind [oid] was stored
    under [path]. *)
Definition with_resume (oid : ObjectId) (path data : string) (w : world) : world :=
  let w1 := with_fs_log (fs_log w ++ resume_written path data) w in
  match set_first (matches "_id" (VOid oid)) {[ "resume_path" := VStr path ]} (candidates w) with
  | Some l => with_docs Candidates l w1
  | None => w1
  end.

(** The entry [view_resumes] builds from a candidate document. *)
Definition resume_entry_of (d : document) : ResumeEntry :=
  mkResumeEntry (default VNull (d !! "email")) (default VNull (d !! "resume_path")).

(** A candidate who has uploaded a resume; [i] tells them apart. *)
Definition numbered_candidate (i : nat) : document :=
  list_to_map
    [("_id", VOid (generate_ObjectId (N.of_nat i)));
     ("email", VStr (Hex.hexlify [N.of_nat i] +:+ "@x.com"));
     ("name", VStr "N");
     ("hashed_password", VStr "$2b$12$0000$pw");
     ("resume_path", VStr ("resumes/" +:+ Hex.hexlify [N.of_nat i] +:+ "_cv.pdf"))].

(** 101 candidates, each with a resume. *)
Definition crowded_world : world :=
  mkWorld (map numbered_candidate (seq 0 101)) [] [] [] 101 0 [].

(** Documents a response schema accepts. *)
Definition is_str (v : option value) : bool :=
  match v with
  | Some (VStr _) => true
  | _ => false
  end.

Definition is_email (P : Platform) (v : option value) : bool :=
  match v with
  | Some (VStr s) => match EmailStr P s with Some _ => true | None => false end
  | _ => false
  end.

Definition is_optional_str (v : option value) : bool :=
  match v with
  | Some (VStr _) | Some VNull => true
  | _ => false
  end.

Definition is_list (v : option value) : bool :=
  match v with
  | Some (VList _) => true
  | _ => false
  end.

Definition candidate_shaped (P : Platform) (d : document) : bool :=
  has_key "_id" d && is_email P (d !! "email") && is_str (d !! "name").

Definition job_shaped (d : document) : bool :=
  has_key "_id" d && negb (has_key "id" d)
  && is_str (d !! "title") && is_str (d !! "description") && is_str (d !! "department")
  && is_str (d !! "location") && is_str (d !! "employment_type")
  && is_optional_str (d !! "salary_range") && is_optional_str (d !! "application_deadline")
  && is_list (d !! "required_skills") && is_optional_str (d !! "additional_info").

(** No field named password. *)
Definition no_password_field (d : document) : Prop := d !! "password" = None.

(** The document a route reads by identifier. *)
Definition selected_by_id (c : collection) (oid : ObjectId) (w : world) : option document :=
  List.find (matches "_id" (VOid oid)) (docs c w).

(** The e-mail fields and the identifier fields of a collection, in the
    collection's order. *)
Definition emails (c : collection) (w : world) : list (option value) :=
  map (fun d : document => d !! "email") (docs c w).

Definition identifiers (c : collection) (w : world) : list (option value) :=
  map (fun d : document => d !! "_id") (docs c w).

(** [d'] has the fields of [d], but for the field [k]. *)
Definition same_but (k : string) (d d' : document) : Prop :=
  forall k' : string, k' <> k -> d' !! k' = d !! k'.

(** Computations whose result does not depend on the world, and that
    leave it alone. *)
Definition constant {A} (m : M A) : Prop := exists r, forall w, m w = (r, w).

(** [after] is [before] with at most one element more, at its end. *)
Definition grows_by_one {V} (before after : list V) : Prop :=
  exists added, after = before ++ added /\ length added <= 1.

(** * Properties *)
(** ** The status pattern *)

Lemma append_String (a : ascii) (p t : string) : String a p +:+ t = String a (p +:+ t).
Proof. reflexivity. Qed.

Lemma append_empty_r (p : string) : p +:+ "" = p.
Proof. induction p as [|a p IH]; [reflexivity | rewrite append_String, IH; reflexivity]. Qed.

Lemma append_length (p t : string) :
  String.length (p +:+ t) = (String.length p + String.length t)%nat.
Proof.
  induction p as [|a p IH]; [reflexivity|].
  rewrite append_String. simpl. rewrite IH. reflexivity.
Qed.

Lemma strip_prefix_app (p s t : string) :
  Pattern.strip_prefix p s = Some t <-> s = p +:+ t.
Proof.
  revert s; induction p as [|a p IH]; intros s; simpl.
  - split; [intros [= ->]; reflexivity | intros ->; reflexivity].
  - destruct s as [|b s]; simpl.
    + split; discriminate.
    + destruct (Ascii.eqb_spec a b) as [->|Hne].
      * rewrite IH, append_String. split; [intros ->; reflexivity | intros [= ->]; reflexivity].
      * rewrite append_String. split; [discriminate | intros [= Hab _]; congruence].
Qed.

(** A literal followed by the end anchor matches exactly the literal. *)
Lemma lit_eol_exact (p s : string) (b : bool) :
  Pattern.matches_at (Pattern.Seq (Pattern.Lit p) Pattern.Eol) b s (fun _ _ => true) = true
  <-> s = p.
Proof.
  simpl. destruct (Pattern.strip_prefix p s) as [t|] eqn:E.
  - apply strip_prefix_app in E. subst s. destruct t as [|c t].
    + split; [intros _ | reflexivity]. apply append_empty_r.
    + split; [discriminate|].
      intros H. exfalso. apply (f_equal String.length) in H.
      rewrite append_length in H. simpl in H. lia.
  - split; [discriminate|]. intros ->.
    assert (Pattern.strip_prefix p p = Some "") as E'.
    { apply strip_prefix_app. symmetry. apply append_empty_r. }
    congruence.
Qed.

(** Away from the start of the text the start anchor never matches. *)
Lemma status_pattern_needs_start (s : string) :
  Pattern.search_from status_pattern false s = false.
Proof. induction s as [|c s IH]; simpl; [reflexivity | exact IH]. Qed.

Lemma status_pattern_exact (s : string) :
  Pattern.search status_pattern s = true
  <-> s = "Open" \/ s = "Closed" \/ s = "Filled".
Proof.
  unfold Pattern.search.
  assert (Pattern.search_from status_pattern true s
          = Pattern.matches_at (Pattern.Seq (Pattern.Lit "Open") Pattern.Eol) true s (fun _ _ => true)
            || (Pattern.matches_at (Pattern.Seq (Pattern.Lit "Closed") Pattern.Eol) true s (fun _ _ => true)
            || Pattern.matches_at (Pattern.Seq (Pattern.Lit "Filled") Pattern.Eol) true s (fun _ _ => true)))
    as ->.
  { destruct s as [|c s].
    - reflexivity.
    - change (Pattern.search_from status_pattern true (String c s))
        with (Pattern.matches_at status_pattern true (String c s) (fun _ _ => true)
              || Pattern.search_from status_pattern false s).
      rewrite status_pattern_needs_start, orb_false_r. reflexivity. }
  rewrite !orb_true_iff, !lit_eol_exact. reflexivity.
Qed.

(** ** The store *)

Lemma matches_truthy (k : string) (q : value) (d : document) :
  matches k q d = true -> dict_truthy d = true.
Proof.
  unfold matches, dict_truthy. intros H.
  destruct (d !! k) eqn:E; [|discriminate].
  apply negb_true_iff, bool_decide_eq_false. intros ->.
  rewrite lookup_empty in E. discriminate.
Qed.

Lemma truthy_find (k : string) (q : value) (l : list document) :
  truthy (List.find (matches k q) l) = existsb (matches k q) l.
Proof.
  induction l as [|d l IH]; simpl; [reflexivity|].
  destruct (matches k q d) eqn:E; simpl; [|exact IH].
  apply (matches_truthy _ _ _ E).
Qed.

Lemma find_None_existsb {A} (p : A -> bool) (l : list A) :
  List.find p l = None <-> existsb p l = false.
Proof.
  induction l as [|a l IH]; simpl; [tauto|].
  destruct (p a); simpl; [split; discriminate | exact IH].
Qed.

Lemma filter_none {A} (p : A -> bool) (l : list A) :
  existsb p l = false -> List.filter p l = [].
Proof.
  induction l as [|a l IH]; simpl; [reflexivity|].
  destruct (p a); simpl; [discriminate | exact IH].
Qed.

Lemma matches_lookup (k : string) (v : value) (d : document) :
  d !! k = Some v -> matches k v d = true.
Proof.
  intros E. unfold matches, field_matches. rewrite E.
  rewrite bool_decide_eq_true_2; reflexivity.
Qed.

(** ** Signup *)

Lemma signup_document (oid : ObjectId) (c : Candidate) (h : string) :
  <["_id" := VOid oid]> (CandidateInDB_dict ["password"] (mkCandidateInDB c h))
  = stored_candidate oid (email c) (name c) h.
Proof. destruct c as [e p n]. reflexivity. Qed.

Lemma email_arg_str (P : Platform) (s : string) :
  email_arg P (Some (VStr s)) =
  match EmailStr P s with
  | Some e => ret e
  | None => raise ValidationError
  end.
Proof. reflexivity. Qed.

(** The handler of signup, run: the lookup, the hash, the second
    validation of the e-mail, the insert. *)
Lemma signup_handler_run (P : Platform) (c : Candidate) (w : world) :
  signup_handler P c w =
  if existsb (matches "email" (VStr (email c))) (candidates w)
  then (HTTPException 400 "Email already registered", w)
  else
    match bcrypt_handler_hash (bcrypt P) (urandom w) (password c) with
    | inl x => (Raise x, with_urandom (N.succ (urandom w)) w)
    | inr h =>
        match EmailStr P (email c) with
        | None => (Raise ValidationError, with_urandom (N.succ (urandom w)) w)
        | Some e' =>
            (Return (mkCandidateResponse (str_of_ObjectId (generate_ObjectId (oid_counter w)))
                       e' (name c)),
             with_oid_counter (N.succ (oid_counter w))
               (with_docs Candidates
                  (candidates w ++
                     [stored_candidate (generate_ObjectId (oid_counter w)) e' (name c) h])
                  (with_urandom (N.succ (urandom w)) w)))
        end
    end.
Proof.
  unfold signup_handler, bind, find_one.
  rewrite truthy_find. cbn [docs].
  destruct (existsb _ (candidates w)); [reflexivity|].
  unfold get_password_hash, CryptContext_hash.
  destruct (bcrypt_handler_hash _ _ _) as [x|h]; [reflexivity|].
  destruct c as [e p n]. cbn [email password name].
  unfold CandidateInDB_new, CandidateResponse_new, bind.
  change (Candidate_dict (mkCandidate e p n) !! "email") with (Some (VStr e)).
  change (Candidate_dict (mkCandidate e p n) !! "password") with (Some (VStr p)).
  change (Candidate_dict (mkCandidate e p n) !! "name") with (Some (VStr n)).
  rewrite !email_arg_str.
  destruct (EmailStr P e) as [e'|]; [|reflexivity].
  unfold str_arg, ret, insert_one. rewrite signup_document. reflexivity.
Qed.

Lemma signup_run (P : Platform) (body : Candidate) (w : world) :
  signup P body w =
  match EmailStr P (email body) with
  | None => (RequestValidationError, w)
  | Some e => signup_handler P (mkCandidate e (password body) (name body)) w
  end.
Proof.
  unfold signup, Candidate_validate. destruct (EmailStr P (email body)); reflexivity.
Qed.

Lemma stored_candidate_email (oid : ObjectId) (e n h : string) :
  stored_candidate oid e n h !! "email" = Some (VStr e).
Proof. reflexivity. Qed.

(** C1 (as amended). Signup on an address the validator rejects is
    answered 422 and changes nothing.  On a validated address [e] that a
    candidate document already carries it fails with HTTP 400 and leaves
    the world as it is.  On any other validated address it hashes the
    password: when the handler refuses the password the exception
    propagates and the database is as before; else, when [e] validates
    again to [e'] (the address itself, when it is in normal form), it
    appends exactly the document {_id, email, name, hashed_password},
    with the identifier the store assigned and the hash, and returns
    that identifier with the address and the name; when [e] does not
    validate again, the exception propagates and the database is as
    before.  After a signup that stored an address in normal form, a
    second one on that address is rejected and one candidate document
    carries the address. *)
Theorem signup_rejects_duplicate_else_stores
    (P : Platform) (body : Candidate) (w : world) :
  let oid := generate_ObjectId (oid_counter w) in
  let hashed := bcrypt_handler_hash (bcrypt P) (urandom w) (password body) in
  let r := signup P body w in
  (EmailStr P (email body) = None -> r = (RequestValidationError, w))
  /\ forall e, EmailStr P (email body) = Some e ->
     (email_registered Candidates e w = true ->
      r = (HTTPException 400 "Email already registered", w))
     /\ (email_registered Candidates e w = false ->
         (forall x, hashed = inl x -> fst r = Raise x /\ same_database w (snd r))
         /\ (forall h, hashed = inr h ->
             (EmailStr P e = None ->
              fst r = Raise ValidationError /\ same_database w (snd r))
             /\ forall e', EmailStr P e = Some e' ->
                fst r = Return (mkCandidateResponse (str_of_ObjectId oid) e' (name body))
                /\ candidates (snd r)
                   = candidates w ++ [stored_candidate oid e' (name body) h]
                /\ admins (snd r) = admins w
                /\ jobs (snd r) = jobs w
                /\ applications (snd r) = applications w
                /\ (e' = e ->
                    forall again : Candidate,
                      EmailStr P (email again) = Some e ->
                      signup P again (snd r)
                      = (HTTPException 400 "Email already registered", snd r)
                      /\ length (List.filter (matches "email" (VStr e)) (candidates (snd r)))
                         = 1))).
Proof.
  cbv zeta. unfold email_registered. cbn [docs].
  split; [intros Hinv; rewrite signup_run, Hinv; reflexivity|].
  intros e He. rewrite signup_run, He, signup_handler_run. cbn [email password name].
  split; intros Hdup; rewrite Hdup; [reflexivity|].
  split.
  - intros x Hx. rewrite Hx. split; [reflexivity|]. repeat split.
  - intros h Hh. rewrite Hh. split.
    + intros Hnone. rewrite Hnone. split; [reflexivity|]. repeat split.
    + intros e' He'. rewrite He'. cbn [fst snd].
      split; [reflexivity|]. split; [reflexivity|].
      split; [reflexivity|]. split; [reflexivity|]. split; [reflexivity|].
      intros -> again Hagain. split.
      * rewrite signup_run, Hagain, signup_handler_run. cbn [email password name].
        cbn [candidates with_oid_counter with_docs with_urandom].
        rewrite existsb_app. cbn [existsb].
        rewrite (matches_lookup "email" (VStr e)) by apply stored_candidate_email.
        rewrite orb_true_r. reflexivity.
      * cbn [candidates with_oid_counter with_docs with_urandom].
        rewrite List.filter_app, (filter_none _ _ Hdup). cbn [List.filter app].
        rewrite (matches_lookup "email" (VStr e)) by apply stored_candidate_email.
        reflexivity.
Qed.

(** Signing up alice on the empty database, twice. *)
Lemma signup_twice_on_empty_world :
  fst (signup demo_platform alice empty_world)
  = Return (mkCandidateResponse "000000000000000000000000" "a@x.com" "A")
  /\ fst (signup demo_platform alice (snd (signup demo_platform alice empty_world)))
     = HTTPException 400 "Email already registered".
Proof.
  destruct (signup_rejects_duplicate_else_stores demo_platform alice empty_world) as [_ H].
  destruct (H "a@x.com" eq_refl) as [_ H'].
  destruct (H' eq_refl) as [_ H2].
  destruct (H2 _ eq_refl) as [_ H3].
  destruct (H3 "a@x.com" eq_refl) as (H4 & _ & _ & _ & _ & H5).
  split; [exact H4|].
  destruct (H5 eq_refl alice eq_refl) as [-> _]. reflexivity.
Defined.

(** C1, the claim as stated fails: an unregistered address does not
    always end in a stored candidate.  A password that holds a NUL byte
    is refused by the bcrypt handler, whatever the platform: the
    exception propagates (a 500) and nothing is stored; and an address
    without at-sign is rejected with 422, not stored. *)
Lemma signup_unregistered_address_stores_nothing :
  let nul := String Ascii.zero "" in
  email_registered Candidates "a@x.com" empty_world = false
  /\ signup demo_platform (mkCandidate "a@x.com" nul "A") empty_world
     = (Raise PasswordValueError, with_urandom 1 empty_world)
  /\ candidates (snd (signup demo_platform (mkCandidate "a@x.com" nul "A") empty_world)) = []
  /\ email_registered Candidates "bob" empty_world = false
  /\ (forall P : Platform,
        signup P (mkCandidate "bob" "p1" "B") empty_world
        = (RequestValidationError, empty_world)).
Proof. cbv zeta. repeat split. Qed.

(** ** Handlers that only read *)

Lemma read_only_ret {A} (a : A) : read_only (ret a).
Proof. intros w. reflexivity. Qed.

Lemma read_only_raise {A} (e : exn) : read_only (@raise A e).
Proof. intros w. reflexivity. Qed.

Lemma read_only_raise_HTTPException {A} (c : nat) (d : string) :
  read_only (@raise_HTTPException A c d).
Proof. intros w. reflexivity. Qed.

Lemma read_only_bind {A B} (m : M A) (k : A -> M B) :
  read_only m -> (forall a, read_only (k a)) -> read_only (bind m k).
Proof.
  intros Hm Hk w. unfold bind. specialize (Hm w).
  destruct (m w) as [[a| | |] w']; simpl in Hm; subst w'; try reflexivity.
  apply Hk.
Qed.

Lemma read_only_find_one (c : collection) (k : string) (q : value) :
  read_only (find_one c k q).
Proof. intros w. reflexivity. Qed.

Lemma read_only_find_to_list (c : collection) (n : nat) : read_only (find_to_list c n).
Proof. intros w. reflexivity. Qed.

Lemma read_only_getitem (d : document) (k : string) : read_only (getitem d k).
Proof. unfold getitem. destruct (d !! k); [apply read_only_ret | apply read_only_raise]. Qed.

Lemma read_only_ObjectId_new (s : string) : read_only (ObjectId_new s).
Proof.
  unfold ObjectId_new. destruct (ObjectId_of_str s); [apply read_only_ret | apply read_only_raise].
Qed.

Lemma read_only_str_arg (v : option value) : read_only (str_arg v).
Proof. destruct v as [[]|]; simpl; (apply read_only_ret || apply read_only_raise). Qed.

Lemma read_only_optional_str_arg (v : option value) : read_only (optional_str_arg v).
Proof. destruct v as [[]|]; simpl; (apply read_only_ret || apply read_only_raise). Qed.

Lemma read_only_list_arg (v : option value) : read_only (list_arg v).
Proof. destruct v as [[]|]; simpl; (apply read_only_ret || apply read_only_raise). Qed.

Lemma read_only_mapM {A B} (f : A -> M B) (l : list A) :
  (forall a, read_only (f a)) -> read_only (mapM f l).
Proof.
  intros Hf. induction l as [|a l IH]; simpl.
  - apply read_only_ret.
  - apply read_only_bind; [apply Hf|]. intros b.
    apply read_only_bind; [exact IH|]. intros bs. apply read_only_ret.
Qed.

Lemma read_only_verify_password (B : BcryptBackend) (p : string) (h : value) :
  read_only (verify_password B p h).
Proof.
  unfold verify_password, CryptContext_verify.
  destruct h as [|s| |]; try apply read_only_ret; try apply read_only_raise.
  destruct (bcrypt_identify s); [|apply read_only_raise].
  destruct (bcrypt_verify B p s); [apply read_only_raise | apply read_only_ret].
Qed.

Create HintDb frame.

#[export] Hint Resolve read_only_ret read_only_raise read_only_raise_HTTPException
  read_only_find_one read_only_find_to_list read_only_getitem read_only_ObjectId_new
  read_only_str_arg read_only_optional_str_arg read_only_list_arg
  read_only_verify_password : frame.

(** Splits a handler along its binds and branches. *)
Ltac frame :=
  repeat first
    [ progress auto with frame
    | apply read_only_bind; [|intros ?]
    | apply read_only_mapM; intros ?
    | match goal with
      | |- read_only (if ?b then _ else _) => destruct b
      | |- read_only (match ?x with _ => _ end) => destruct x
      end ].

Lemma read_only_email_arg (P : Platform) (v : option value) : read_only (email_arg P v).
Proof.
  destruct v as [[]|]; simpl; try apply read_only_raise.
  destruct (EmailStr P s); [apply read_only_ret | apply read_only_raise].
Qed.

Lemma read_only_reject_request {A} : read_only (@reject_request A).
Proof. intros w. reflexivity. Qed.

#[export] Hint Resolve read_only_email_arg read_only_reject_request : frame.

Lemma read_only_CandidateResponse_new (P : Platform) (i : string) (e n : value) :
  read_only (CandidateResponse_new P i e n).
Proof. unfold CandidateResponse_new. frame. Qed.

Lemma read_only_CandidateResponse_of_doc (P : Platform) (d : document) :
  read_only (CandidateResponse_of_doc P d).
Proof. unfold CandidateResponse_of_doc. frame; apply read_only_CandidateResponse_new. Qed.

Lemma read_only_JobResponse_of_kwargs (i : string) (d : document) :
  read_only (JobResponse_of_kwargs i d).
Proof. unfold JobResponse_of_kwargs. frame. Qed.

Lemma read_only_JobResponse_of_doc (d : document) : read_only (JobResponse_of_doc d).
Proof. unfold JobResponse_of_doc. frame. apply read_only_JobResponse_of_kwargs. Qed.

Lemma read_only_resume_entry (d : document) : read_only (resume_entry d).
Proof. unfold resume_entry. frame. Qed.

#[export] Hint Resolve read_only_CandidateResponse_of_doc read_only_JobResponse_of_kwargs
  read_only_JobResponse_of_doc read_only_resume_entry : frame.

Lemma read_only_check_credentials (B : BcryptBackend) (c : collection) (d : LoginData)
    (ok : string) :
  read_only (check_credentials B c d ok).
Proof. unfold check_credentials. frame. Qed.

Lemma read_only_login (P : Platform) (d : LoginData) : read_only (login P d).
Proof.
  unfold login. destruct (LoginData_validate P d); [apply read_only_check_credentials|].
  apply read_only_reject_request.
Qed.

Lemma read_only_admin_login (P : Platform) (d : LoginData) : read_only (admin_login P d).
Proof.
  unfold admin_login. destruct (LoginData_validate P d); [apply read_only_check_credentials|].
  apply read_only_reject_request.
Qed.

Lemma read_only_view_candidates (P : Platform) : read_only (view_candidates P).
Proof. unfold view_candidates. frame. Qed.

Lemma read_only_view_resumes : read_only view_resumes.
Proof. unfold view_resumes. frame. Qed.

Lemma read_only_get_jobs : read_only get_jobs.
Proof. unfold get_jobs. frame. Qed.

Lemma read_only_get_job (P : Platform) (job_id : string) : read_only (get_job P job_id).
Proof. unfold get_job. frame. Qed.

Lemma read_only_get_candidates (P : Platform) : read_only (get_candidates P).
Proof. unfold get_candidates. frame. Qed.

Lemma read_only_get_candidate (P : Platform) (candidate_id : string) :
  read_only (get_candidate P candidate_id).
Proof. unfold get_candidate. frame. Qed.

(** ** Credentials *)

Lemma verify_password_unidentified (B : BcryptBackend) (plain hashed : string) (w : world) :
  bcrypt_identify hashed = false ->
  verify_password B plain (VStr hashed) w = (Raise UnknownHashError, w).
Proof.
  intros H. unfold verify_password, CryptContext_verify. rewrite H. reflexivity.
Qed.

(** The two login routes, run: the query on the e-mail selects a
    document or not; the selected document has a hashed_password or
    not; the context verifies, refuses or raises. *)
Lemma check_credentials_run (B : BcryptBackend) (c : collection) (d : LoginData)
    (ok : string) (w : world) :
  check_credentials B c d ok w =
  match List.find (matches "email" (VStr (login_email d))) (docs c w) with
  | None => (HTTPException 400 "Invalid email or password", w)
  | Some doc =>
      match doc !! "hashed_password" with
      | None => (Raise (KeyError "hashed_password"), w)
      | Some h =>
          match fst (verify_password B (login_password d) h w) with
          | Return true => (Return ok, w)
          | Return false => (HTTPException 400 "Invalid email or password", w)
          | HTTPException s m => (HTTPException s m, w)
          | RequestValidationError => (RequestValidationError, w)
          | Raise e => (Raise e, w)
          end
      end
  end.
Proof.
  unfold check_credentials, bind, find_one.
  destruct (List.find _ (docs c w)) as [doc|] eqn:Efind; [|reflexivity].
  apply List.find_some in Efind as [_ Hm].
  rewrite (matches_truthy _ _ _ Hm). cbn [negb].
  unfold getitem. destruct (doc !! "hashed_password") as [h|]; [|reflexivity].
  unfold ret at 1.
  pose proof (read_only_verify_password B (login_password d) h w) as Hw.
  destruct (verify_password B (login_password d) h w) as [[[|]| | |] w']; simpl in *; subst w';
    reflexivity.
Qed.

Lemma verify_password_outcome (B : BcryptBackend) (plain : string) (h : value) (w : world) :
  fst (verify_password B plain h w) <> RequestValidationError
  /\ forall s m, fst (verify_password B plain h w) <> HTTPException s m.
Proof.
  unfold verify_password, CryptContext_verify.
  destruct h as [|s| |]; simpl; try (split; [|intros ? ?]; discriminate).
  destruct (bcrypt_identify s); [|split; [|intros ? ?]; discriminate].
  destruct (bcrypt_verify B plain s); split; try intros ? ?; discriminate.
Qed.

Section LoginVerdict.

Variable B : BcryptBackend.
Variable c : collection.
Variable d : LoginData.
Variable ok : string.
Variable w : world.

Let selected := List.find (matches "email" (VStr (login_email d))) (docs c w).
Let verdict (h : value) := fst (verify_password B (login_password d) h w).

Lemma check_credentials_success :
  fst (check_credentials B c d ok w) = Return ok
  <-> exists doc h, selected = Some doc /\ doc !! "hashed_password" = Some h
                    /\ verdict h = Return true.
Proof.
  rewrite check_credentials_run. subst selected verdict. cbv beta.
  destruct (List.find _ _) as [doc|].
  - destruct (doc !! "hashed_password") as [h|] eqn:Eh.
    + destruct (fst (verify_password B (login_password d) h w)) as [[|]| | |] eqn:Ev; simpl;
        (split; [try discriminate; intros _; exists doc, h; auto
                | intros (doc' & h' & [= <-] & Hh & Hv); rewrite Eh in Hh;
                  injection Hh as <-; rewrite Ev in Hv; try discriminate; reflexivity]).
    + simpl. split; [discriminate|]. intros (doc' & h' & [= <-] & Hh & _). congruence.
  - simpl. split; [discriminate|]. intros (doc' & h' & Hs & _). discriminate.
Qed.

Lemma check_credentials_bad_request :
  fst (check_credentials B c d ok w) = HTTPException 400 "Invalid email or password"
  <-> selected = None
      \/ exists doc h, selected = Some doc /\ doc !! "hashed_password" = Some h
                       /\ verdict h = Return false.
Proof.
  rewrite check_credentials_run. subst selected verdict. cbv beta.
  destruct (List.find _ _) as [doc|].
  - destruct (doc !! "hashed_password") as [h|] eqn:Eh.
    + pose proof (verify_password_outcome B (login_password d) h w) as [Hrv Hhttp].
      destruct (fst (verify_password B (login_password d) h w)) as [[|]|s m| |] eqn:Ev; simpl;
        (split;
         [ try discriminate; try (intros _; right; exists doc, h; auto);
           try (exfalso; apply (Hhttp s m); reflexivity)
         | intros [Hn | (doc' & h' & [= <-] & Hh & Hv)]; [discriminate|];
           rewrite Eh in Hh; injection Hh as <-; rewrite Ev in Hv;
           try discriminate; reflexivity ]).
    + simpl. split; [discriminate|].
      intros [Hn | (doc' & h' & [= <-] & Hh & _)]; [discriminate | congruence].
  - simpl. split; [intros _; left; reflexivity | reflexivity].
Qed.

Lemma check_credentials_raises (e : exn) :
  fst (check_credentials B c d ok w) = Raise e
  <-> exists doc, selected = Some doc
        /\ (doc !! "hashed_password" = None /\ e = KeyError "hashed_password"
            \/ exists h, doc !! "hashed_password" = Some h /\ verdict h = Raise e).
Proof.
  rewrite check_credentials_run. subst selected verdict. cbv beta.
  destruct (List.find _ _) as [doc|].
  - destruct (doc !! "hashed_password") as [h|] eqn:Eh.
    + destruct (fst (verify_password B (login_password d) h w)) as [[|]| | |e'] eqn:Ev; simpl;
        (split;
         [ first [ discriminate
                 | intros [= <-]; exists doc; split; [reflexivity|]; right; exists h; auto ]
         | intros (doc' & [= <-] & [[Hh _] | (h' & Hh & Hv)]); [congruence|];
           rewrite Eh in Hh; injection Hh as <-; rewrite Ev in Hv;
           try discriminate; congruence ]).
    + simpl. split.
      * intros [= <-]. exists doc. auto.
      * intros (doc' & [= <-] & [[_ ->] | (h' & Hh & _)]); [reflexivity | congruence].
  - simpl. split; [discriminate|]. intros (doc' & Hs & _). discriminate.
Qed.

End LoginVerdict.

Lemma check_credentials_contract (B : BcryptBackend) (c : collection) (d : LoginData)
    (ok : string) (w : world) :
  login_contract B c d ok w (check_credentials B c d ok w).
Proof.
  unfold login_contract, selected_by_email. cbv zeta.
  split; [apply read_only_check_credentials|].
  split; [apply check_credentials_success|].
  split; [apply check_credentials_bad_request|].
  split; [intros e; apply check_credentials_raises|].
  intros doc h Hsel Hh Hid.
  apply check_credentials_raises. exists doc. split; [exact Hsel|].
  right. exists (VStr h). split; [exact Hh|].
  rewrite verify_password_unidentified by exact Hid. reflexivity.
Qed.

Lemma login_run (P : Platform) (d : LoginData) (w : world) :
  login P d w =
  match EmailStr P (login_email d) with
  | None => (RequestValidationError, w)
  | Some e =>
      check_credentials (bcrypt P) Candidates (mkLoginData e (login_password d))
        "Login successful" w
  end.
Proof. unfold login, LoginData_validate. destruct (EmailStr P (login_email d)); reflexivity. Qed.

Lemma admin_login_run (P : Platform) (d : LoginData) (w : world) :
  admin_login P d w =
  match EmailStr P (login_email d) with
  | None => (RequestValidationError, w)
  | Some e =>
      check_credentials (bcrypt P) Admins (mkLoginData e (login_password d))
        "Admin login successful" w
  end.
Proof.
  unfold admin_login, LoginData_validate. destruct (EmailStr P (login_email d)); reflexivity.
Qed.

(** C2 (as amended). A login on an address the validator rejects is
    answered 422.  On a validated address, candidate login answers from
    the document the query on that address selects in the candidates
    collection (the first one carrying it): it succeeds exactly when
    that document exists and the context verifies the supplied password
    against its hashed_password; it fails with HTTP 400 exactly when no
    document is selected or the context returns false; when the selected
    document has no hashed_password, or the context raises on it (as it
    does on every string without a bcrypt identifier), the exception
    propagates and the answer is not a 400.  The world is unchanged.
    Admin login does the same over the admins collection. *)
Theorem login_answers_from_selected_hash (P : Platform) (d : LoginData) (w : world) :
  (EmailStr P (login_email d) = None ->
   login P d w = (RequestValidationError, w)
   /\ admin_login P d w = (RequestValidationError, w))
  /\ forall e, EmailStr P (login_email d) = Some e ->
     let validated := mkLoginData e (login_password d) in
     login_contract (bcrypt P) Candidates validated "Login successful" w (login P d w)
     /\ login_contract (bcrypt P) Admins validated "Admin login successful" w
          (admin_login P d w).
Proof.
  split.
  - intros H. rewrite login_run, admin_login_run, H. split; reflexivity.
  - intros e H. cbv zeta. rewrite login_run, admin_login_run, H.
    split; apply check_credentials_contract.
Qed.

(** C2, the claim as stated fails: an administrator record whose
    hashed_password is not a bcrypt string makes admin login end in an
    uncaught exception (a 500), not in the 400 of a bad request,
    whatever the bcrypt handler computes. *)
Lemma admin_login_unidentified_hash_is_server_error :
  email_registered Admins "root@x.com" legacy_admin_world = true
  /\ EmailStr demo_platform "root@x.com" = Some "root@x.com"
  /\ admin_login demo_platform (mkLoginData "root@x.com" "hunter2") legacy_admin_world
     = (Raise UnknownHashError, legacy_admin_world)
  /\ (forall B : BcryptBackend,
        check_credentials B Admins (mkLoginData "root@x.com" "hunter2")
          "Admin login successful" legacy_admin_world
        = (Raise UnknownHashError, legacy_admin_world))
  /\ http_status (fst (admin_login demo_platform (mkLoginData "root@x.com" "hunter2")
                         legacy_admin_world)) = 500.
Proof. repeat split. Qed.

(** Signup, then login with the same and with another password, on the
    stand-in platform; the validator lower-cases the domain. *)
Example login_after_signup :
  let w := snd (signup demo_platform alice empty_world) in
  fst (login demo_platform (mkLoginData "a@x.com" "p1") w) = Return "Login successful"
  /\ fst (login demo_platform (mkLoginData "a@X.COM" "p1") w) = Return "Login successful"
  /\ fst (login demo_platform (mkLoginData "a@x.com" "wrong") w)
     = HTTPException 400 "Invalid email or password"
  /\ fst (login demo_platform (mkLoginData "b@x.com" "p1") w)
     = HTTPException 400 "Invalid email or password"
  /\ fst (login demo_platform (mkLoginData "a.x.com" "p1") w) = RequestValidationError.
Proof. repeat split. Qed.

(** C5 (as amended). For every plain password, verify raises on every
    string that carries none of bcrypt's identifiers, it does not
    return false there; it returns false without raising when the hash
    is absent (null); on a string that carries a bcrypt identifier it
    returns or raises as the bcrypt handler does. *)
Theorem verify_password_on_malformed_hash (B : BcryptBackend) (plain : string) (w : world) :
  (forall hashed, bcrypt_identify hashed = false ->
     verify_password B plain (VStr hashed) w = (Raise UnknownHashError, w))
  /\ verify_password B plain VNull w = (Return false, w)
  /\ (forall hashed, bcrypt_identify hashed = true ->
        verify_password B plain (VStr hashed) w =
        (match bcrypt_verify B plain hashed with
         | inr b => Return b
         | inl e => Raise e
         end, w)).
Proof.
  split; [intros hashed; apply verify_password_unidentified|].
  split; [reflexivity|].
  intros hashed H. unfold verify_password, CryptContext_verify. rewrite H.
  destruct (bcrypt_verify B plain hashed); reflexivity.
Qed.

Lemma verify_password_on_word :
  verify_password demo_backend "p1" (VStr "not-a-hash") empty_world
  = (Raise UnknownHashError, empty_world).
Proof.
  exact (proj1 (verify_password_on_malformed_hash demo_backend "p1" empty_world)
           "not-a-hash" eq_refl).
Defined.

(** C5, the claim as stated fails: on a string that is no hash at all,
    verify raises and does not return false, whatever the bcrypt handler
    computes. *)
Lemma verify_password_raises_on_non_hash :
  bcrypt_identify "not-a-hash" = false
  /\ (forall (B : BcryptBackend) (w : world),
        verify_password B "p1" (VStr "not-a-hash") w = (Raise UnknownHashError, w))
  /\ fst (verify_password demo_backend "p1" (VStr "not-a-hash") empty_world)
     <> Return false.
Proof. repeat split. discriminate. Qed.

(** ** Identifiers *)



(** ** Apply *)

Lemma apply_handler_run (P : Platform) (job_id e : string) (w : world) :
  apply_handler P job_id e w =
  match ObjectId_of_str job_id with
  | None => (Raise InvalidId, w)
  | Some oid =>
      if negb (id_stored Jobs (on_wire P oid) w) then (HTTPException 404 "Job not found", w)
      else if negb (email_registered Candidates e w)
      then (HTTPException 404 "Candidate not found", w)
      else (Return "Job application successful",
            with_oid_counter (N.succ (oid_counter w))
              (with_docs Applications
                 (applications w ++
                    [stored_application (generate_ObjectId (oid_counter w)) (on_wire P oid) e])
                 w))
  end.
Proof.
  unfold apply_handler, bind, ObjectId_new, find_one, id_stored, email_registered.
  destruct (ObjectId_of_str job_id) as [oid|]; [|reflexivity].
  unfold ret at 1. cbv iota beta. rewrite truthy_find.
  destruct (existsb _ (docs Jobs w)); [|reflexivity]. cbn [negb].
  rewrite truthy_find.
  destruct (existsb _ (docs Candidates w)); reflexivity.
Qed.

Lemma apply_for_job_run (P : Platform) (job_id candidate_email : string) (w : world) :
  apply_for_job P job_id candidate_email w =
  match EmailStr P candidate_email with
  | None => (RequestValidationError, w)
  | Some e => apply_handler P job_id e w
  end.
Proof. unfold apply_for_job. destruct (EmailStr P candidate_email); reflexivity. Qed.

(** C3 (as amended). Apply on an address the validator rejects is
    answered 422.  On a validated address [e], it fails with HTTP 404
    when the job id is a well-formed identifier that selects no job
    document, or when it selects one and [e] selects no candidate
    document; a job id that is no well-formed identifier raises the
    conversion error instead.  In all these cases the world, hence the
    applications collection, is unchanged.  Otherwise apply succeeds and
    appends exactly one application document
    {_id, job_id, candidate_email}, with the validated address. *)
Theorem apply_for_job_checks_then_inserts
    (P : Platform) (job_id candidate_email : string) (w : world) :
  let r := apply_for_job P job_id candidate_email w in
  (EmailStr P candidate_email = None -> r = (RequestValidationError, w))
  /\ forall e, EmailStr P candidate_email = Some e ->
     (ObjectId_of_str job_id = None -> r = (Raise InvalidId, w))
     /\ forall oid, ObjectId_of_str job_id = Some oid ->
        let job := on_wire P oid in
        (id_stored Jobs job w = false -> r = (HTTPException 404 "Job not found", w))
        /\ (id_stored Jobs job w = true ->
            email_registered Candidates e w = false ->
            r = (HTTPException 404 "Candidate not found", w))
        /\ (id_stored Jobs job w = true ->
            email_registered Candidates e w = true ->
            fst r = Return "Job application successful"
            /\ applications (snd r)
               = applications w ++
                   [stored_application (generate_ObjectId (oid_counter w)) job e]
            /\ candidates (snd r) = candidates w
            /\ admins (snd r) = admins w
            /\ jobs (snd r) = jobs w).
Proof.
  cbv zeta. rewrite apply_for_job_run. split.
  - intros ->. reflexivity.
  - intros e ->. rewrite apply_handler_run. split.
    + intros ->. reflexivity.
    + intros oid ->. repeat split; intros; rewrite ?H, ?H0; reflexivity.
Qed.

(** C3, the claim as stated fails: a job id that resolves to no job
    document because it is no identifier at all is answered with an
    uncaught conversion error (a 500), not with a 404; and an address
    that resolves to no candidate because it is no address at all is
    answered 422. *)
Lemma apply_for_job_malformed_id_is_not_404 :
  ObjectId_of_str "xyz" = None
  /\ apply_for_job demo_platform "xyz" "a@x.com" (snd (signup demo_platform alice empty_world))
     = (Raise InvalidId, snd (signup demo_platform alice empty_world))
  /\ http_status (fst (apply_for_job demo_platform "xyz" "a@x.com"
                         (snd (signup demo_platform alice empty_world)))) = 500
  /\ (forall (P : Platform) (w : world),
        apply_for_job P "000000000000000000000001" "nobody" w = (RequestValidationError, w)).
Proof. repeat split. Qed.


Lemma apply_for_job_on_staffed_world :
  fst (apply_for_job demo_platform "000000000000000000000001" "a@X.com" staffed_world)
  = Return "Job application successful"
  /\ apply_for_job demo_platform "000000000000000000000002" "a@x.com" staffed_world
     = (HTTPException 404 "Job not found", staffed_world)
  /\ apply_for_job demo_platform "000000000000000000000001" "b@x.com" staffed_world
     = (HTTPException 404 "Candidate not found", staffed_world).
Proof.
  split; [|split].
  - destruct (apply_for_job_checks_then_inserts demo_platform
                "000000000000000000000001" "a@X.com" staffed_world) as [_ H].
    destruct (H "a@x.com" eq_refl) as [_ H'].
    destruct (H' (generate_ObjectId 1) eq_refl) as (_ & _ & Hok).
    exact (proj1 (Hok eq_refl eq_refl)).
  - destruct (apply_for_job_checks_then_inserts demo_platform
                "000000000000000000000002" "a@x.com" staffed_world) as [_ H].
    destruct (H "a@x.com" eq_refl) as [_ H'].
    destruct (H' (generate_ObjectId 2) eq_refl) as (Hjob & _).
    exact (Hjob eq_refl).
  - destruct (apply_for_job_checks_then_inserts demo_platform
                "000000000000000000000001" "b@x.com" staffed_world) as [_ H].
    destruct (H "b@x.com" eq_refl) as [_ H'].
    destruct (H' (generate_ObjectId 1) eq_refl) as (_ & Hcand & _).
    exact (Hcand eq_refl eq_refl).
Defined.


(** ** Where an HTTP error can come from *)

Lemma raises_only_ret {A} (a : A) : raises_only (ret a).
Proof. intros w. split; [intros ? ?|]; discriminate. Qed.

Lemma raises_only_raise {A} (e : exn) : raises_only (@raise A e).
Proof. intros w. split; [intros ? ?|]; discriminate. Qed.

Lemma raises_only_bind {A B} (m : M A) (k : A -> M B) :
  raises_only m -> (forall a, raises_only (k a)) -> raises_only (bind m k).
Proof.
  intros Hm Hk w. unfold bind. destruct (Hm w) as [H1 H2].
  destruct (m w) as [[a|s d| |e] w']; simpl in *.
  - apply Hk.
  - destruct (H1 s d eq_refl).
  - destruct (H2 eq_refl).
  - split; [intros ? ?|]; discriminate.
Qed.

Lemma raises_only_getitem (d : document) (k : string) : raises_only (getitem d k).
Proof. unfold getitem. destruct (d !! k); [apply raises_only_ret | apply raises_only_raise]. Qed.

Lemma raises_only_str_arg (v : option value) : raises_only (str_arg v).
Proof. destruct v as [[]|]; simpl; (apply raises_only_ret || apply raises_only_raise). Qed.

Lemma raises_only_optional_str_arg (v : option value) : raises_only (optional_str_arg v).
Proof. destruct v as [[]|]; simpl; (apply raises_only_ret || apply raises_only_raise). Qed.

Lemma raises_only_list_arg (v : option value) : raises_only (list_arg v).
Proof. destruct v as [[]|]; simpl; (apply raises_only_ret || apply raises_only_raise). Qed.

Create HintDb escalate.

#[export] Hint Resolve raises_only_ret raises_only_raise raises_only_getitem
  raises_only_str_arg raises_only_optional_str_arg raises_only_list_arg : escalate.

Ltac escalate :=
  repeat first
    [ progress auto with escalate
    | apply raises_only_bind; [|intros ?]
    | match goal with
      | |- raises_only (match ?x with _ => _ end) => destruct x
      end ].

Lemma raises_only_email_arg (P : Platform) (v : option value) : raises_only (email_arg P v).
Proof.
  destruct v as [[]|]; simpl; try apply raises_only_raise.
  destruct (EmailStr P s); [apply raises_only_ret | apply raises_only_raise].
Qed.

#[export] Hint Resolve raises_only_email_arg : escalate.

Lemma raises_only_CandidateResponse_of_doc (P : Platform) (d : document) :
  raises_only (CandidateResponse_of_doc P d).
Proof. unfold CandidateResponse_of_doc, CandidateResponse_new. escalate. Qed.

Lemma raises_only_JobResponse_of_kwargs (i : string) (d : document) :
  raises_only (JobResponse_of_kwargs i d).
Proof. unfold JobResponse_of_kwargs. escalate. Qed.

Lemma raises_only_JobResponse_of_doc (d : document) : raises_only (JobResponse_of_doc d).
Proof. unfold JobResponse_of_doc. escalate. apply raises_only_JobResponse_of_kwargs. Qed.

(** ** The routes that take an identifier *)

Lemma set_first_None (p : document -> bool) (upd : document) (l : list document) :
  set_first p upd l = None <-> existsb p l = false.
Proof.
  induction l as [|d l IH]; simpl; [tauto|].
  destruct (p d); simpl; [split; discriminate|].
  destruct (set_first p upd l); simpl in *; [|tauto].
  split; [discriminate|]. intros H. apply IH in H. discriminate.
Qed.

Lemma JobResponse_of_Job_dict (i : string) (j : Job) (w : world) :
  JobResponse_of_kwargs i (Job_dict j) w = (Return (mkJobResponse i j), w).
Proof. destruct j as [t d dep l et [sr|] [ad|] rs [ai|]]; reflexivity. Qed.

Lemma get_job_run (P : Platform) (job_id : string) (w : world) :
  get_job P job_id w =
  match ObjectId_of_str job_id with
  | None => (Raise InvalidId, w)
  | Some oid =>
      match List.find (matches "_id" (VOid (on_wire P oid))) (jobs w) with
      | None => (HTTPException 404 "Job not found", w)
      | Some j => JobResponse_of_doc j w
      end
  end.
Proof.
  unfold get_job, bind, ObjectId_new, find_one.
  destruct (ObjectId_of_str job_id) as [oid|]; [|reflexivity].
  cbn [ret docs]. destruct (List.find _ (jobs w)); reflexivity.
Qed.

Lemma get_candidate_run (P : Platform) (candidate_id : string) (w : world) :
  get_candidate P candidate_id w =
  match ObjectId_of_str candidate_id with
  | None => (Raise InvalidId, w)
  | Some oid =>
      match List.find (matches "_id" (VOid (on_wire P oid))) (candidates w) with
      | None => (HTTPException 404 "Candidate not found", w)
      | Some c => CandidateResponse_of_doc P c w
      end
  end.
Proof.
  unfold get_candidate, bind, ObjectId_new, find_one.
  destruct (ObjectId_of_str candidate_id) as [oid|]; [|reflexivity].
  cbn [ret docs]. destruct (List.find _ (candidates w)); reflexivity.
Qed.

(** A resume upload, run: the conversion, the lookup, the two calls to
    the file system, each of which may be refused, the update. *)
Lemma upload_resume_run (P : Platform) (candidate_id : string) (file : UploadFile) (w : world) :
  upload_resume P candidate_id file w =
  match ObjectId_of_str candidate_id with
  | None => (Raise InvalidId, w)
  | Some oid =>
      if negb (id_stored Candidates (on_wire P oid) w)
      then (HTTPException 404 "Candidate not found", w)
      else
        let path := "resumes/" +:+ candidate_id +:+ "_" +:+ filename file in
        let made := Makedirs (dirname path) in
        let written := WriteFile path (content file) in
        match fs_refuses P (fs_log w) made with
        | Some x => (Raise x, with_fs_log (fs_log w ++ [(made, Some x)]) w)
        | None =>
            match fs_refuses P (fs_log w ++ [(made, None)]) written with
            | Some x =>
                (Raise x, with_fs_log (fs_log w ++ [(made, None); (written, Some x)]) w)
            | None =>
                (Return "Resume uploaded successfully",
                 with_resume (on_wire P oid) path (content file) w)
            end
        end
  end.
Proof.
  unfold upload_resume, bind, ObjectId_new, find_one, id_stored, with_resume, resume_written.
  destruct (ObjectId_of_str candidate_id) as [oid|]; [|reflexivity].
  unfold ret at 1. cbv iota beta zeta. rewrite truthy_find.
  destruct (existsb _ (docs Candidates w)); [|reflexivity]. cbn [negb].
  unfold perform at 1. cbn [fs_log with_fs_log].
  destruct (fs_refuses P (fs_log w) _) as [x|]; [reflexivity|].
  unfold perform. cbn [fs_log with_fs_log].
  destruct (fs_refuses P (fs_log w ++ _) _) as [x|].
  - rewrite <- app_assoc. reflexivity.
  - unfold update_one, ret. cbn [docs with_fs_log candidates].
    rewrite <- app_assoc.
    destruct (set_first _ _ (candidates w)); reflexivity.
Qed.

Lemma update_job_run (P : Platform) (job_id : string) (job : Job) (w : world) :
  update_job P job_id job w =
  match ObjectId_of_str job_id with
  | None => (Raise InvalidId, w)
  | Some oid =>
      match set_first (matches "_id" (VOid (on_wire P oid))) (Job_dict job) (jobs w) with
      | Some l => (Return (mkJobResponse job_id job), with_docs Jobs l w)
      | None => (HTTPException 404 "Job not found", w)
      end
  end.
Proof.
  unfold update_job, bind, ObjectId_new, update_one.
  destruct (ObjectId_of_str job_id) as [oid|]; [|reflexivity].
  cbn [ret docs]. destruct (set_first _ _ (jobs w)); [|reflexivity].
  cbn [Nat.eqb]. apply JobResponse_of_Job_dict.
Qed.

Lemma update_job_status_run (P : Platform) (job_id status : string) (w : world) :
  update_job_status P job_id status w =
  if negb (Pattern.search status_pattern status) then (RequestValidationError, w)
  else
    match ObjectId_of_str job_id with
    | None => (Raise InvalidId, w)
    | Some oid =>
        match set_first (matches "_id" (VOid (on_wire P oid))) {[ "status" := VStr status ]}
                (jobs w) with
        | Some l => (Return ("Job status updated to " +:+ status), with_docs Jobs l w)
        | None => (HTTPException 404 "Job not found", w)
        end
    end.
Proof.
  unfold update_job_status, bind, ObjectId_new, update_one.
  destruct (Pattern.search status_pattern status); [|reflexivity]. cbn [negb].
  destruct (ObjectId_of_str job_id) as [oid|]; [|reflexivity].
  cbn [ret docs]. destruct (set_first _ _ (jobs w)); reflexivity.
Qed.

(** C4. The status parameter passes its declared pattern exactly when it
    is one of "Open", "Closed", "Filled"; with any other string the
    request ends in the validation error (422) and only then, and the
    world is the one before the request. *)
Theorem update_job_status_accepts_exactly_three
    (P : Platform) (job_id status : string) (w : world) :
  let r := update_job_status P job_id status w in
  let listed := status = "Open" \/ status = "Closed" \/ status = "Filled" in
  (Pattern.search status_pattern status = true <-> listed)
  /\ (fst r = RequestValidationError <-> ~ listed)
  /\ (~ listed -> r = (RequestValidationError, w) /\ http_status (fst r) = 422).
Proof.
  cbv zeta. rewrite update_job_status_run.
  pose proof (status_pattern_exact status) as Hex.
  destruct (Pattern.search status_pattern status) eqn:E; cbn [negb].
  - assert (status = "Open" \/ status = "Closed" \/ status = "Filled") as Hl
      by (apply Hex; reflexivity).
    split; [tauto|]. split; [|tauto].
    split; [|tauto]. intros H. exfalso.
    destruct (ObjectId_of_str job_id); [|discriminate].
    destruct (set_first _ _ (jobs w)); discriminate.
  - assert (~ (status = "Open" \/ status = "Closed" \/ status = "Filled")) as Hn.
    { intros H. apply Hex in H. discriminate. }
    split; [split; [discriminate | tauto]|].
    split; [tauto|]. intros _. split; reflexivity.
Qed.

Lemma update_job_status_rejects_pending :
  update_job_status demo_platform "000000000000000000000001" "Pending" staffed_world
  = (RequestValidationError, staffed_world)
  /\ fst (update_job_status demo_platform "000000000000000000000001" "Closed" staffed_world)
     = Return "Job status updated to Closed".
Proof.
  split.
  - apply (update_job_status_accepts_exactly_three demo_platform
             "000000000000000000000001" "Pending" staffed_world).
    intros [H | [H | H]]; discriminate.
  - reflexivity.
Defined.

(** C10 (as amended). When the id is no well-formed identifier, GetJob,
    GetCandidate, UploadResume and UpdateJob raise the conversion error,
    and so do Apply when its e-mail address validates and
    UpdateJobStatus when the status passes its pattern (an address or a
    status that does not is rejected first, with 422); none of them
    answers 404, and the world is unchanged.  A 404 is answered only for
    a well-formed identifier that selects no document of the route's
    collection or, in Apply, whose job exists while the e-mail selects
    no candidate. *)
Theorem malformed_id_raises_conversion_error (P : Platform) (s : string) (w : world) :
  (ObjectId_of_str s = None ->
   get_job P s w = (Raise InvalidId, w)
   /\ get_candidate P s w = (Raise InvalidId, w)
   /\ (forall a e, EmailStr P a = Some e -> apply_for_job P s a w = (Raise InvalidId, w))
   /\ (forall a, EmailStr P a = None -> apply_for_job P s a w = (RequestValidationError, w))
   /\ (forall f, upload_resume P s f w = (Raise InvalidId, w))
   /\ (forall j, update_job P s j w = (Raise InvalidId, w))
   /\ (forall st, Pattern.search status_pattern st = true ->
         update_job_status P s st w = (Raise InvalidId, w))
   /\ (forall st, Pattern.search status_pattern st = false ->
         update_job_status P s st w = (RequestValidationError, w)))
  /\ (forall detail : string,
      (fst (get_job P s w) = HTTPException 404 detail ->
       exists oid, ObjectId_of_str s = Some oid /\ id_stored Jobs (on_wire P oid) w = false)
      /\ (fst (get_candidate P s w) = HTTPException 404 detail ->
          exists oid, ObjectId_of_str s = Some oid
                      /\ id_stored Candidates (on_wire P oid) w = false)
      /\ (forall a, fst (apply_for_job P s a w) = HTTPException 404 detail ->
          exists oid e, ObjectId_of_str s = Some oid /\ EmailStr P a = Some e
                      /\ (id_stored Jobs (on_wire P oid) w = false
                          \/ email_registered Candidates e w = false))
      /\ (forall f, fst (upload_resume P s f w) = HTTPException 404 detail ->
          exists oid, ObjectId_of_str s = Some oid
                      /\ id_stored Candidates (on_wire P oid) w = false)
      /\ (forall j, fst (update_job P s j w) = HTTPException 404 detail ->
          exists oid, ObjectId_of_str s = Some oid /\ id_stored Jobs (on_wire P oid) w = false)
      /\ (forall st, fst (update_job_status P s st w) = HTTPException 404 detail ->
          exists oid, ObjectId_of_str s = Some oid
                      /\ id_stored Jobs (on_wire P oid) w = false)).
Proof.
  split.
  - intros Hbad.
    rewrite get_job_run, get_candidate_run, Hbad.
    split; [reflexivity|]. split; [reflexivity|].
    split; [intros a e He; rewrite apply_for_job_run, He, apply_handler_run, Hbad; reflexivity|].
    split; [intros a He; rewrite apply_for_job_run, He; reflexivity|].
    split; [intros f; rewrite upload_resume_run, Hbad; reflexivity|].
    split; [intros j; rewrite update_job_run, Hbad; reflexivity|].
    split; intros st Hst; rewrite update_job_status_run, Hst; [rewrite Hbad|]; reflexivity.
  - intros detail.
    rewrite get_job_run, get_candidate_run. unfold id_stored. cbn [docs].
    destruct (ObjectId_of_str s) as [oid|] eqn:Hoid.
    2:{ split; [discriminate|]. split; [discriminate|].
        split.
        { intros a. rewrite apply_for_job_run.
          destruct (EmailStr P a); [rewrite apply_handler_run, Hoid|]; discriminate. }
        split; [intros f; rewrite upload_resume_run, Hoid; discriminate|].
        split; [intros j; rewrite update_job_run, Hoid; discriminate|].
        intros st. rewrite update_job_status_run, Hoid.
        destruct (negb _); discriminate. }
    split; [|split; [|split; [|split; [|split]]]].
    + destruct (List.find _ (jobs w)) as [j|] eqn:E.
      * intros H. destruct (raises_only_JobResponse_of_doc j w) as [Hn _].
        destruct (Hn _ _ H).
      * intros _. exists oid. split; [reflexivity|]. apply find_None_existsb, E.
    + destruct (List.find _ (candidates w)) as [c|] eqn:E.
      * intros H. destruct (raises_only_CandidateResponse_of_doc P c w) as [Hn _].
        destruct (Hn _ _ H).
      * intros _. exists oid. split; [reflexivity|]. apply find_None_existsb, E.
    + intros a. rewrite apply_for_job_run.
      destruct (EmailStr P a) as [e|] eqn:He; [|discriminate].
      rewrite apply_handler_run, Hoid. unfold id_stored, email_registered.
      cbn [docs].
      destruct (existsb _ (jobs w)) eqn:Ej; cbn [negb];
        [|intros _; exists oid, e; split; [reflexivity|]; split; [reflexivity|]; left;
          first [exact Ej | reflexivity]].
      destruct (existsb _ (candidates w)) eqn:Ec; cbn [negb]; [discriminate|].
      intros _. exists oid, e. split; [reflexivity|]. split; [reflexivity|]. right.
      first [exact Ec | reflexivity].
    + intros f. rewrite upload_resume_run, Hoid. unfold id_stored. cbn [docs]. cbv zeta.
      destruct (existsb _ (candidates w)) eqn:Ec; cbn [negb].
      * destruct (fs_refuses P (fs_log w) _); [discriminate|].
        destruct (fs_refuses P _ _); discriminate.
      * intros _. exists oid. split; [reflexivity | first [exact Ec | reflexivity]].
    + intros j. rewrite update_job_run, Hoid.
      destruct (set_first _ _ (jobs w)) eqn:E; [discriminate|].
      intros _. exists oid. split; [reflexivity|]. eapply set_first_None, E.
    + intros st. rewrite update_job_status_run, Hoid.
      destruct (negb _); [discriminate|].
      destruct (set_first _ _ (jobs w)) eqn:E; [discriminate|].
      intros _. exists oid. split; [reflexivity|]. eapply set_first_None, E.
Qed.

Lemma malformed_id_on_staffed_world :
  get_job demo_platform "xyz" staffed_world = (Raise InvalidId, staffed_world)
  /\ update_job_status demo_platform "xyz" "Open" staffed_world
     = (Raise InvalidId, staffed_world)
  /\ apply_for_job demo_platform "xyz" "a@x.com" staffed_world
     = (Raise InvalidId, staffed_world).
Proof.
  destruct (malformed_id_raises_conversion_error demo_platform "xyz" staffed_world) as [H _].
  destruct (H eq_refl) as (Hjob & _ & Happly & _ & _ & _ & Hstatus & _).
  split; [exact Hjob|].
  split; [exact (Hstatus "Open" eq_refl) | exact (Happly "a@x.com" "a@x.com" eq_refl)].
Defined.

(** C10, the claim as stated fails: with a malformed id and a status
    outside the pattern, UpdateJobStatus answers 422 and raises no
    conversion error, and so does Apply with a malformed id and an
    address without at-sign; and Apply answers 404 for an identifier
    that does select a job document, when the e-mail selects no
    candidate. *)
Lemma malformed_id_rejected_before_conversion :
  ObjectId_of_str "not-an-id" = None
  /\ (forall (P : Platform) (w : world),
        update_job_status P "not-an-id" "Pending" w = (RequestValidationError, w))
  /\ http_status (fst (update_job_status demo_platform "not-an-id" "Pending" staffed_world))
     = 422
  /\ (forall (P : Platform) (w : world),
        apply_for_job P "not-an-id" "nobody" w = (RequestValidationError, w))
  /\ id_stored Jobs (generate_ObjectId 1) staffed_world = true
  /\ ObjectId_of_str "000000000000000000000001" = Some (generate_ObjectId 1)
  /\ apply_for_job demo_platform "000000000000000000000001" "b@x.com" staffed_world
     = (HTTPException 404 "Candidate not found", staffed_world).
Proof. repeat split. Qed.

(** ** List comprehensions *)

Lemma mapM_length {A B} (f : A -> M B) (l : list A) (w : world) (bs : list B) :
  fst (mapM f l w) = Return bs -> length bs = length l.
Proof.
  revert w bs. induction l as [|a l IH]; intros w bs; simpl.
  - intros [= <-]. reflexivity.
  - unfold bind at 1. destruct (f a w) as [[b| | |] w1]; try discriminate.
    unfold bind at 1. destruct (mapM f l w1) as [[bs'| | |] w2] eqn:E; try discriminate.
    intros [= <-]. simpl. f_equal. apply (IH w1). rewrite E. reflexivity.
Qed.

Lemma mapM_returns {A B} (f : A -> M B) (g : A -> B) (l : list A) (w : world) :
  Forall (fun a => f a w = (Return (g a), w)) l ->
  mapM f l w = (Return (map g l), w).
Proof.
  induction 1 as [|a l Ha _ IH]; simpl; [reflexivity|].
  unfold bind. rewrite Ha, IH. reflexivity.
Qed.

Lemma mapM_returned {A B} (f : A -> M B) (g : A -> B) (l : list A) :
  (forall a, read_only (f a)) ->
  (forall a w b, fst (f a w) = Return b -> b = g a) ->
  forall w bs, fst (mapM f l w) = Return bs -> bs = map g l.
Proof.
  intros Hro Hg. induction l as [|a l IH]; intros w bs; simpl.
  - intros [= <-]. reflexivity.
  - unfold bind at 1. pose proof (Hro a w) as Hw. pose proof (Hg a w) as Hb.
    destruct (f a w) as [[b| | |] w1]; try discriminate. simpl in Hw, Hb. subst w1.
    unfold bind at 1. destruct (mapM f l w) as [[bs'| | |] w2] eqn:E; try discriminate.
    intros [= <-]. rewrite (Hb b eq_refl). f_equal. apply (IH w). rewrite E. reflexivity.
Qed.

(** ** Resumes *)

Lemma resume_entry_returned (d : document) (w : world) (e : ResumeEntry) :
  fst (resume_entry d w) = Return e -> e = resume_entry_of d.
Proof.
  unfold resume_entry, resume_entry_of, bind, getitem.
  destruct (d !! "email"); simpl; [intros [= <-]; reflexivity | discriminate].
Qed.

Lemma resume_entry_returns (d : document) (w : world) :
  has_key "email" d = true -> resume_entry d w = (Return (resume_entry_of d), w).
Proof.
  unfold has_key, resume_entry, resume_entry_of, bind, getitem.
  intros H. apply bool_decide_eq_true in H as [v Hv]. rewrite Hv. reflexivity.
Qed.

(** C6 (as amended). ViewResumes reads the first 100 candidate
    documents.  Whatever it returns is, in order, one entry
    {email, resume_path} for each of those documents that has a
    resume_path, and nothing else; it does return when these documents
    carry an e-mail.  So every candidate with a resume_path has an entry
    when the collection holds at most 100 documents, and a candidate
    beyond the hundredth has none. *)
Theorem view_resumes_lists_first_hundred (w : world) :
  let page := take 100 (candidates w) in
  let resumed := List.filter (has_key "resume_path") page in
  (forall l, fst (view_resumes w) = Return l ->
     l = map resume_entry_of resumed
     /\ forall e, In e l <-> exists d, In d page /\ has_key "resume_path" d = true
                                       /\ e = resume_entry_of d)
  /\ (Forall (fun d => has_key "email" d = true) resumed ->
      view_resumes w = (Return (map resume_entry_of resumed), w))
  /\ (length (candidates w) <= 100 -> page = candidates w).
Proof.
  cbv zeta.
  assert (view_resumes w
          = mapM resume_entry (List.filter (has_key "resume_path") (take 100 (candidates w))) w)
    as Hrun by reflexivity.
  split; [|split].
  - intros l Hl. rewrite Hrun in Hl.
    apply (mapM_returned resume_entry resume_entry_of) in Hl;
      [|apply read_only_resume_entry | apply resume_entry_returned].
    split; [exact Hl|]. intros e. subst l. rewrite in_map_iff. split.
    + intros (d & <- & Hd). apply filter_In in Hd as [Hin Hk]. exists d. auto.
    + intros (d & Hin & Hk & ->). exists d. split; [reflexivity|].
      apply filter_In. auto.
  - intros Hemail. rewrite Hrun. apply mapM_returns.
    eapply Forall_impl; [exact Hemail|]. intros d Hd. apply resume_entry_returns, Hd.
  - intros Hlen. apply take_ge. exact Hlen.
Qed.

Lemma view_resumes_on_small_world :
  view_resumes (with_resume (generate_ObjectId 0) "resumes/000000000000000000000000_cv.pdf"
                  "%PDF" staffed_world)
  = (Return [mkResumeEntry (VStr "a@x.com")
               (VStr "resumes/000000000000000000000000_cv.pdf")],
     with_resume (generate_ObjectId 0) "resumes/000000000000000000000000_cv.pdf"
       "%PDF" staffed_world).
Proof.
  destruct (view_resumes_lists_first_hundred
              (with_resume (generate_ObjectId 0) "resumes/000000000000000000000000_cv.pdf"
                 "%PDF" staffed_world)) as (_ & H & _).
  rewrite H; [reflexivity|].
  repeat constructor.
Defined.

(** C6, the claim as stated fails: with 101 candidates who all have a
    resume_path, the last one has no entry in what ViewResumes
    returns. *)
Lemma view_resumes_misses_candidate_101 :
  In (numbered_candidate 100) (candidates crowded_world)
  /\ has_key "resume_path" (numbered_candidate 100) = true
  /\ exists l, fst (view_resumes crowded_world) = Return l
               /\ length l = 100
               /\ ~ In (resume_entry_of (numbered_candidate 100)) l.
Proof.
  split; [|split].
  - apply in_map, in_seq. lia.
  - reflexivity.
  - eexists. split; [vm_compute; reflexivity|]. split; [reflexivity|].
    intros H. vm_compute in H.
    repeat (destruct H as [H|H]; [discriminate H|]). exact H.
Qed.

(** ** The list routes *)

Lemma mapM_total {A B} (f : A -> M B) (l : list A) (w : world) :
  Forall (fun a => exists b, f a w = (Return b, w)) l ->
  exists bs, mapM f l w = (Return bs, w).
Proof.
  induction 1 as [|a l [b Hb] _ [bs IH]]; simpl.
  - exists []. reflexivity.
  - exists (b :: bs). unfold bind. rewrite Hb, IH. reflexivity.
Qed.

Lemma is_str_Some (v : option value) : is_str v = true -> exists s, v = Some (VStr s).
Proof. destruct v as [[]|]; try discriminate. eauto. Qed.

Lemma is_optional_str_arg (v : option value) (w : world) :
  is_optional_str v = true -> exists o, optional_str_arg v w = (Return o, w).
Proof. destruct v as [[]|]; try discriminate; intros _; eexists; reflexivity. Qed.

Lemma is_list_Some (v : option value) : is_list v = true -> exists l, v = Some (VList l).
Proof. destruct v as [[]|]; try discriminate. eauto. Qed.

Lemma is_email_Some (P : Platform) (v : option value) :
  is_email P v = true -> exists s e, v = Some (VStr s) /\ EmailStr P s = Some e.
Proof.
  destruct v as [[|s| |]|]; try discriminate. simpl.
  destruct (EmailStr P s) as [e|] eqn:E; [|discriminate].
  intros _. exists s, e. split; [reflexivity | exact E].
Qed.

Lemma candidate_shaped_returns (P : Platform) (d : document) (w : world) :
  candidate_shaped P d = true -> exists r, CandidateResponse_of_doc P d w = (Return r, w).
Proof.
  unfold candidate_shaped, has_key. rewrite !andb_true_iff.
  intros [[Hid He] Hn].
  apply bool_decide_eq_true in Hid as [i Hi].
  apply is_email_Some in He as (s & e & He & Hs). apply is_str_Some in Hn as [n Hn].
  unfold CandidateResponse_of_doc, CandidateResponse_new, bind, getitem.
  rewrite Hi, He, Hn. unfold ret at 1 2 3. rewrite email_arg_str, Hs.
  eexists. reflexivity.
Qed.

Lemma job_shaped_returns (d : document) (w : world) :
  job_shaped d = true -> exists r, JobResponse_of_doc d w = (Return r, w).
Proof.
  unfold job_shaped, has_key. rewrite !andb_true_iff.
  intros [[[[[[[[[[Hid Hnoid] Ht] Hd] Hdep] Hl] Het] Hsr] Had] Hrs] Hai].
  apply bool_decide_eq_true in Hid as [i Hi].
  apply negb_true_iff, bool_decide_eq_false in Hnoid.
  destruct (d !! "id") eqn:Eid; [destruct Hnoid; eauto|].
  apply is_str_Some in Ht as [t Ht]. apply is_str_Some in Hd as [de Hd].
  apply is_str_Some in Hdep as [dep Hdep]. apply is_str_Some in Hl as [l Hl].
  apply is_str_Some in Het as [et Het]. apply is_list_Some in Hrs as [rs Hrs].
  destruct (is_optional_str_arg _ w Hsr) as [sr Esr].
  destruct (is_optional_str_arg _ w Had) as [ad Ead].
  destruct (is_optional_str_arg _ w Hai) as [ai Eai].
  unfold JobResponse_of_doc, JobResponse_of_kwargs, bind, getitem.
  rewrite Hi, Eid, Ht, Hd, Hdep, Hl, Het, Hrs. cbn [ret str_arg list_arg].
  rewrite Esr, Ead, Eai. eexists. reflexivity.
Qed.

Lemma Forall_take {A} (P : A -> Prop) (n : nat) (l : list A) :
  Forall P l -> Forall P (take n l).
Proof.
  intros H. revert n. induction H as [|a l Ha _ IH]; intros [|n]; simpl; constructor; auto.
Qed.

Lemma Forall_filter {A} (P : A -> Prop) (p : A -> bool) (l : list A) :
  Forall P l -> Forall P (List.filter p l).
Proof.
  induction 1 as [|a l Ha _ IH]; simpl; [constructor|].
  destruct (p a); [constructor|]; auto.
Qed.

Lemma filter_length_le {A} (p : A -> bool) (l : list A) :
  length (List.filter p l) <= length l.
Proof. induction l as [|a l IH]; simpl; [lia|]. destruct (p a); simpl; lia. Qed.

(** The list routes return when the documents have the fields the
    response schemas read. *)
Lemma list_routes_shaped_return (P : Platform) (w : world) :
  Forall (fun d => job_shaped d = true) (jobs w) ->
  Forall (fun d => candidate_shaped P d = true) (candidates w) ->
  (exists l, get_jobs w = (Return l, w))
  /\ (exists l, get_candidates P w = (Return l, w))
  /\ (exists l, view_candidates P w = (Return l, w))
  /\ (exists l, view_resumes w = (Return l, w)).
Proof.
  intros Hjs Hcs. split.
  - apply mapM_total, Forall_take.
    eapply Forall_impl; [exact Hjs|]. intros d Hd. apply job_shaped_returns, Hd.
  - assert (exists l, mapM (CandidateResponse_of_doc P) (take 100 (candidates w)) w
                      = (Return l, w)) as Hcands.
    { apply mapM_total, Forall_take.
      eapply Forall_impl; [exact Hcs|]. intros d Hd. apply candidate_shaped_returns, Hd. }
    split; [exact Hcands|]. split; [exact Hcands|].
    apply mapM_total, Forall_filter, Forall_take.
    eapply Forall_impl; [exact Hcs|]. intros d Hd. exists (resume_entry_of d).
    apply resume_entry_returns.
    unfold candidate_shaped in Hd. rewrite !andb_true_iff in Hd.
    destruct Hd as [[_ He] _]. apply is_email_Some in He as (e & _ & He & _).
    unfold has_key. rewrite He. reflexivity.
Qed.

(** C7. Whatever ListJobs, GetCandidates, ViewCandidates or ViewResumes
    returns has at most 100 items, however many documents the collection
    holds: the first three return one item for each of the first 100
    documents, ViewResumes one for some of them.  They do return when the
    documents have the fields their response schema reads. *)
Theorem list_routes_return_at_most_100 (P : Platform) (w : world) :
  (forall l, fst (get_jobs w) = Return l ->
     length l = Nat.min 100 (length (jobs w)) /\ length l <= 100)
  /\ (forall l, fst (get_candidates P w) = Return l ->
        length l = Nat.min 100 (length (candidates w)) /\ length l <= 100)
  /\ (forall l, fst (view_candidates P w) = Return l ->
        length l = Nat.min 100 (length (candidates w)) /\ length l <= 100)
  /\ (forall l, fst (view_resumes w) = Return l -> length l <= 100)
  /\ (Forall (fun d => job_shaped d = true) (jobs w) ->
      exists l, get_jobs w = (Return l, w))
  /\ (Forall (fun d => candidate_shaped P d = true) (candidates w) ->
      (exists l, get_candidates P w = (Return l, w))
      /\ (exists l, view_candidates P w = (Return l, w))
      /\ (exists l, view_resumes w = (Return l, w))).
Proof.
  assert (forall n, Nat.min 100 n <= 100) as Hmin by (intros; lia).
  assert (forall {B} (f : document -> M B) (c : collection) (l : list B),
            fst (mapM f (take 100 (docs c w)) w) = Return l ->
            length l = Nat.min 100 (length (docs c w)) /\ length l <= 100) as Hpage.
  { intros B f c l H. apply mapM_length in H. rewrite H, length_take. auto. }
  split; [exact (Hpage _ JobResponse_of_doc Jobs)|].
  split; [exact (Hpage _ (CandidateResponse_of_doc P) Candidates)|].
  split; [exact (Hpage _ (CandidateResponse_of_doc P) Candidates)|].
  split; [|split].
  - intros l H. apply mapM_length in H. rewrite H.
    etransitivity; [apply filter_length_le|]. rewrite length_take. apply Hmin.
  - intros H. apply mapM_total, Forall_take.
    eapply Forall_impl; [exact H|]. intros d Hd. apply job_shaped_returns, Hd.
  - intros H.
    assert (exists l, mapM (CandidateResponse_of_doc P) (take 100 (candidates w)) w
                      = (Return l, w))
      as Hcands.
    { apply mapM_total, Forall_take.
      eapply Forall_impl; [exact H|]. intros d Hd. apply candidate_shaped_returns, Hd. }
    split; [exact Hcands|]. split; [exact Hcands|].
    apply mapM_total, Forall_filter, Forall_take.
    eapply Forall_impl; [exact H|]. intros d Hd. exists (resume_entry_of d).
    apply resume_entry_returns.
    unfold candidate_shaped in Hd. rewrite !andb_true_iff in Hd.
    destruct Hd as [[_ He] _]. apply is_email_Some in He as (e & _ & He & _).
    unfold has_key. rewrite He. reflexivity.
Qed.

Lemma list_routes_on_crowded_world :
  (exists l, view_candidates demo_platform crowded_world = (Return l, crowded_world)
             /\ length l = 100)
  /\ (exists l, view_resumes crowded_world = (Return l, crowded_world) /\ length l <= 100).
Proof.
  destruct (list_routes_return_at_most_100 demo_platform crowded_world)
    as (_ & _ & Hlen & Hres & _ & Hret).
  assert (Forall (fun d => candidate_shaped demo_platform d = true) (candidates crowded_world))
    as Hshape.
  { apply Forall_forall. intros d Hd. apply list_elem_of_In in Hd.
    assert (forallb (candidate_shaped demo_platform) (candidates crowded_world) = true) as Hall
      by (vm_compute; reflexivity).
    rewrite forallb_forall in Hall. apply Hall, Hd. }
  destruct (Hret Hshape) as (_ & [l Hl] & [l' Hl']).
  split.
  - exists l. split; [exact Hl|]. apply Hlen. rewrite Hl. reflexivity.
  - exists l'. split; [exact Hl'|]. apply Hres. rewrite Hl'. reflexivity.
Defined.

(** ** What the requests do to the collections *)

Lemma post_job_run (job : Job) (w : world) :
  post_job job w =
  (Return (mkJobResponse (str_of_ObjectId (generate_ObjectId (oid_counter w))) job),
   with_oid_counter (N.succ (oid_counter w))
     (with_docs Jobs
        (jobs w ++ [<["_id" := VOid (generate_ObjectId (oid_counter w))]> (Job_dict job)]) w)).
Proof.
  unfold post_job, bind, insert_one. cbn [docs].
  apply JobResponse_of_Job_dict.
Qed.

Lemma set_first_Forall (Q : document -> Prop) (p : document -> bool) (upd : document)
    (l l' : list document) :
  (forall d, Q d -> Q (upd ∪ d)) ->
  set_first p upd l = Some l' -> Forall Q l -> Forall Q l'.
Proof.
  intros Hupd. revert l'. induction l as [|d l IH]; intros l'; simpl; [discriminate|].
  intros Hset Hall. apply Forall_cons in Hall as [Hd Hl].
  destruct (p d).
  - injection Hset as <-. constructor; auto.
  - destruct (set_first p upd l) as [l0|]; [|discriminate].
    injection Hset as <-. constructor; auto.
Qed.

(** What signup leaves in the candidates collection: the collection as
    it was, or with one stored document more. *)
Lemma signup_candidates (P : Platform) (body : Candidate) (w : world) :
  candidates (snd (signup P body w)) = candidates w
  \/ exists e e' h,
       EmailStr P (email body) = Some e /\ EmailStr P e = Some e'
       /\ email_registered Candidates e w = false
       /\ bcrypt_handler_hash (bcrypt P) (urandom w) (password body) = inr h
       /\ candidates (snd (signup P body w))
          = candidates w
            ++ [stored_candidate (generate_ObjectId (oid_counter w)) e' (name body) h].
Proof.
  rewrite signup_run. destruct (EmailStr P (email body)) as [e|] eqn:He; [|left; reflexivity].
  rewrite signup_handler_run. cbn [email password name]. unfold email_registered. cbn [docs].
  destruct (existsb _ (candidates w)) eqn:Ereg; [left; reflexivity|].
  destruct (bcrypt_handler_hash _ _ _) as [x|h] eqn:Eh; [left; reflexivity|].
  destruct (EmailStr P e) as [e'|] eqn:He'; [|left; reflexivity].
  right. exists e, e', h. repeat split; first [assumption | reflexivity].
Qed.

Lemma signup_keeps (P : Platform) (body : Candidate) (w : world) :
  admins (snd (signup P body w)) = admins w
  /\ jobs (snd (signup P body w)) = jobs w
  /\ applications (snd (signup P body w)) = applications w
  /\ fs_log (snd (signup P body w)) = fs_log w.
Proof.
  rewrite signup_run. destruct (EmailStr P (email body)) as [e|]; [|repeat split].
  rewrite signup_handler_run.
  destruct (existsb _ (candidates w)); [repeat split|].
  destruct (bcrypt_handler_hash _ _ _); [repeat split|].
  destruct (EmailStr P _); repeat split.
Qed.

(** What apply leaves: the world as it was, or with one application
    more. *)
Lemma apply_for_job_world (P : Platform) (job_id a : string) (w : world) :
  snd (apply_for_job P job_id a w) = w
  \/ exists oid e,
       ObjectId_of_str job_id = Some oid /\ EmailStr P a = Some e
       /\ snd (apply_for_job P job_id a w)
          = with_oid_counter (N.succ (oid_counter w))
              (with_docs Applications
                 (applications w ++
                    [stored_application (generate_ObjectId (oid_counter w)) (on_wire P oid) e])
                 w).
Proof.
  rewrite apply_for_job_run. destruct (EmailStr P a) as [e|] eqn:He; [|left; reflexivity].
  rewrite apply_handler_run. destruct (ObjectId_of_str job_id) as [oid|]; [|left; reflexivity].
  destruct (negb _); [left; reflexivity|]. destruct (negb _); [left; reflexivity|].
  right. exists oid, e. repeat split.
Qed.

(** What a resume upload leaves in the database: the collections as
    they were, or the candidates with resume_path set on the first
    document the identifier selects. *)
Lemma upload_resume_database (P : Platform) (candidate_id : string) (file : UploadFile)
    (w : world) :
  let w' := snd (upload_resume P candidate_id file w) in
  admins w' = admins w /\ jobs w' = jobs w /\ applications w' = applications w
  /\ oid_counter w' = oid_counter w /\ urandom w' = urandom w
  /\ (candidates w' = candidates w
      \/ exists oid l,
           ObjectId_of_str candidate_id = Some oid
           /\ fst (upload_resume P candidate_id file w) = Return "Resume uploaded successfully"
           /\ set_first (matches "_id" (VOid (on_wire P oid)))
                {[ "resume_path" :=
                     VStr ("resumes/" +:+ candidate_id +:+ "_" +:+ filename file) ]}
                (candidates w) = Some l
           /\ candidates w' = l).
Proof.
  cbv zeta. rewrite upload_resume_run.
  destruct (ObjectId_of_str candidate_id) as [oid|]; [|repeat split; left; reflexivity].
  destruct (negb _); [repeat split; left; reflexivity|]. cbv zeta.
  destruct (fs_refuses P (fs_log w) _); [repeat split; left; reflexivity|].
  destruct (fs_refuses P _ _); [repeat split; left; reflexivity|].
  unfold with_resume. cbn [fst snd].
  destruct (set_first _ _ (candidates w)) as [l|] eqn:E.
  - repeat split. right. exists oid, l. repeat split. exact E.
  - repeat split. left. reflexivity.
Qed.

Section Frames.

Variable P : Platform.

(** The candidates collection changes by the document signup appends
    and by the resume_path upload sets; a property of candidate
    documents that these two keep is kept by every request. *)
Lemma serve_candidates (Q : document -> Prop) (r : request) (w : world) :
  (forall oid a e n h, EmailStr P a = Some e -> Q (stored_candidate oid e n h)) ->
  (forall d path, Q d -> Q ({[ "resume_path" := VStr path ]} ∪ d)) ->
  Forall Q (candidates w) -> Forall Q (candidates (serve P r w)).
Proof.
  intros Hnew Hset Hall. destruct r; cbn [serve].
  - exact Hall.
  - destruct (signup_candidates P candidate w) as [-> | (e & e' & h & _ & He' & _ & _ & ->)];
      [exact Hall|].
    apply Forall_app. split; [exact Hall|].
    constructor; [apply (Hnew _ e), He' | constructor].
  - rewrite read_only_login. exact Hall.
  - destruct (apply_for_job_world P job_id candidate_email w) as [-> | (oid & e & _ & _ & ->)];
      exact Hall.
  - destruct (upload_resume_database P candidate_id file w)
      as (_ & _ & _ & _ & _ & [-> | (oid & l & _ & _ & E & ->)]); [exact Hall|].
    eapply set_first_Forall; [|exact E|exact Hall]. intros d; apply Hset.
  - rewrite read_only_admin_login. exact Hall.
  - rewrite read_only_view_candidates. exact Hall.
  - rewrite read_only_view_resumes. exact Hall.
  - rewrite read_only_get_jobs. exact Hall.
  - rewrite read_only_get_job. exact Hall.
  - rewrite post_job_run. exact Hall.
  - rewrite update_job_run. destruct (ObjectId_of_str _); [|exact Hall].
    destruct (set_first _ _ _); exact Hall.
  - rewrite update_job_status_run. destruct (negb _); [exact Hall|].
    destruct (ObjectId_of_str _); [|exact Hall].
    destruct (set_first _ _ _); exact Hall.
  - rewrite read_only_get_candidates. exact Hall.
  - rewrite read_only_get_candidate. exact Hall.
Qed.

(** The jobs collection changes by the document post_job appends and by
    the fields the two updates set. *)
Lemma serve_jobs (Q : document -> Prop) (r : request) (w : world) :
  (forall oid j, Q (<["_id" := VOid oid]> (Job_dict j))) ->
  (forall d j, Q d -> Q (Job_dict j ∪ d)) ->
  (forall d s, Q d -> Q ({[ "status" := VStr s ]} ∪ d)) ->
  Forall Q (jobs w) -> Forall Q (jobs (serve P r w)).
Proof.
  intros Hnew Hset Hstatus Hall. destruct r; cbn [serve].
  - exact Hall.
  - destruct (signup_keeps P candidate w) as (_ & -> & _). exact Hall.
  - rewrite read_only_login. exact Hall.
  - destruct (apply_for_job_world P job_id candidate_email w) as [-> | (oid & e & _ & _ & ->)];
      exact Hall.
  - destruct (upload_resume_database P candidate_id file w) as (_ & -> & _). exact Hall.
  - rewrite read_only_admin_login. exact Hall.
  - rewrite read_only_view_candidates. exact Hall.
  - rewrite read_only_view_resumes. exact Hall.
  - rewrite read_only_get_jobs. exact Hall.
  - rewrite read_only_get_job. exact Hall.
  - rewrite post_job_run. cbn. apply Forall_app. split; [exact Hall|].
    constructor; [apply Hnew | constructor].
  - rewrite update_job_run. destruct (ObjectId_of_str _); [|exact Hall].
    destruct (set_first _ _ _) as [l|] eqn:E; [|exact Hall].
    cbn. eapply set_first_Forall; [|exact E|exact Hall]. intros d; apply Hset.
  - rewrite update_job_status_run. destruct (negb _); [exact Hall|].
    destruct (ObjectId_of_str _); [|exact Hall].
    destruct (set_first _ _ _) as [l|] eqn:E; [|exact Hall].
    cbn. eapply set_first_Forall; [|exact E|exact Hall]. intros d; apply Hstatus.
  - rewrite read_only_get_candidates. exact Hall.
  - rewrite read_only_get_candidate. exact Hall.
Qed.

Lemma reachable_candidates (Q : document -> Prop) (w0 w : world) :
  (forall oid a e n h, EmailStr P a = Some e -> Q (stored_candidate oid e n h)) ->
  (forall d path, Q d -> Q ({[ "resume_path" := VStr path ]} ∪ d)) ->
  Forall Q (candidates w0) -> reachable P w0 w -> Forall Q (candidates w).
Proof.
  intros Hnew Hset H0. induction 1 as [|r w _ IH]; [exact H0|].
  apply serve_candidates; assumption.
Qed.

Lemma reachable_jobs (Q : document -> Prop) (w0 w : world) :
  (forall oid j, Q (<["_id" := VOid oid]> (Job_dict j))) ->
  (forall d j, Q d -> Q (Job_dict j ∪ d)) ->
  (forall d s, Q d -> Q ({[ "status" := VStr s ]} ∪ d)) ->
  Forall Q (jobs w0) -> reachable P w0 w -> Forall Q (jobs w).
Proof.
  intros Hnew Hset Hstatus H0. induction 1 as [|r w _ IH]; [exact H0|].
  apply serve_jobs; assumption.
Qed.

End Frames.

(** ** Passwords *)

Lemma set_resume_path_lookup (d : document) (path k : string) :
  k <> "resume_path" -> ({[ "resume_path" := VStr path ]} ∪ d) !! k = d !! k.
Proof.
  intros Hk. apply lookup_union_r. apply lookup_singleton_ne. congruence.
Qed.

Lemma set_status_lookup (d : document) (s k : string) :
  k <> "status" -> ({[ "status" := VStr s ]} ∪ d) !! k = d !! k.
Proof.
  intros Hk. apply lookup_union_r. apply lookup_singleton_ne. congruence.
Qed.

(** C9. The document signup inserts has the fields _id, email, name and
    hashed_password, the last one being the bcrypt hash of the password;
    the password field of the schema is in the dict only until the
    exclusion removes it.  No request adds a field named password to a
    candidate document: if no candidate document has one, none has one
    after any request, hence in no world reached from such a world, in
    particular from a fresh deployment. *)
Theorem no_password_field_persisted (P : Platform) :
  (forall (oid : ObjectId) (c : Candidate) (h : string),
     let inserted :=
       <["_id" := VOid oid]> (CandidateInDB_dict ["password"] (mkCandidateInDB c h)) in
     CandidateInDB_dict [] (mkCandidateInDB c h) !! "password" = Some (VStr (password c))
     /\ no_password_field inserted
     /\ inserted !! "hashed_password" = Some (VStr h)
     /\ dom inserted = ({[ "_id"; "email"; "name"; "hashed_password" ]} : gset string))
  /\ (forall (body : Candidate) (w : world) (e e' h : string),
        EmailStr P (email body) = Some e ->
        EmailStr P e = Some e' ->
        email_registered Candidates e w = false ->
        bcrypt_handler_hash (bcrypt P) (urandom w) (password body) = inr h ->
        candidates (snd (signup P body w))
        = candidates w ++
            [<["_id" := VOid (generate_ObjectId (oid_counter w))]>
               (CandidateInDB_dict ["password"]
                  (mkCandidateInDB (mkCandidate e' (password body) (name body)) h))])
  /\ (forall (r : request) (w : world),
        Forall no_password_field (candidates w) ->
        Forall no_password_field (candidates (serve P r w)))
  /\ (forall w0 w : world,
        Forall no_password_field (candidates w0) -> reachable P w0 w ->
        Forall no_password_field (candidates w))
  /\ (forall w0 w : world,
        fresh_world w0 -> reachable P w0 w -> Forall no_password_field (candidates w)).
Proof.
  assert (forall oid a e n h, EmailStr P a = Some e ->
                              no_password_field (stored_candidate oid e n h)) as Hnew
    by reflexivity.
  assert (forall d path, no_password_field d ->
                         no_password_field ({[ "resume_path" := VStr path ]} ∪ d)) as Hset.
  { intros d path Hd. unfold no_password_field.
    rewrite set_resume_path_lookup by discriminate. exact Hd. }
  split; [|split; [|split; [|split]]].
  - intros oid [e p n] h. cbv zeta. repeat split.
  - intros body w e e' h He He' Hfree Hh.
    rewrite signup_run, He, signup_handler_run. cbn [email password name].
    unfold email_registered in Hfree. cbn [docs] in Hfree.
    rewrite Hfree, Hh, He', signup_document. reflexivity.
  - intros r w. apply serve_candidates; assumption.
  - intros w0 w. apply reachable_candidates; assumption.
  - intros w0 w (Hc & _ & _). apply reachable_candidates; try assumption.
    rewrite Hc. constructor.
Qed.

Lemma no_password_field_after_signup_and_upload :
  Forall no_password_field
    (candidates
       (serve demo_platform
          (PostResume "000000000000000000000000" (mkUploadFile "cv.pdf" "%PDF"))
          (serve demo_platform (PostSignup alice) empty_world)))
  /\ length
       (candidates
          (serve demo_platform
             (PostResume "000000000000000000000000" (mkUploadFile "cv.pdf" "%PDF"))
             (serve demo_platform (PostSignup alice) empty_world))) = 1.
Proof.
  split; [|reflexivity].
  destruct (no_password_field_persisted demo_platform) as (_ & _ & _ & _ & H).
  apply (H empty_world).
  - repeat split.
  - apply reachable_serve, reachable_serve, reachable_start.
Defined.

(** ** Worlds reached from a fresh deployment *)

Lemma stored_candidate_shaped (P : Platform) (oid : ObjectId) (e e' n h : string) :
  EmailStr P e = Some e' -> candidate_shaped P (stored_candidate oid e n h) = true.
Proof.
  intros He. unfold candidate_shaped.
  change (stored_candidate oid e n h !! "email") with (Some (VStr e)).
  cbn [is_email]. rewrite He. reflexivity.
Qed.

Lemma set_resume_path_shaped (P : Platform) (d : document) (path : string) :
  candidate_shaped P d = true ->
  candidate_shaped P ({[ "resume_path" := VStr path ]} ∪ d) = true.
Proof.
  unfold candidate_shaped, has_key.
  rewrite !set_resume_path_lookup by discriminate. auto.
Qed.

Lemma posted_job_shaped (oid : ObjectId) (j : Job) :
  job_shaped (<["_id" := VOid oid]> (Job_dict j)) = true.
Proof. destruct j as [t d dep l et [sr|] [ad|] rs [ai|]]; reflexivity. Qed.

Lemma updated_job_shaped (d : document) (j : Job) :
  job_shaped d = true -> job_shaped (Job_dict j ∪ d) = true.
Proof.
  unfold job_shaped, has_key. intros H. rewrite !andb_true_iff in H.
  destruct H as [[[[[[[[[[Hid Hnoid] _] _] _] _] _] _] _] _] _].
  assert (forall k v, Job_dict j !! k = Some v -> (Job_dict j ∪ d) !! k = Some v) as Hl
    by (intros k v; apply lookup_union_Some_l).
  assert (forall k, Job_dict j !! k = None -> (Job_dict j ∪ d) !! k = d !! k) as Hr
    by (intros k; apply lookup_union_r).
  rewrite (Hr "_id"), (Hr "id") by reflexivity.
  destruct j as [t de dep l et sr ad rs ai].
  rewrite (Hl "title" (VStr t)), (Hl "description" (VStr de)), (Hl "department" (VStr dep)),
    (Hl "location" (VStr l)), (Hl "employment_type" (VStr et)),
    (Hl "salary_range" (optional_str sr)), (Hl "application_deadline" (optional_str ad)),
    (Hl "required_skills" (VList rs)), (Hl "additional_info" (optional_str ai))
    by reflexivity.
  rewrite Hid, Hnoid. destruct sr, ad, ai; reflexivity.
Qed.

Lemma set_status_shaped (d : document) (s : string) :
  job_shaped d = true -> job_shaped ({[ "status" := VStr s ]} ∪ d) = true.
Proof.
  unfold job_shaped, has_key.
  rewrite !set_status_lookup by discriminate. auto.
Qed.

(** The stand-in validator returns addresses in normal form. *)
Lemma to_lower_idempotent (c : ascii) : to_lower (to_lower c) = to_lower c.
Proof. destruct c as [[] [] [] [] [] [] [] []]; reflexivity. Qed.

Lemma lower_idempotent (s : string) : lower (lower s) = lower s.
Proof.
  induction s as [|c s IH]; [reflexivity|].
  cbn [lower]. rewrite to_lower_idempotent, IH. reflexivity.
Qed.

Lemma demo_validator_idempotent : idempotent_validator demo_platform.
Proof.
  assert (forall a, has_at a = true ->
            has_at (lower_domain a) = true /\ lower_domain (lower_domain a) = lower_domain a)
    as Hnorm.
  { unfold has_at. induction a as [|c s IH]; [discriminate|].
    cbn [list_ascii_of_string existsb lower_domain].
    destruct (Ascii.eqb_spec c "@") as [->|Hne].
    - intros _. cbn [list_ascii_of_string existsb lower_domain Ascii.eqb].
      split; [reflexivity|]. cbn. rewrite lower_idempotent. reflexivity.
    - cbn [list_ascii_of_string existsb lower_domain].
      destruct (Ascii.eqb_spec "@"%char c) as [<-|_]; [destruct Hne; reflexivity|].
      destruct (Ascii.eqb_spec c "@") as [->|_]; [destruct Hne; reflexivity|].
      cbn [orb]. intros H. destruct (IH H) as [H1 H2]. rewrite H2. auto. }
  intros a e. unfold EmailStr. cbn [email_validator demo_platform].
  destruct (has_at a) eqn:Ha; [|discriminate]. intros [= <-].
  destruct (Hnorm a Ha) as [-> ->]. reflexivity.
Qed.

(** From a fresh deployment on, the list routes return when requests
    are served one after the other and the validator returns addresses
    in normal form: every candidate and job document then has the fields
    the response schemas read. *)
Lemma list_routes_return_after_fresh_start (P : Platform) (w0 w : world) :
  idempotent_validator P ->
  fresh_world w0 -> reachable P w0 w ->
  (exists l, get_jobs w = (Return l, w))
  /\ (exists l, get_candidates P w = (Return l, w))
  /\ (exists l, view_candidates P w = (Return l, w))
  /\ (exists l, view_resumes w = (Return l, w)).
Proof.
  intros Hidem (Hc & Hj & _) Hreach.
  assert (Forall (fun d => candidate_shaped P d = true) (candidates w)) as Hcs.
  { apply (reachable_candidates P _ w0); auto using set_resume_path_shaped.
    - intros oid a e n h He. apply (stored_candidate_shaped P oid e e), (Hidem a), He.
    - rewrite Hc. constructor. }
  assert (Forall (fun d => job_shaped d = true) (jobs w)) as Hjs.
  { apply (reachable_jobs P _ w0); auto using posted_job_shaped, updated_job_shaped,
      set_status_shaped. rewrite Hj. constructor. }
  destruct (list_routes_shaped_return P w Hjs Hcs) as (H1 & H2 & H3 & H4). auto.
Qed.

(** ** Identifiers in responses *)

Lemma hex_digit_value (x : N) :
  (x < 16)%N ->
  Hex.digit_value (Hex.digit x) = Some x /\ Hex.is_space (Hex.digit x) = false.
Proof.
  intros H.
  assert (x = 0 \/ x = 1 \/ x = 2 \/ x = 3 \/ x = 4 \/ x = 5 \/ x = 6 \/ x = 7
          \/ x = 8 \/ x = 9 \/ x = 10 \/ x = 11 \/ x = 12 \/ x = 13 \/ x = 14
          \/ x = 15)%N as Hx by lia.
  repeat (destruct Hx as [-> | Hx]; [split; reflexivity|]). subst x. split; reflexivity.
Qed.

Lemma fromhex_hexlify (bs : list N) :
  Forall (fun b => (b < 256)%N) bs -> Hex.fromhex (Hex.hexlify bs) = Some bs.
Proof.
  induction 1 as [|b bs Hb _ IH]; [reflexivity|].
  assert (b / 16 < 16)%N as Hhi by (apply N.Div0.div_lt_upper_bound; lia).
  assert (b mod 16 < 16)%N as Hlo by (apply N.mod_lt; discriminate).
  destruct (hex_digit_value _ Hhi) as [Dhi Shi].
  destruct (hex_digit_value _ Hlo) as [Dlo _].
  cbn [Hex.hexlify Hex.fromhex]. rewrite Shi, Dhi, Dlo, IH. cbn [fmap option_fmap option_map].
  f_equal. f_equal. rewrite (N.div_mod b 16) at 3 by discriminate. reflexivity.
Qed.

Lemma hexlify_length (bs : list N) :
  String.length (Hex.hexlify bs) = 2 * length bs.
Proof. induction bs as [|b bs IH]; simpl; [reflexivity | rewrite IH; lia]. Qed.

Lemma le_bytes_bounded (k : nat) (n : N) : Forall (fun b => (b < 256)%N) (le_bytes k n).
Proof.
  revert n. induction k as [|k IH]; intros n; simpl; constructor; [|apply IH].
  apply N.mod_lt. discriminate.
Qed.

Lemma le_bytes_length (k : nat) (n : N) : length (le_bytes k n) = k.
Proof. revert n. induction k as [|k IH]; intros n; simpl; [reflexivity | rewrite IH; reflexivity]. Qed.

(** The identifier a response carries reads back as the identifier the
    store assigned. *)
Lemma ObjectId_of_str_generated (n : N) :
  ObjectId_of_str (str_of_ObjectId (generate_ObjectId n)) = Some (generate_ObjectId n).
Proof.
  unfold ObjectId_of_str, str_of_ObjectId, generate_ObjectId. cbn [binary].
  rewrite hexlify_length, length_rev, le_bytes_length. cbn [Nat.mul Nat.add Nat.eqb].
  rewrite fromhex_hexlify; [reflexivity|].
  apply Forall_rev, le_bytes_bounded.
Qed.

Example ObjectId_of_str_examples :
  ObjectId_of_str "xyz" = None
  /\ ObjectId_of_str "00000000000000000000000g" = None
  /\ ObjectId_of_str "0000000000000000000000001" = None
  /\ ObjectId_of_str "00000000000000000000012C" = Some (generate_ObjectId 300)
  /\ str_of_ObjectId (generate_ObjectId 300) = "00000000000000000000012c".
Proof. repeat split. Qed.

Example bcrypt_identify_examples :
  bcrypt_identify "$2b$12$abcdefghijklmnopqrstuv" = true
  /\ bcrypt_identify "$2" = false
  /\ bcrypt_identify "" = false
  /\ bcrypt_identify "hunter2" = false.
Proof. repeat split. Qed.

Example status_pattern_examples :
  Pattern.search status_pattern "Open" = true
  /\ Pattern.search status_pattern "Filled" = true
  /\ Pattern.search status_pattern "open" = false
  /\ Pattern.search status_pattern "OpenClosed" = false
  /\ Pattern.search status_pattern " Open" = false
  /\ Pattern.search status_pattern "" = false.
Proof. repeat split. Qed.

(** * Further properties of the routes *)

(** ** Reading back what was written *)

Lemma find_app_fresh {A} (p : A -> bool) (l : list A) (a : A) :
  existsb p l = false -> p a = true -> List.find p (l ++ [a]) = Some a.
Proof.
  intros Hl Ha. induction l as [|b l IH]; simpl in *.
  - rewrite Ha. reflexivity.
  - apply orb_false_iff in Hl as [Hb Hl]. rewrite Hb. auto.
Qed.

Lemma JobResponse_of_posted (oid : ObjectId) (j : Job) (w : world) :
  JobResponse_of_doc (<["_id" := VOid oid]> (Job_dict j)) w
  = (Return (mkJobResponse (str_of_ObjectId oid) j), w).
Proof. destruct j as [t d dep l et [sr|] [ad|] rs [ai|]]; reflexivity. Qed.

Lemma CandidateResponse_of_stored (P : Platform) (oid : ObjectId) (e e' n h : string)
    (w : world) :
  EmailStr P e = Some e' ->
  CandidateResponse_of_doc P (stored_candidate oid e n h) w
  = (Return (mkCandidateResponse (str_of_ObjectId oid) e' n), w).
Proof.
  intros He. unfold CandidateResponse_of_doc, CandidateResponse_new, bind, getitem.
  change (stored_candidate oid e n h !! "_id") with (Some (VOid oid)).
  change (stored_candidate oid e n h !! "email") with (Some (VStr e)).
  change (stored_candidate oid e n h !! "name") with (Some (VStr n)).
  unfold ret at 1 2 3. rewrite email_arg_str, He. reflexivity.
Qed.

(** A generated identifier has its 12 bytes: the store receives it as it
    is. *)
Lemma on_wire_generated (P : Platform) (n : N) :
  on_wire P (generate_ObjectId n) = generate_ObjectId n.
Proof.
  unfold on_wire, generate_ObjectId. cbn [binary].
  rewrite length_rev, le_bytes_length. reflexivity.
Qed.

(** X1. When the identifier the store is about to assign is not in the
    jobs collection yet, GetJob on that identifier answers 404 before
    the job is posted, and after PostJob it returns the very response
    PostJob returned: the new identifier with the posted fields. *)
Theorem post_job_then_get_job (P : Platform) (job : Job) (w : world) :
  id_stored Jobs (generate_ObjectId (oid_counter w)) w = false ->
  let posted := mkJobResponse (str_of_ObjectId (generate_ObjectId (oid_counter w))) job in
  get_job P (jr_id posted) w = (HTTPException 404 "Job not found", w)
  /\ fst (post_job job w) = Return posted
  /\ get_job P (jr_id posted) (snd (post_job job w)) = (Return posted, snd (post_job job w)).
Proof.
  intros Hfresh. cbv zeta. cbn [jr_id].
  rewrite post_job_run, !get_job_run, ObjectId_of_str_generated, on_wire_generated.
  cbn [fst snd].
  unfold id_stored in Hfresh. cbn [docs] in Hfresh.
  split; [|split; [reflexivity|]].
  - apply find_None_existsb in Hfresh. rewrite Hfresh. reflexivity.
  - cbn [with_oid_counter with_docs jobs].
    rewrite (find_app_fresh _ _ _ Hfresh) by (apply matches_lookup; reflexivity).
    apply JobResponse_of_posted.
Qed.

Lemma post_job_then_get_job_on_staffed_world :
  fst (get_job demo_platform "000000000000000000000002"
         (snd (post_job backend_engineer staffed_world)))
  = Return (mkJobResponse "000000000000000000000002" backend_engineer)
  /\ fst (get_job demo_platform "000000000000000000000002" staffed_world)
     = HTTPException 404 "Job not found".
Proof.
  destruct (post_job_then_get_job demo_platform backend_engineer staffed_world eq_refl)
    as (H1 & _ & H3).
  split.
  - change "000000000000000000000002"
      with (jr_id (mkJobResponse
                     (str_of_ObjectId (generate_ObjectId (oid_counter staffed_world)))
                     backend_engineer)).
    rewrite H3. reflexivity.
  - change "000000000000000000000002"
      with (jr_id (mkJobResponse
                     (str_of_ObjectId (generate_ObjectId (oid_counter staffed_world)))
                     backend_engineer)).
    rewrite H1. reflexivity.
Defined.

(** A signup that stores: the address validates to [e], which is in
    normal form and not registered, and the handler hashes the password
    to [h]. *)
Lemma signup_stores (P : Platform) (body : Candidate) (e h : string) (w : world) :
  normalises P (email body) e ->
  email_registered Candidates e w = false ->
  bcrypt_handler_hash (bcrypt P) (urandom w) (password body) = inr h ->
  signup P body w
  = (Return (mkCandidateResponse (str_of_ObjectId (generate_ObjectId (oid_counter w)))
               e (name body)),
     with_oid_counter (N.succ (oid_counter w))
       (with_docs Candidates
          (candidates w ++
             [stored_candidate (generate_ObjectId (oid_counter w)) e (name body) h])
          (with_urandom (N.succ (urandom w)) w))).
Proof.
  intros [He Hn] Hfree Hh. unfold email_registered in Hfree. cbn [docs] in Hfree.
  rewrite signup_run, He, signup_handler_run. cbn [email password name].
  rewrite Hfree, Hh, Hn. reflexivity.
Qed.

(** X2. When the address validates to a normal form that is not
    registered, the bcrypt handler accepts the password and the
    identifier the store is about to assign is not in the candidates
    collection yet, GetCandidate on the identifier Signup returned gives
    back the response Signup returned: the identifier, the validated
    e-mail and the name (never the password or its hash); before the
    signup that identifier answers 404. *)
Theorem signup_then_get_candidate
    (P : Platform) (body : Candidate) (e h : string) (w : world) :
  normalises P (email body) e ->
  email_registered Candidates e w = false ->
  bcrypt_handler_hash (bcrypt P) (urandom w) (password body) = inr h ->
  id_stored Candidates (generate_ObjectId (oid_counter w)) w = false ->
  let created :=
    mkCandidateResponse (str_of_ObjectId (generate_ObjectId (oid_counter w)))
      e (name body) in
  fst (signup P body w) = Return created
  /\ get_candidate P (cr_id created) w = (HTTPException 404 "Candidate not found", w)
  /\ get_candidate P (cr_id created) (snd (signup P body w))
     = (Return created, snd (signup P body w)).
Proof.
  intros Hnorm Hfree Hh Hfresh. cbv zeta. cbn [cr_id].
  rewrite (signup_stores P body e h w Hnorm Hfree Hh).
  rewrite !get_candidate_run, ObjectId_of_str_generated, on_wire_generated. cbn [fst snd].
  unfold id_stored in Hfresh. cbn [docs] in Hfresh.
  split; [reflexivity|]. split.
  - apply find_None_existsb in Hfresh. rewrite Hfresh. reflexivity.
  - cbn [with_oid_counter with_docs with_urandom candidates].
    rewrite (find_app_fresh _ _ _ Hfresh) by (apply matches_lookup; reflexivity).
    apply CandidateResponse_of_stored, Hnorm.
Qed.

Lemma signup_then_get_candidate_on_empty_world :
  fst (get_candidate demo_platform "000000000000000000000000"
         (snd (signup demo_platform (mkCandidate "a@X.COM" "p1" "A") empty_world)))
  = Return (mkCandidateResponse "000000000000000000000000" "a@x.com" "A").
Proof.
  destruct (signup_then_get_candidate demo_platform (mkCandidate "a@X.COM" "p1" "A")
              "a@x.com" "$2b$12$0000$p1" empty_world
              (conj eq_refl eq_refl) eq_refl eq_refl eq_refl)
    as (_ & _ & H).
  exact (f_equal fst H).
Defined.

(** X3. After a signup that stored a candidate (the address validates
    to a normal form that was not registered, the bcrypt handler
    accepted the password), a login on any address that validates to
    the same normal form is decided by what the bcrypt handler says
    about the attempted password and the stored hash: success when it
    verifies, the 400 of a bad request when it does not; the login
    changes nothing. *)
Theorem signup_then_login
    (P : Platform) (body : Candidate) (e h address attempt : string) (verified : bool)
    (w : world) :
  normalises P (email body) e ->
  email_registered Candidates e w = false ->
  bcrypt_handler_hash (bcrypt P) (urandom w) (password body) = inr h ->
  bcrypt_identify h = true ->
  bcrypt_verify (bcrypt P) attempt h = inr verified ->
  EmailStr P address = Some e ->
  login P (mkLoginData address attempt) (snd (signup P body w))
  = (if verified then Return "Login successful"
     else HTTPException 400 "Invalid email or password",
     snd (signup P body w)).
Proof.
  intros Hnorm Hfree Hh Hid Hver Haddr.
  rewrite login_run. cbn [login_email login_password]. rewrite Haddr.
  rewrite check_credentials_run.
  rewrite (signup_stores P body e h w Hnorm Hfree Hh).
  cbn [snd login_email login_password docs].
  cbn [with_oid_counter with_docs with_urandom candidates].
  unfold email_registered in Hfree. cbn [docs] in Hfree.
  rewrite (find_app_fresh _ _ _ Hfree) by (apply matches_lookup; reflexivity).
  change (stored_candidate ?o ?e ?n ?h !! "hashed_password") with (Some (VStr h)).
  unfold verify_password, CryptContext_verify. rewrite Hid, Hver.
  destruct verified; reflexivity.
Qed.

Lemma signup_then_login_on_empty_world :
  fst (login demo_platform (mkLoginData "a@X.com" "p1")
         (snd (signup demo_platform alice empty_world)))
  = Return "Login successful"
  /\ fst (login demo_platform (mkLoginData "a@x.com" "p2")
            (snd (signup demo_platform alice empty_world)))
     = HTTPException 400 "Invalid email or password".
Proof.
  split.
  - exact (f_equal fst (signup_then_login demo_platform alice "a@x.com" "$2b$12$0000$p1"
                          "a@X.com" "p1" true empty_world
                          (conj eq_refl eq_refl) eq_refl eq_refl eq_refl eq_refl eq_refl)).
  - exact (f_equal fst (signup_then_login demo_platform alice "a@x.com" "$2b$12$0000$p1"
                          "a@x.com" "p2" false empty_world
                          (conj eq_refl eq_refl) eq_refl eq_refl eq_refl eq_refl eq_refl)).
Defined.

(** ** Updates of the selected document *)

(** [set_first] rewrites the first selected document in place. *)
Lemma set_first_split (p : document -> bool) (upd : document) (l : list document)
    (d : document) :
  List.find p l = Some d ->
  exists l1 l2,
    l = l1 ++ d :: l2 /\ existsb p l1 = false
    /\ set_first p upd l = Some (l1 ++ (upd ∪ d) :: l2).
Proof.
  induction l as [|a l IH]; simpl; [discriminate|].
  destruct (p a) eqn:Ea.
  - intros [= <-]. exists [], l. auto.
  - intros Hf. destruct (IH Hf) as (l1 & l2 & -> & Hl1 & Hset).
    exists (a :: l1), l2. simpl. rewrite Ea, Hset. auto.
Qed.

Lemma find_split {A} (p : A -> bool) (l1 l2 : list A) (a : A) :
  existsb p l1 = false -> p a = true -> List.find p (l1 ++ a :: l2) = Some a.
Proof.
  intros Hl Ha. induction l1 as [|b l1 IH]; simpl in *.
  - rewrite Ha. reflexivity.
  - apply orb_false_iff in Hl as [Hb Hl]. rewrite Hb. auto.
Qed.

Lemma matches_set (k : string) (q : value) (upd d : document) :
  upd !! k = None -> matches k q (upd ∪ d) = matches k q d.
Proof. intros H. unfold matches. rewrite lookup_union_r by exact H. reflexivity. Qed.

Lemma find_matches_value (k : string) (q : value) (l : list document) (d : document) :
  List.find (matches k q) l = Some d -> matches k q d = true.
Proof. intros H. apply List.find_some in H. tauto. Qed.

Lemma find_split_inv {A} (p : A -> bool) (l : list A) (a : A) :
  List.find p l = Some a ->
  exists l1 l2, l = l1 ++ a :: l2 /\ existsb p l1 = false /\ p a = true.
Proof.
  induction l as [|b l IH]; simpl; [discriminate|].
  destruct (p b) eqn:Eb.
  - intros [= <-]. exists [], l. auto.
  - intros Hf. destruct (IH Hf) as (l1 & l2 & -> & Hl1 & Ha).
    exists (b :: l1), l2. simpl. rewrite Eb. auto.
Qed.

Lemma set_first_at (p : document -> bool) (upd : document) (l1 l2 : list document)
    (d : document) :
  existsb p l1 = false -> p d = true ->
  set_first p upd (l1 ++ d :: l2) = Some (l1 ++ (upd ∪ d) :: l2).
Proof.
  intros Hl Hd. induction l1 as [|b l1 IH]; simpl in *.
  - rewrite Hd. reflexivity.
  - apply orb_false_iff in Hl as [Hb Hl]. rewrite Hb, (IH Hl). reflexivity.
Qed.

(** An upload for a stored candidate returns exactly when the file
    system accepts its two calls. *)
Lemma upload_resume_returns_iff (P : Platform) (candidate_id : string) (file : UploadFile)
    (oid : ObjectId) (w : world) :
  ObjectId_of_str candidate_id = Some oid ->
  id_stored Candidates (on_wire P oid) w = true ->
  fst (upload_resume P candidate_id file w) = Return "Resume uploaded successfully"
  <-> fs_accepts P (fs_log w) (resume_path_of candidate_id file) (content file).
Proof.
  intros Hid Hst. rewrite upload_resume_run, Hid, Hst. cbn [negb]. cbv zeta.
  unfold fs_accepts, resume_path_of.
  destruct (fs_refuses P (fs_log w) _) as [x|]; cbn [fst].
  - split; [discriminate | intros [H _]; discriminate].
  - destruct (fs_refuses P (fs_log w ++ _) _) as [x|]; cbn [fst].
    + split; [discriminate | intros [_ H]; discriminate].
    + split; auto.
Qed.

(** The upload that goes through: the world it leaves. *)
Lemma upload_resume_selected (P : Platform) (candidate_id : string) (file : UploadFile)
    (oid : ObjectId) (l1 l2 : list document) (d : document) (w : world) :
  ObjectId_of_str candidate_id = Some oid ->
  candidates w = l1 ++ d :: l2 ->
  existsb (matches "_id" (VOid (on_wire P oid))) l1 = false ->
  matches "_id" (VOid (on_wire P oid)) d = true ->
  fs_accepts P (fs_log w) (resume_path_of candidate_id file) (content file) ->
  upload_resume P candidate_id file w
  = (Return "Resume uploaded successfully",
     with_docs Candidates
       (l1 ++ ({[ "resume_path" := VStr (resume_path_of candidate_id file) ]} ∪ d) :: l2)
       (with_fs_log
          (fs_log w ++ resume_written (resume_path_of candidate_id file) (content file)) w)).
Proof.
  intros Hid Hl Hl1 Hd [Hmk Hwr]. rewrite upload_resume_run, Hid. unfold id_stored.
  cbn [docs]. rewrite Hl at 1. rewrite existsb_app. cbn [existsb]. rewrite Hd, orb_true_r.
  cbn [negb]. cbv zeta. unfold resume_path_of in *. rewrite Hmk, Hwr.
  unfold with_resume. rewrite Hl at 1.
  rewrite (set_first_at _ _ _ _ _ Hl1 Hd). reflexivity.
Qed.

(** X4. For a well-formed identifier that selects a candidate document,
    when the file system accepts the two calls, UploadResume succeeds:
    it makes the directory of resumes/{candidate_id}_{filename} and
    writes the bytes under that path, two calls in that order and no
    other; the selected document gets that path as resume_path and
    keeps every other field; every other candidate document stays in
    its place as it is, and the rest of the world is untouched. *)
Theorem upload_resume_stores_file_and_path
    (P : Platform) (candidate_id : string) (file : UploadFile) (oid : ObjectId)
    (d : document) (w : world) :
  ObjectId_of_str candidate_id = Some oid ->
  selected_by_id Candidates (on_wire P oid) w = Some d ->
  fs_accepts P (fs_log w) (resume_path_of candidate_id file) (content file) ->
  let path := resume_path_of candidate_id file in
  let d' := {[ "resume_path" := VStr path ]} ∪ d in
  let r := upload_resume P candidate_id file w in
  fst r = Return "Resume uploaded successfully"
  /\ fs_log (snd r) = fs_log w ++ [(Makedirs (dirname path), None);
                                    (WriteFile path (content file), None)]
  /\ (exists l1 l2,
        candidates w = l1 ++ d :: l2
        /\ existsb (matches "_id" (VOid (on_wire P oid))) l1 = false
        /\ candidates (snd r) = l1 ++ d' :: l2)
  /\ selected_by_id Candidates (on_wire P oid) (snd r) = Some d'
  /\ d' !! "resume_path" = Some (VStr path)
  /\ (forall k, k <> "resume_path" -> d' !! k = d !! k)
  /\ admins (snd r) = admins w
  /\ jobs (snd r) = jobs w
  /\ applications (snd r) = applications w
  /\ oid_counter (snd r) = oid_counter w
  /\ urandom (snd r) = urandom w.
Proof.
  intros Hid Hsel Hfs. cbv zeta. unfold selected_by_id in *. cbn [docs] in *.
  destruct (find_split_inv _ _ _ Hsel) as (l1 & l2 & Hl & Hl1 & Hd).
  rewrite (upload_resume_selected P candidate_id file oid l1 l2 d w Hid Hl Hl1 Hd Hfs).
  cbn [fst snd with_docs with_fs_log fs_log candidates admins jobs applications
       oid_counter urandom].
  split; [reflexivity|]. split; [reflexivity|].
  split; [exists l1, l2; auto|].
  split; [|split; [|split; [|auto 10]]].
  - apply find_split; [exact Hl1|]. rewrite matches_set by reflexivity. exact Hd.
  - apply lookup_union_Some_l, lookup_singleton_eq.
  - intros k Hk. apply set_resume_path_lookup, Hk.
Qed.

Lemma upload_resume_on_staffed_world :
  fst (upload_resume demo_platform "000000000000000000000000" (mkUploadFile "cv.pdf" "%PDF")
         staffed_world)
  = Return "Resume uploaded successfully"
  /\ fs_log (snd (upload_resume demo_platform "000000000000000000000000"
                    (mkUploadFile "cv.pdf" "%PDF") staffed_world))
     = [(Makedirs "resumes", None);
        (WriteFile "resumes/000000000000000000000000_cv.pdf" "%PDF", None)].
Proof.
  destruct (upload_resume_stores_file_and_path demo_platform
              "000000000000000000000000" (mkUploadFile "cv.pdf" "%PDF")
              (generate_ObjectId 0)
              (stored_candidate (generate_ObjectId 0) "a@x.com" "A" "$2b$12$0000$p1")
              staffed_world eq_refl eq_refl (conj eq_refl eq_refl)) as (H1 & H2 & _).
  split; [exact H1 | exact H2].
Defined.

(** X5. UploadResume fails exactly when the identifier is malformed, or
    selects no candidate document, or the file system refuses one of
    the two calls.  A failed upload leaves the database as it was; when
    the failure is in the identifier or the lookup, no call to the file
    system was made either; when the file system refuses a call, the
    calls made so far are made (a directory may have been created) and
    no document is updated. *)
Theorem upload_resume_failure_writes_nothing
    (P : Platform) (candidate_id : string) (file : UploadFile) (w : world) :
  let r := upload_resume P candidate_id file w in
  let path := resume_path_of candidate_id file in
  let unknown :=
    ObjectId_of_str candidate_id = None
    \/ exists oid, ObjectId_of_str candidate_id = Some oid
                   /\ id_stored Candidates (on_wire P oid) w = false in
  (fst r <> Return "Resume uploaded successfully"
   <-> unknown \/ ~ fs_accepts P (fs_log w) path (content file))
  /\ (unknown -> snd r = w)
  /\ (fst r <> Return "Resume uploaded successfully" ->
      same_database w (snd r) /\ urandom (snd r) = urandom w
      /\ exists calls, fs_log (snd r) = fs_log w ++ calls /\ length calls <= 2).
Proof.
  cbv zeta. rewrite upload_resume_run. unfold fs_accepts, resume_path_of, same_database.
  assert (forall l : list fs_event, exists calls, l = l ++ calls /\ length calls <= 2)
    as Hnone by (intros l; exists []; rewrite app_nil_r; split; [reflexivity | simpl; lia]).
  destruct (ObjectId_of_str candidate_id) as [oid|].
  2:{ cbn [fst snd]. split; [split; [intros _; left; left; reflexivity | discriminate]|].
      split; [reflexivity|]. intros _. repeat split. apply Hnone. }
  destruct (id_stored Candidates (on_wire P oid) w) eqn:E; cbn [negb fst snd].
  2:{ split; [split; [intros _; left; right; exists oid; auto | discriminate]|].
      split; [reflexivity|]. intros _. repeat split. apply Hnone. }
  cbv zeta.
  destruct (fs_refuses P (fs_log w) _) as [x|] eqn:E1; cbn [fst snd].
  { split; [split; [intros _; right; intros [H _]; discriminate | discriminate]|].
    split; [intros [H | (o & [= <-] & H)]; [discriminate | congruence]|].
    intros _. repeat split. eexists. split; [reflexivity | simpl; lia]. }
  destruct (fs_refuses P (fs_log w ++ _) _) as [x|] eqn:E2; cbn [fst snd].
  { split; [split; [intros _; right; intros [_ H]; discriminate | discriminate]|].
    split; [intros [H | (o & [= <-] & H)]; [discriminate | congruence]|].
    intros _. repeat split. eexists. split; [reflexivity | simpl; lia]. }
  split; [|split].
  - split; [intros H; destruct H; reflexivity|].
    intros [[H | (o & [= <-] & H)] | H]; [discriminate | congruence | destruct H; auto].
  - intros [H | (o & [= <-] & H)]; [discriminate | congruence].
  - intros H. destruct H. reflexivity.
Qed.

(** A refused call on the stand-in platform with a file system that
    refuses every write: the directory is made, the write fails, no
    document changes. *)
Example upload_resume_refused_write :
  let read_only_fs := {|
    bcrypt := demo_backend;
    email_validator := email_validator demo_platform;
    short_id := short_id demo_platform;
    fs_refuses := fun _ op =>
      match op with
      | Makedirs _ => None
      | WriteFile _ _ => Some (OSError "EROFS")
      end |} in
  let r := upload_resume read_only_fs "000000000000000000000000"
             (mkUploadFile "cv.pdf" "%PDF") staffed_world in
  fst r = Raise (OSError "EROFS")
  /\ candidates (snd r) = candidates staffed_world
  /\ fs_log (snd r)
     = [(Makedirs "resumes", None);
        (WriteFile "resumes/000000000000000000000000_cv.pdf" "%PDF", Some (OSError "EROFS"))].
Proof. cbv zeta. repeat split. Qed.

(** X6. When the candidate behind a well-formed identifier is among the
    first 100 documents and the upload succeeds, every list ViewResumes
    returns afterwards has the entry of that candidate: the e-mail of
    the document with the path of the upload.  ViewResumes does return
    when the candidate documents carry an e-mail. *)
Theorem upload_resume_then_view_resumes
    (P : Platform) (candidate_id : string) (file : UploadFile) (oid : ObjectId)
    (d : document) (w : world) :
  ObjectId_of_str candidate_id = Some oid ->
  List.find (matches "_id" (VOid (on_wire P oid))) (take 100 (candidates w)) = Some d ->
  fst (upload_resume P candidate_id file w) = Return "Resume uploaded successfully" ->
  let path := resume_path_of candidate_id file in
  let w' := snd (upload_resume P candidate_id file w) in
  (forall l, fst (view_resumes w') = Return l ->
     In (mkResumeEntry (default VNull (d !! "email")) (VStr path)) l)
  /\ (Forall (fun x => has_key "email" x = true) (candidates w) ->
      exists l, view_resumes w' = (Return l, w')).
Proof.
  intros Hid Hsel Hok. cbv zeta.
  destruct (find_split_inv _ _ _ Hsel) as (l1 & l2 & Htake & Hl1 & Hd).
  assert (candidates w = l1 ++ d :: (l2 ++ drop 100 (candidates w))) as Hl.
  { rewrite <- (take_drop 100 (candidates w)) at 1. rewrite Htake, <- app_assoc. reflexivity. }
  assert (length l1 < 100) as Hlen.
  { apply (f_equal (@length document)) in Htake.
    rewrite length_take, length_app in Htake. cbn [length] in Htake. lia. }
  assert (id_stored Candidates (on_wire P oid) w = true) as Hst.
  { unfold id_stored. cbn [docs]. rewrite Hl, existsb_app. cbn [existsb].
    rewrite Hd, orb_true_r. reflexivity. }
  apply (upload_resume_returns_iff P candidate_id file oid w Hid Hst) in Hok.
  set (path := resume_path_of candidate_id file).
  set (d' := {[ "resume_path" := VStr path ]} ∪ d).
  assert (candidates (snd (upload_resume P candidate_id file w))
          = l1 ++ d' :: (l2 ++ drop 100 (candidates w))) as Hnew.
  { rewrite (upload_resume_selected P candidate_id file oid _ _ d w Hid Hl Hl1 Hd Hok).
    reflexivity. }
  assert (forall w0, view_resumes w0
          = mapM resume_entry (List.filter (has_key "resume_path") (take 100 (candidates w0))) w0)
    as Hrun by reflexivity.
  split.
  - intros l Hret. rewrite Hrun in Hret.
    apply (mapM_returned resume_entry resume_entry_of) in Hret;
      [|apply read_only_resume_entry | apply resume_entry_returned].
    subst l. apply in_map_iff. exists d'. split.
    + unfold resume_entry_of, d'.
      rewrite set_resume_path_lookup by discriminate.
      rewrite (lookup_union_Some_l _ _ _ (VStr path)) by apply lookup_singleton_eq.
      reflexivity.
    + apply filter_In. split.
      * apply list_elem_of_In, elem_of_take. exists (length l1). split; [|exact Hlen].
        rewrite Hnew. apply list_lookup_middle. reflexivity.
      * unfold has_key, d'.
        rewrite (lookup_union_Some_l _ _ _ (VStr path)) by apply lookup_singleton_eq.
        reflexivity.
  - intros Hemail. rewrite Hrun. apply mapM_total, Forall_filter, Forall_take.
    rewrite Hnew. rewrite Hl in Hemail.
    apply Forall_app in Hemail as [H1 H2]. apply Forall_cons in H2 as [Hde H2].
    apply Forall_app. split; [|constructor].
    + eapply Forall_impl; [exact H1|]. intros x Hx. eexists. apply resume_entry_returns, Hx.
    + eexists. apply resume_entry_returns. unfold has_key, d'.
      rewrite set_resume_path_lookup by discriminate. exact Hde.
    + eapply Forall_impl; [exact H2|]. intros x Hx. eexists. apply resume_entry_returns, Hx.
Qed.

Lemma upload_resume_then_view_resumes_on_staffed_world :
  exists l,
    fst (view_resumes
           (snd (upload_resume demo_platform "000000000000000000000000"
                   (mkUploadFile "cv.pdf" "%PDF") staffed_world))) = Return l
    /\ In (mkResumeEntry (VStr "a@x.com") (VStr "resumes/000000000000000000000000_cv.pdf")) l.
Proof.
  destruct (upload_resume_then_view_resumes demo_platform
              "000000000000000000000000" (mkUploadFile "cv.pdf" "%PDF")
              (generate_ObjectId 0)
              (stored_candidate (generate_ObjectId 0) "a@x.com" "A" "$2b$12$0000$p1")
              staffed_world eq_refl eq_refl eq_refl) as [Hin Hret].
  destruct Hret as [l Hl]; [repeat constructor|].
  exists l. split; [rewrite Hl; reflexivity|].
  apply Hin. rewrite Hl. reflexivity.
Defined.

(** ** Updating a job *)

Lemma matches_oid_lookup (k : string) (oid : ObjectId) (d : document) :
  matches k (VOid oid) d = true -> d !! k = Some (VOid oid).
Proof.
  unfold matches, field_matches. destruct (d !! k) as [v|]; [|discriminate].
  intros H. apply orb_true_iff in H as [H|H].
  - apply bool_decide_eq_true in H. congruence.
  - destruct v; discriminate.
Qed.

Lemma JobResponse_of_updated (i : string) (j : Job) (d : document) (w : world) :
  d !! "id" = None ->
  JobResponse_of_kwargs i (Job_dict j ∪ d) w = (Return (mkJobResponse i j), w).
Proof.
  intros Hid.
  assert (forall k v, Job_dict j !! k = Some v -> (Job_dict j ∪ d) !! k = Some v) as Hl
    by (intros k v; apply lookup_union_Some_l).
  unfold JobResponse_of_kwargs.
  rewrite (lookup_union_r (Job_dict j) d "id") by reflexivity. rewrite Hid.
  destruct j as [t de dep l et sr ad rs ai].
  rewrite (Hl "title" (VStr t)), (Hl "description" (VStr de)), (Hl "department" (VStr dep)),
    (Hl "location" (VStr l)), (Hl "employment_type" (VStr et)),
    (Hl "salary_range" (optional_str sr)), (Hl "application_deadline" (optional_str ad)),
    (Hl "required_skills" (VList rs)), (Hl "additional_info" (optional_str ai))
    by reflexivity.
  destruct sr, ad, ai; reflexivity.
Qed.

(** X7. For a well-formed identifier that selects a job document (one
    without a field named id), UpdateJob succeeds and echoes the id
    string as it was given; GetJob then returns the new fields under
    the stored identifier in its canonical rendering.  The selected
    document keeps its _id and every field the Job schema does not name
    (its status among them); every other job document stays in its
    place as it is, and the rest of the world is untouched. *)
Theorem update_job_then_get_job
    (P : Platform) (job_id : string) (job : Job) (oid : ObjectId) (d : document) (w : world) :
  ObjectId_of_str job_id = Some oid ->
  selected_by_id Jobs (on_wire P oid) w = Some d ->
  d !! "id" = None ->
  let d' := Job_dict job ∪ d in
  let r := update_job P job_id job w in
  fst r = Return (mkJobResponse job_id job)
  /\ get_job P job_id (snd r)
     = (Return (mkJobResponse (str_of_ObjectId (on_wire P oid)) job), snd r)
  /\ (exists l1 l2,
        jobs w = l1 ++ d :: l2
        /\ existsb (matches "_id" (VOid (on_wire P oid))) l1 = false
        /\ snd r = with_docs Jobs (l1 ++ d' :: l2) w)
  /\ selected_by_id Jobs (on_wire P oid) (snd r) = Some d'
  /\ (forall k v, Job_dict job !! k = Some v -> d' !! k = Some v)
  /\ (forall k, Job_dict job !! k = None -> d' !! k = d !! k)
  /\ d' !! "_id" = Some (VOid (on_wire P oid))
  /\ d' !! "status" = d !! "status".
Proof.
  intros Hid Hsel Hnoid. cbv zeta. unfold selected_by_id in *. cbn [docs] in *.
  destruct (find_split_inv _ _ _ Hsel) as (l1 & l2 & Hl & Hl1 & Hd).
  rewrite update_job_run, Hid, Hl, (set_first_at _ _ _ _ _ Hl1 Hd).
  cbn [fst snd].
  assert (matches "_id" (VOid (on_wire P oid)) (Job_dict job ∪ d) = true) as Hd'
    by (rewrite matches_set by reflexivity; exact Hd).
  pose proof (matches_oid_lookup _ _ _ Hd') as Hid'.
  split; [reflexivity|]. split; [|split; [|split; [|split; [|split; [|split]]]]].
  - rewrite get_job_run, Hid. cbn [with_docs jobs].
    rewrite (find_split _ _ _ _ Hl1 Hd').
    unfold JobResponse_of_doc, bind, getitem. rewrite Hid'. unfold ret at 1.
    apply JobResponse_of_updated, Hnoid.
  - exists l1, l2. rewrite <- Hl. auto.
  - cbn [with_docs jobs]. apply find_split; assumption.
  - intros k v. apply lookup_union_Some_l.
  - intros k. apply lookup_union_r.
  - exact Hid'.
  - apply lookup_union_r. reflexivity.
Qed.

Lemma update_job_then_get_job_on_staffed_world :
  let sre := mkJob "SRE" "Keeps it up" "Ops" "Remote" "Contract" (Some "1-2") None [] None in
  fst (update_job demo_platform "000000000000000000000001" sre staffed_world)
  = Return (mkJobResponse "000000000000000000000001" sre)
  /\ fst (get_job demo_platform "000000000000000000000001"
            (snd (update_job demo_platform "000000000000000000000001" sre staffed_world)))
     = Return (mkJobResponse "000000000000000000000001" sre).
Proof.
  cbv zeta.
  destruct (update_job_then_get_job demo_platform "000000000000000000000001"
              (mkJob "SRE" "Keeps it up" "Ops" "Remote" "Contract" (Some "1-2") None [] None)
              (generate_ObjectId 1)
              (<["_id" := VOid (generate_ObjectId 1)]> (Job_dict backend_engineer))
              staffed_world eq_refl eq_refl eq_refl) as (H1 & H2 & _).
  split; [exact H1|]. rewrite H2. reflexivity.
Defined.

(** ** Results that do not depend on the world *)

Lemma constant_ret {A} (a : A) : constant (ret a).
Proof. exists (Return a). reflexivity. Qed.

Lemma constant_raise {A} (e : exn) : constant (@raise A e).
Proof. exists (Raise e). reflexivity. Qed.

Lemma constant_bind {A B} (m : M A) (k : A -> M B) :
  constant m -> (forall a, constant (k a)) -> constant (bind m k).
Proof.
  intros [r Hm] Hk. unfold constant, bind. destruct r as [a|c d| |e].
  - destruct (Hk a) as [r' Hr']. exists r'. intros w. rewrite Hm. apply Hr'.
  - exists (HTTPException c d). intros w. rewrite Hm. reflexivity.
  - exists RequestValidationError. intros w. rewrite Hm. reflexivity.
  - exists (Raise e). intros w. rewrite Hm. reflexivity.
Qed.

Lemma constant_getitem (d : document) (k : string) : constant (getitem d k).
Proof. unfold getitem. destruct (d !! k); [apply constant_ret | apply constant_raise]. Qed.

Lemma constant_str_arg (v : option value) : constant (str_arg v).
Proof. destruct v as [[]|]; simpl; (apply constant_ret || apply constant_raise). Qed.

Lemma constant_optional_str_arg (v : option value) : constant (optional_str_arg v).
Proof. destruct v as [[]|]; simpl; (apply constant_ret || apply constant_raise). Qed.

Lemma constant_list_arg (v : option value) : constant (list_arg v).
Proof. destruct v as [[]|]; simpl; (apply constant_ret || apply constant_raise). Qed.

Lemma constant_mapM {A B} (f : A -> M B) (l : list A) :
  (forall a, constant (f a)) -> constant (mapM f l).
Proof.
  intros Hf. induction l as [|a l IH]; simpl.
  - apply constant_ret.
  - apply constant_bind; [apply Hf|]. intros b.
    apply constant_bind; [exact IH|]. intros bs. apply constant_ret.
Qed.

Create HintDb steady.

#[export] Hint Resolve constant_ret constant_raise constant_getitem constant_str_arg
  constant_optional_str_arg constant_list_arg : steady.

Ltac steady :=
  repeat first
    [ progress auto with steady
    | apply constant_bind; [|intros ?]
    | match goal with
      | |- constant (match ?x with _ => _ end) => destruct x
      end ].

Lemma constant_email_arg (P : Platform) (v : option value) : constant (email_arg P v).
Proof.
  destruct v as [[]|]; simpl; try apply constant_raise.
  destruct (EmailStr P s); [apply constant_ret | apply constant_raise].
Qed.

#[export] Hint Resolve constant_email_arg : steady.

Lemma constant_CandidateResponse_of_doc (P : Platform) (d : document) :
  constant (CandidateResponse_of_doc P d).
Proof. unfold CandidateResponse_of_doc, CandidateResponse_new. steady. Qed.

Lemma constant_JobResponse_of_kwargs (i : string) (d : document) :
  constant (JobResponse_of_kwargs i d).
Proof. unfold JobResponse_of_kwargs. steady. Qed.

Lemma constant_JobResponse_of_doc (d : document) : constant (JobResponse_of_doc d).
Proof. unfold JobResponse_of_doc. steady. apply constant_JobResponse_of_kwargs. Qed.

Lemma constant_fst {A} (m : M A) (w w' : world) : constant m -> fst (m w') = fst (m w).
Proof. intros [r H]. rewrite !H. reflexivity. Qed.

(** ** Documents that differ in one field *)

Lemma same_but_refl (k : string) (d : document) : same_but k d d.
Proof. intros k' _. reflexivity. Qed.

Lemma same_but_set (k : string) (v : value) (d : document) :
  same_but k d ({[ k := v ]} ∪ d).
Proof.
  intros k' Hk. apply lookup_union_r, lookup_singleton_ne. congruence.
Qed.

Lemma matches_same_but (k key : string) (q : value) (d d' : document) :
  key <> k -> same_but k d d' -> matches key q d' = matches key q d.
Proof. intros Hk H. unfold matches. rewrite (H key Hk). reflexivity. Qed.

Lemma set_first_Forall2 (R : document -> document -> Prop) (p : document -> bool)
    (upd : document) (l l' : list document) :
  (forall d, R d d) -> (forall d, R d (upd ∪ d)) ->
  set_first p upd l = Some l' -> Forall2 R l l'.
Proof.
  intros Hrefl Hupd. revert l'. induction l as [|d l IH]; intros l'; simpl; [discriminate|].
  destruct (p d).
  - intros [= <-]. constructor; [apply Hupd|]. apply Forall_Forall2_diag, Forall_forall.
    intros x _. apply Hrefl.
  - destruct (set_first p upd l) as [l0|]; [|discriminate].
    intros [= <-]. constructor; [apply Hrefl | apply IH; reflexivity].
Qed.

Lemma find_Forall2 (R : document -> document -> Prop) (p : document -> bool)
    (l l' : list document) :
  (forall a b, R a b -> p b = p a) ->
  Forall2 R l l' ->
  match List.find p l, List.find p l' with
  | Some a, Some b => R a b
  | None, None => True
  | _, _ => False
  end.
Proof.
  intros Hp. induction 1 as [|a b l l' Hab _ IH]; simpl; [exact I|].
  rewrite (Hp a b Hab). destruct (p a); [exact Hab | exact IH].
Qed.

Lemma existsb_Forall2 (R : document -> document -> Prop) (p : document -> bool)
    (l l' : list document) :
  (forall a b, R a b -> p b = p a) ->
  Forall2 R l l' -> existsb p l' = existsb p l.
Proof.
  intros Hp. induction 1 as [|a b l l' Hab _ IH]; simpl; [reflexivity|].
  rewrite (Hp a b Hab), IH. reflexivity.
Qed.

Lemma mapM_Forall2 {B} (f : document -> M B) (R : document -> document -> Prop)
    (l l' : list document) (w w' : world) :
  (forall a, constant (f a)) ->
  (forall a b w0, R a b -> fst (f b w0) = fst (f a w0)) ->
  Forall2 R l l' -> fst (mapM f l' w') = fst (mapM f l w).
Proof.
  intros Hc Hf Hall.
  rewrite (constant_fst (mapM f l') w w') by (apply constant_mapM, Hc). clear w'.
  induction Hall as [|a b l l' Hab _ IH]; simpl; [reflexivity|].
  unfold bind at 1 3. specialize (Hf a b w Hab).
  destruct (Hc a) as [ra Ha]. destruct (Hc b) as [rb Hb].
  rewrite Ha, Hb in *. cbn [fst] in Hf. subst rb.
  destruct ra as [x| | |]; try reflexivity.
  unfold bind.
  destruct (constant_mapM f l Hc) as [r1 H1]. destruct (constant_mapM f l' Hc) as [r2 H2].
  rewrite H1, H2 in *. cbn [fst] in IH. subst r2. destruct r1; reflexivity.
Qed.

Lemma JobResponse_of_doc_same_but (d d' : document) (w : world) :
  same_but "status" d d' -> fst (JobResponse_of_doc d' w) = fst (JobResponse_of_doc d w).
Proof.
  intros H. unfold JobResponse_of_doc, JobResponse_of_kwargs, getitem.
  rewrite !H by discriminate. reflexivity.
Qed.

(** ** The status of a job *)

(** X8. For a well-formed identifier that selects a job document and a
    status of the pattern, UpdateJobStatus succeeds with a message that
    repeats the status; the selected document gets the status and keeps
    every other field; every other job document stays in its place as
    it is, and the rest of the world is untouched.  Any status may
    follow any other. *)
Theorem update_job_status_sets_only_status
    (P : Platform) (job_id status : string) (oid : ObjectId) (d : document) (w : world) :
  ObjectId_of_str job_id = Some oid ->
  selected_by_id Jobs (on_wire P oid) w = Some d ->
  status = "Open" \/ status = "Closed" \/ status = "Filled" ->
  let d' := {[ "status" := VStr status ]} ∪ d in
  let r := update_job_status P job_id status w in
  fst r = Return ("Job status updated to " +:+ status)
  /\ (exists l1 l2,
        jobs w = l1 ++ d :: l2
        /\ existsb (matches "_id" (VOid (on_wire P oid))) l1 = false
        /\ snd r = with_docs Jobs (l1 ++ d' :: l2) w)
  /\ selected_by_id Jobs (on_wire P oid) (snd r) = Some d'
  /\ d' !! "status" = Some (VStr status)
  /\ same_but "status" d d'.
Proof.
  intros Hid Hsel Hstatus. cbv zeta. unfold selected_by_id in *. cbn [docs] in *.
  apply status_pattern_exact in Hstatus.
  destruct (find_split_inv _ _ _ Hsel) as (l1 & l2 & Hl & Hl1 & Hd).
  rewrite update_job_status_run, Hstatus, Hid, Hl, (set_first_at _ _ _ _ _ Hl1 Hd).
  cbn [negb fst snd].
  split; [reflexivity|]. split; [|split; [|split]].
  - exists l1, l2. rewrite <- Hl. auto.
  - cbn [with_docs jobs]. apply find_split; [exact Hl1|].
    rewrite matches_set by reflexivity. exact Hd.
  - apply lookup_union_Some_l, lookup_singleton_eq.
  - apply same_but_set.
Qed.

Lemma update_job_status_on_staffed_world :
  fst (update_job_status demo_platform "000000000000000000000001" "Filled"
         (snd (update_job_status demo_platform "000000000000000000000001" "Closed"
                 staffed_world)))
  = Return "Job status updated to Filled"
  /\ length (jobs (snd (update_job_status demo_platform "000000000000000000000001" "Closed"
                          staffed_world))) = 1.
Proof.
  split.
  - apply (update_job_status_sets_only_status demo_platform
             "000000000000000000000001" "Filled" (generate_ObjectId 1)
             ({[ "status" := VStr "Closed" ]}
                ∪ <["_id" := VOid (generate_ObjectId 1)]> (Job_dict backend_engineer))
             (snd (update_job_status demo_platform "000000000000000000000001" "Closed"
                     staffed_world))
             eq_refl eq_refl).
    right. right. reflexivity.
  - reflexivity.
Defined.

Lemma update_job_status_jobs (P : Platform) (job_id status : string) (w : world) :
  Forall2 (same_but "status") (jobs w) (jobs (snd (update_job_status P job_id status w)))
  /\ candidates (snd (update_job_status P job_id status w)) = candidates w.
Proof.
  assert (Forall2 (same_but "status") (jobs w) (jobs w)) as Hrefl.
  { apply Forall_Forall2_diag, Forall_forall. intros x _. apply same_but_refl. }
  rewrite update_job_status_run.
  destruct (negb _); [auto|].
  destruct (ObjectId_of_str job_id); [|auto].
  destruct (set_first _ _ (jobs w)) as [l|] eqn:E; [|auto].
  split; [|reflexivity]. cbn [snd with_docs jobs].
  eapply set_first_Forall2; [apply same_but_refl | | exact E].
  intros d. apply same_but_set.
Qed.

(** X9. The status of a job is write-only: whatever UpdateJobStatus did,
    GetJob and ListJobs answer as before for every id, and Apply is
    answered as before for every id and e-mail, so a job marked Closed
    or Filled still takes applications. *)
Theorem job_status_is_never_read (P : Platform) (job_id status : string) (w : world) :
  let w' := snd (update_job_status P job_id status w) in
  (forall any_id, fst (get_job P any_id w') = fst (get_job P any_id w))
  /\ fst (get_jobs w') = fst (get_jobs w)
  /\ (forall any_id e,
        fst (apply_for_job P any_id e w') = fst (apply_for_job P any_id e w)).
Proof.
  cbv zeta. destruct (update_job_status_jobs P job_id status w) as [Hjobs Hcands].
  set (w' := snd (update_job_status P job_id status w)) in *.
  assert (forall q a b, same_but "status" a b -> matches "_id" q b = matches "_id" q a)
    as Hm by (intros q a b; apply matches_same_but; discriminate).
  split; [|split].
  - intros any_id. rewrite !get_job_run.
    destruct (ObjectId_of_str any_id) as [oid|]; [|reflexivity].
    pose proof (find_Forall2 _ (matches "_id" (VOid (on_wire P oid))) _ _ (Hm _) Hjobs) as Hf.
    destruct (List.find _ (jobs w)) as [a|], (List.find _ (jobs w')) as [b|];
      try contradiction; [|reflexivity].
    rewrite (constant_fst _ w w') by apply constant_JobResponse_of_doc.
    apply JobResponse_of_doc_same_but, Hf.
  - unfold get_jobs, bind, find_to_list. cbn [docs].
    apply (mapM_Forall2 _ (same_but "status")).
    + apply constant_JobResponse_of_doc.
    + intros a b w0 Hab. apply JobResponse_of_doc_same_but, Hab.
    + apply Forall2_take, Hjobs.
  - intros any_id e. rewrite !apply_for_job_run.
    destruct (EmailStr P e) as [e'|]; [|reflexivity]. rewrite !apply_handler_run.
    destruct (ObjectId_of_str any_id) as [oid|]; [|reflexivity].
    unfold id_stored, email_registered. cbn [docs]. fold w'.
    rewrite (existsb_Forall2 _ _ _ _ (Hm _) Hjobs), Hcands.
    destruct (existsb _ (jobs w)); [|reflexivity].
    destruct (existsb _ (candidates w)); reflexivity.
Qed.

(** ** What a request can do to a collection *)

Lemma Forall2_same (R : document -> document -> Prop) (l : list document) :
  (forall d, R d d) -> Forall2 R l l.
Proof. intros H. apply Forall_Forall2_diag, Forall_forall. intros x _. apply H. Qed.

Section Steps.

Variable P : Platform.

(** A request either appends the document of a signup on an
    unregistered e-mail, or leaves every candidate document in place, up
    to its resume_path. *)
Lemma serve_candidates_cases (r : request) (w : world) :
  (exists body e e' h,
     r = PostSignup body
     /\ EmailStr P (email body) = Some e /\ EmailStr P e = Some e'
     /\ email_registered Candidates e w = false
     /\ candidates (serve P r w)
        = candidates w ++
            [stored_candidate (generate_ObjectId (oid_counter w)) e' (name body) h])
  \/ Forall2 (same_but "resume_path") (candidates w) (candidates (serve P r w)).
Proof.
  assert (Forall2 (same_but "resume_path") (candidates w) (candidates w)) as Hrefl
    by (apply Forall2_same, same_but_refl).
  destruct r; cbn [serve].
  - right. exact Hrefl.
  - destruct (signup_candidates P candidate w)
      as [-> | (e & e' & h & He & He' & Hfree & _ & Hnew)]; [right; exact Hrefl|].
    left. exists candidate, e, e', h. auto.
  - right. rewrite read_only_login. exact Hrefl.
  - right.
    destruct (apply_for_job_world P job_id candidate_email w) as [-> | (oid & e & _ & _ & ->)];
      exact Hrefl.
  - right.
    destruct (upload_resume_database P candidate_id file w)
      as (_ & _ & _ & _ & _ & [-> | (oid & l & _ & _ & E & ->)]); [exact Hrefl|].
    eapply set_first_Forall2; [apply same_but_refl | | exact E].
    intros d. apply same_but_set.
  - right. rewrite read_only_admin_login. exact Hrefl.
  - right. rewrite read_only_view_candidates. exact Hrefl.
  - right. rewrite read_only_view_resumes. exact Hrefl.
  - right. rewrite read_only_get_jobs. exact Hrefl.
  - right. rewrite read_only_get_job. exact Hrefl.
  - right. rewrite post_job_run. exact Hrefl.
  - right. rewrite update_job_run. destruct (ObjectId_of_str _); [|exact Hrefl].
    destruct (set_first _ _ _); exact Hrefl.
  - right. rewrite update_job_status_run. destruct (negb _); [exact Hrefl|].
    destruct (ObjectId_of_str _); [|exact Hrefl].
    destruct (set_first _ _ _); exact Hrefl.
  - right. rewrite read_only_get_candidates. exact Hrefl.
  - right. rewrite read_only_get_candidate. exact Hrefl.
Qed.

Lemma map_Forall2 {V} (f : document -> V) (R : document -> document -> Prop)
    (l l' : list document) :
  (forall a b, R a b -> f b = f a) -> Forall2 R l l' -> map f l' = map f l.
Proof.
  intros Hf. induction 1 as [|a b l l' Hab _ IH]; simpl; [reflexivity|].
  rewrite (Hf a b Hab), IH. reflexivity.
Qed.

Lemma email_listed (e : string) (l : list document) :
  In (Some (VStr e)) (map (fun d : document => d !! "email") l) ->
  existsb (matches "email" (VStr e)) l = true.
Proof.
  intros H. apply in_map_iff in H as (d & Hd & Hin).
  apply existsb_exists. exists d. split; [exact Hin|].
  apply matches_lookup. exact Hd.
Qed.

(** One request, served alone, under a validator that returns addresses
    in normal form, keeps the e-mail fields pairwise different. *)
Lemma serve_emails_unique (r : request) (w : world) :
  idempotent_validator P ->
  NoDup (emails Candidates w) -> NoDup (emails Candidates (serve P r w)).
Proof.
  unfold emails. cbn [docs]. intros Hidem Hnd.
  destruct (serve_candidates_cases r w)
    as [(body & e & e' & h & _ & He & He' & Hfree & ->) | Hsame].
  - assert (e' = e) as -> by (rewrite (Hidem _ _ He) in He'; congruence).
    rewrite map_app. cbn [map]. rewrite stored_candidate_email.
    apply NoDup_app. split; [exact Hnd|]. split; [|apply NoDup_singleton].
    intros x Hx Hin. apply list_elem_of_singleton in Hin. subst x.
    apply list_elem_of_In, email_listed in Hx.
    unfold email_registered in Hfree. cbn [docs] in Hfree. congruence.
  - rewrite (map_Forall2 (fun d : document => d !! "email") (same_but "resume_path")
               (candidates w) (candidates (serve P r w))); [exact Hnd | | exact Hsame].
    intros a b H. apply H. discriminate.
Qed.

End Steps.

Lemma filter_unique {V} `{EqDecision V} (f : document -> V) (p : document -> bool)
    (x : V) (l : list document) :
  (forall d, In d l -> p d = true -> f d = x) ->
  NoDup (map f l) -> length (List.filter p l) <= 1.
Proof.
  induction l as [|d l IH]; intros Hp Hnd; simpl; [lia|].
  cbn in Hnd. apply NoDup_cons in Hnd as [Hd Hnd].
  destruct (p d) eqn:E.
  - assert (List.filter p l = []) as ->; [|simpl; lia].
    destruct (List.filter p l) as [|d' t] eqn:Ef; [reflexivity|]. exfalso.
    assert (In d' (List.filter p l)) as Hin by (rewrite Ef; left; reflexivity).
    apply filter_In in Hin as [Hin Hpd']. apply Hd.
    rewrite (Hp d (or_introl eq_refl) E), <- (Hp d' (or_intror Hin) Hpd').
    apply list_elem_of_In, in_map, Hin.
  - apply IH; [|exact Hnd]. intros d' Hin. apply Hp. right. exact Hin.
Qed.

(** The handler of signup is its lookup followed, after the await, by
    the rest. *)
Lemma signup_handler_awaits (P : Platform) (c : Candidate) :
  signup_handler P c = (let* found := signup_found c in signup_resumed P c found).
Proof. reflexivity. Qed.

(** Two signups on one unregistered address whose lookups are both
    answered before either resumes both store their candidate. *)
Lemma signups_interleaved_run (P : Platform) (e : string) (p1 n1 p2 n2 h1 h2 : string)
    (w : world) :
  EmailStr P e = Some e ->
  email_registered Candidates e w = false ->
  bcrypt_handler_hash (bcrypt P) (urandom w) p1 = inr h1 ->
  bcrypt_handler_hash (bcrypt P) (N.succ (urandom w)) p2 = inr h2 ->
  let oid1 := generate_ObjectId (oid_counter w) in
  let oid2 := generate_ObjectId (N.succ (oid_counter w)) in
  let r := signups_interleaved P (mkCandidate e p1 n1) (mkCandidate e p2 n2) w in
  fst r = Return (Return (mkCandidateResponse (str_of_ObjectId oid1) e n1),
                  Return (mkCandidateResponse (str_of_ObjectId oid2) e n2))
  /\ candidates (snd r)
     = candidates w ++ [stored_candidate oid1 e n1 h1; stored_candidate oid2 e n2 h2].
Proof.
  intros He Hfree H1 H2. cbv zeta.
  unfold signups_interleaved, signup_found, bind, find_one. cbn [email docs].
  unfold email_registered in Hfree. cbn [docs] in Hfree.
  apply find_None_existsb in Hfree. rewrite Hfree.
  assert (forall c h w0,
            EmailStr P (email c) = Some (email c) ->
            bcrypt_handler_hash (bcrypt P) (urandom w0) (password c) = inr h ->
            signup_resumed P c None w0
            = (Return (mkCandidateResponse (str_of_ObjectId (generate_ObjectId (oid_counter w0)))
                         (email c) (name c)),
               with_oid_counter (N.succ (oid_counter w0))
                 (with_docs Candidates
                    (candidates w0 ++
                       [stored_candidate (generate_ObjectId (oid_counter w0))
                          (email c) (name c) h])
                    (with_urandom (N.succ (urandom w0)) w0)))) as Hres.
  { intros [e0 p0 n0] h w0 He0 Hh. cbn [email password name] in *.
    unfold signup_resumed. cbn [truthy email password name].
    unfold bind, get_password_hash, CryptContext_hash. rewrite Hh.
    unfold CandidateInDB_new, CandidateResponse_new, bind.
    change (Candidate_dict (mkCandidate e0 p0 n0) !! "email") with (Some (VStr e0)).
    change (Candidate_dict (mkCandidate e0 p0 n0) !! "password") with (Some (VStr p0)).
    change (Candidate_dict (mkCandidate e0 p0 n0) !! "name") with (Some (VStr n0)).
    rewrite !email_arg_str, He0.
    unfold str_arg, ret, insert_one. rewrite signup_document. reflexivity. }
  rewrite (Hres (mkCandidate e p1 n1) h1 w He H1).
  erewrite (Hres (mkCandidate e p2 n2) h2); [|exact He | exact H2].
  cbn [fst snd email name candidates with_oid_counter with_docs with_urandom oid_counter].
  split; [reflexivity|]. rewrite <- app_assoc. reflexivity.
Qed.

(** X10. Served one after the other, and under a validator that returns
    addresses in normal form, the requests keep the e-mail addresses of
    the candidates unique: in every world reached from one where the
    e-mail fields are pairwise different they still are, and in every
    world reached from a fresh deployment at most one candidate document
    answers the query on any e-mail.  The check is not atomic: when two
    signups on one unregistered address are interleaved at the await
    between the lookup and the insert, both pass the check and two
    candidate documents carry the address. *)
Theorem candidate_emails_stay_unique (P : Platform) (w0 w : world) :
  idempotent_validator P ->
  reachable P w0 w ->
  (NoDup (emails Candidates w0) -> NoDup (emails Candidates w))
  /\ (fresh_world w0 ->
      forall e, length (List.filter (matches "email" (VStr e)) (candidates w)) <= 1)
  /\ (forall e p1 n1 p2 n2 h1 h2,
        EmailStr P e = Some e ->
        email_registered Candidates e w = false ->
        bcrypt_handler_hash (bcrypt P) (urandom w) p1 = inr h1 ->
        bcrypt_handler_hash (bcrypt P) (N.succ (urandom w)) p2 = inr h2 ->
        let raced :=
          snd (signups_interleaved P (mkCandidate e p1 n1) (mkCandidate e p2 n2) w) in
        length (List.filter (matches "email" (VStr e)) (candidates raced)) = 2
        /\ (NoDup (emails Candidates w) -> ~ NoDup (emails Candidates raced))).
Proof.
  intros Hidem Hreach.
  assert (NoDup (emails Candidates w0) -> NoDup (emails Candidates w)) as Hnd.
  { intros H0. induction Hreach as [|r w _ IH]; [exact H0|].
    apply serve_emails_unique; [exact Hidem | exact IH]. }
  split; [exact Hnd|]. split.
  - intros Hfresh e.
    assert (Forall (fun d => candidate_shaped P d = true) (candidates w)) as Hshape.
    { apply (reachable_candidates P _ w0); auto using set_resume_path_shaped.
      - intros oid a e0 n h He. apply (stored_candidate_shaped P oid e0 e0), (Hidem a), He.
      - destruct Hfresh as [-> _]. constructor. }
    apply (filter_unique (fun d : document => d !! "email") _ (Some (VStr e))).
    + intros d Hin Hm.
      apply list_elem_of_In in Hin. rewrite Forall_forall in Hshape.
      specialize (Hshape d Hin). unfold candidate_shaped in Hshape.
      rewrite !andb_true_iff in Hshape. destruct Hshape as [[_ He] _].
      apply is_email_Some in He as (s & _ & Hs & _). rewrite Hs in *.
      unfold matches, field_matches in Hm. rewrite Hs in Hm.
      rewrite orb_false_r in Hm. apply bool_decide_eq_true in Hm. congruence.
    + apply Hnd. unfold emails. destruct Hfresh as [Hc _]. cbn [docs]. rewrite Hc.
      constructor.
  - intros e p1 n1 p2 n2 h1 h2 He Hfree H1 H2. cbv zeta.
    destruct (signups_interleaved_run P e p1 n1 p2 n2 h1 h2 w He Hfree H1 H2) as [_ Hc].
    cbv zeta in Hc. unfold emails. cbn [docs]. rewrite Hc. split.
    + unfold email_registered in Hfree. cbn [docs] in Hfree.
      rewrite List.filter_app, (filter_none _ _ Hfree). cbn [List.filter app].
      rewrite !(matches_lookup "email" (VStr e)) by apply stored_candidate_email.
      reflexivity.
    + intros _ Hdup. rewrite map_app in Hdup. apply NoDup_app in Hdup as (_ & _ & Hdup).
      cbn [map] in Hdup. rewrite !stored_candidate_email in Hdup.
      apply NoDup_cons in Hdup as [Hin _]. apply Hin. left.
Qed.

Lemma candidate_emails_unique_after_two_signups :
  NoDup (emails Candidates
           (serve demo_platform (PostSignup (mkCandidate "a@X.com" "other" "Eve"))
              (serve demo_platform (PostSignup alice) empty_world)))
  /\ length (candidates
               (serve demo_platform (PostSignup (mkCandidate "a@X.com" "other" "Eve"))
                  (serve demo_platform (PostSignup alice) empty_world))) = 1
  /\ length (candidates
               (snd (signups_interleaved demo_platform alice
                       (mkCandidate "a@x.com" "other" "Eve") empty_world))) = 2.
Proof.
  split; [|split; reflexivity].
  apply (candidate_emails_stay_unique demo_platform empty_world).
  - exact demo_validator_idempotent.
  - apply reachable_serve, reachable_serve, reachable_start.
  - constructor.
Defined.

(** ** Nothing is deleted *)

Lemma set_first_keeps (k : string) (p : document -> bool) (upd : document)
    (l l' : list document) :
  upd !! k = None -> set_first p upd l = Some l' ->
  map (fun d : document => d !! k) l' = map (fun d : document => d !! k) l.
Proof.
  intros Hk Hset.
  apply (map_Forall2 _ (fun a b : document => b !! k = a !! k)); [auto|].
  eapply set_first_Forall2; [reflexivity | | exact Hset].
  intros d. apply lookup_union_r, Hk.
Qed.

Lemma grows_by_one_same {V} (l : list V) : grows_by_one l l.
Proof. exists []. rewrite app_nil_r. split; [reflexivity | simpl; lia]. Qed.

Lemma grows_by_one_snoc {V} (l : list V) (x : V) : grows_by_one l (l ++ [x]).
Proof. exists [x]. split; [reflexivity | simpl; lia]. Qed.

(** What one request does to the four collections: the admins stay as
    they are; each other collection keeps its documents' identifiers in
    place and gains at most one document at its end; the applications
    themselves are never rewritten. *)
Lemma serve_documents (P : Platform) (r : request) (w : world) :
  admins (serve P r w) = admins w
  /\ grows_by_one (identifiers Candidates w) (identifiers Candidates (serve P r w))
  /\ grows_by_one (identifiers Jobs w) (identifiers Jobs (serve P r w))
  /\ grows_by_one (applications w) (applications (serve P r w)).
Proof.
  assert (admins w = admins w
          /\ grows_by_one (identifiers Candidates w) (identifiers Candidates w)
          /\ grows_by_one (identifiers Jobs w) (identifiers Jobs w)
          /\ grows_by_one (applications w) (applications w)) as Hsame
    by (repeat split; apply grows_by_one_same).
  unfold identifiers in *. cbn [docs] in *.
  destruct r; cbn [serve].
  - exact Hsame.
  - destruct (signup_keeps P candidate w) as (-> & -> & -> & _).
    destruct (signup_candidates P candidate w) as [-> | (e & e' & h & _ & _ & _ & _ & ->)];
      [exact Hsame|].
    rewrite map_app.
    repeat split; first [apply grows_by_one_same | apply grows_by_one_snoc].
  - rewrite read_only_login. exact Hsame.
  - destruct (apply_for_job_world P job_id candidate_email w) as [-> | (oid & e & _ & _ & ->)];
      [exact Hsame|].
    cbn [snd with_oid_counter with_docs admins candidates jobs applications].
    repeat split; first [apply grows_by_one_same | apply grows_by_one_snoc].
  - destruct (upload_resume_database P candidate_id file w)
      as (-> & -> & -> & _ & _ & [-> | (oid & l & _ & _ & E & ->)]); [exact Hsame|].
    rewrite (fun H => set_first_keeps "_id" _ _ _ _ H E) by reflexivity.
    repeat split; apply grows_by_one_same.
  - rewrite read_only_admin_login. exact Hsame.
  - rewrite read_only_view_candidates. exact Hsame.
  - rewrite read_only_view_resumes. exact Hsame.
  - rewrite read_only_get_jobs. exact Hsame.
  - rewrite read_only_get_job. exact Hsame.
  - rewrite post_job_run.
    cbn [snd with_oid_counter with_docs admins candidates jobs applications].
    rewrite map_app.
    repeat split; first [apply grows_by_one_same | apply grows_by_one_snoc].
  - rewrite update_job_run. destruct (ObjectId_of_str _); [|exact Hsame].
    destruct (set_first _ _ (jobs w)) as [l|] eqn:E; [|exact Hsame].
    cbn [snd with_docs admins candidates jobs applications].
    rewrite (fun H => set_first_keeps "_id" _ _ _ _ H E) by reflexivity.
    repeat split; apply grows_by_one_same.
  - rewrite update_job_status_run. destruct (negb _); [exact Hsame|].
    destruct (ObjectId_of_str _); [|exact Hsame].
    destruct (set_first _ _ (jobs w)) as [l|] eqn:E; [|exact Hsame].
    cbn [snd with_docs admins candidates jobs applications].
    rewrite (fun H => set_first_keeps "_id" _ _ _ _ H E) by reflexivity.
    repeat split; apply grows_by_one_same.
  - rewrite read_only_get_candidates. exact Hsame.
  - rewrite read_only_get_candidate. exact Hsame.
Qed.

(** X11. No route deletes a document, moves it or changes its
    identifier, and no route writes to the admins collection: after one
    request the identifiers of the candidates and of the jobs, and the
    applications themselves, are those before the request with at most
    one more at the end; so in every reachable world the admins are the
    initial ones and every collection starts with what it held. *)
Theorem documents_are_never_deleted (P : Platform) (w0 w : world) :
  reachable P w0 w ->
  (forall r,
     admins (serve P r w) = admins w
     /\ grows_by_one (identifiers Candidates w) (identifiers Candidates (serve P r w))
     /\ grows_by_one (identifiers Jobs w) (identifiers Jobs (serve P r w))
     /\ grows_by_one (applications w) (applications (serve P r w)))
  /\ admins w = admins w0
  /\ (exists added, identifiers Candidates w = identifiers Candidates w0 ++ added)
  /\ (exists added, identifiers Jobs w = identifiers Jobs w0 ++ added)
  /\ (exists added, applications w = applications w0 ++ added).
Proof.
  intros Hreach. split; [intros r; apply serve_documents|].
  induction Hreach as [|r w _ (Ha & [ac Hc] & [aj Hj] & [ap Hp])].
  - repeat split; try (exists []; rewrite app_nil_r; reflexivity).
  - destruct (serve_documents P r w) as (Ha' & (c & Hc' & _) & (j & Hj' & _) & (p & Hp' & _)).
    split; [congruence|]. split; [|split].
    + exists (ac ++ c). rewrite Hc', Hc, app_assoc. reflexivity.
    + exists (aj ++ j). rewrite Hj', Hj, app_assoc. reflexivity.
    + exists (ap ++ p). rewrite Hp', Hp, app_assoc. reflexivity.
Qed.

Lemma documents_kept_on_staffed_world :
  admins (serve demo_platform (PutJob "000000000000000000000001" backend_engineer)
            (serve demo_platform (PostApply "000000000000000000000001" "a@x.com")
               staffed_world))
  = admins staffed_world
  /\ exists added,
       identifiers Jobs
         (serve demo_platform (PutJob "000000000000000000000001" backend_engineer)
            (serve demo_platform (PostApply "000000000000000000000001" "a@x.com")
               staffed_world))
       = identifiers Jobs staffed_world ++ added.
Proof.
  destruct (documents_are_never_deleted demo_platform staffed_world
              (serve demo_platform (PutJob "000000000000000000000001" backend_engineer)
                 (serve demo_platform (PostApply "000000000000000000000001" "a@x.com")
                    staffed_world)))
    as (_ & Ha & _ & Hj & _).
  - apply reachable_serve, reachable_serve, reachable_start.
  - split; [exact Ha | exact Hj].
Defined.

(** X12. The routes that read write nothing: the welcome route, both
    logins (no session or token is stored), the three list routes,
    ViewResumes and the two lookups by id leave the database, the
    identifier generator, the salt source and the file system as they
    were (they make no call to it), whatever they answer. *)
Theorem reading_routes_write_nothing (P : Platform) (w : world) :
  snd (root w) = w
  /\ (forall d, snd (login P d w) = w)
  /\ (forall d, snd (admin_login P d w) = w)
  /\ snd (view_candidates P w) = w
  /\ snd (view_resumes w) = w
  /\ snd (get_jobs w) = w
  /\ (forall job_id, snd (get_job P job_id w) = w)
  /\ snd (get_candidates P w) = w
  /\ (forall candidate_id, snd (get_candidate P candidate_id w) = w).
Proof.
  split; [reflexivity|].
  split; [intros d; apply read_only_login|].
  split; [intros d; apply read_only_admin_login|].
  split; [apply read_only_view_candidates|].
  split; [apply read_only_view_resumes|].
  split; [apply read_only_get_jobs|].
  split; [intros j; apply read_only_get_job|].
  split; [apply read_only_get_candidates|].
  intros c. apply read_only_get_candidate.
Qed.

(** X13. A login that is refused says the same thing whatever the cause
    in the database: the request is answered 422 exactly when the
    validator rejects the address; every HTTP error of Login and
    AdminLogin is the status 400 with the detail "Invalid email or
    password", and that is the answer for a validated address that
    selects no document as for a password the context does not verify
    against the selected hash. *)
Theorem login_refusals_are_uniform (P : Platform) (d : LoginData) (w : world) :
  (fst (login P d w) = RequestValidationError <-> EmailStr P (login_email d) = None)
  /\ (fst (admin_login P d w) = RequestValidationError
      <-> EmailStr P (login_email d) = None)
  /\ (forall s m, fst (login P d w) = HTTPException s m ->
        s = 400 /\ m = "Invalid email or password")
  /\ (forall s m, fst (admin_login P d w) = HTTPException s m ->
        s = 400 /\ m = "Invalid email or password")
  /\ (forall e, EmailStr P (login_email d) = Some e ->
      let refused (c : collection) :=
        selected_by_email c e w = None
        \/ exists doc h, selected_by_email c e w = Some doc
                         /\ doc !! "hashed_password" = Some h
                         /\ fst (verify_password (bcrypt P) (login_password d) h w)
                            = Return false in
      (refused Candidates ->
       fst (login P d w) = HTTPException 400 "Invalid email or password")
      /\ (refused Admins ->
          fst (admin_login P d w) = HTTPException 400 "Invalid email or password")).
Proof.
  assert (forall c d' ok,
            (forall s m, fst (check_credentials (bcrypt P) c d' ok w) = HTTPException s m ->
               s = 400 /\ m = "Invalid email or password")
            /\ fst (check_credentials (bcrypt P) c d' ok w) <> RequestValidationError) as H.
  { intros c d' ok. rewrite check_credentials_run.
    destruct (List.find _ (docs c w)) as [doc|].
    2:{ split; [intros s m [= <- <-]; auto | discriminate]. }
    destruct (doc !! "hashed_password") as [h|].
    2:{ split; discriminate. }
    destruct (verify_password_outcome (bcrypt P) (login_password d') h w) as [Hrv Hhttp].
    destruct (fst (verify_password (bcrypt P) (login_password d') h w)) as [[|]|s' m'| |e];
      cbn [fst].
    - split; discriminate.
    - split; [intros s m [= <- <-]; auto | discriminate].
    - destruct (Hhttp s' m' eq_refl).
    - destruct (Hrv eq_refl).
    - split; discriminate. }
  rewrite login_run, admin_login_run.
  destruct (EmailStr P (login_email d)) as [e|] eqn:He.
  - destruct (H Candidates (mkLoginData e (login_password d)) "Login successful") as [H1 H2].
    destruct (H Admins (mkLoginData e (login_password d)) "Admin login successful")
      as [H3 H4].
    split; [split; [intros Hx; destruct (H2 Hx) | discriminate]|].
    split; [split; [intros Hx; destruct (H4 Hx) | discriminate]|].
    split; [exact H1|]. split; [exact H3|].
    intros e' [= <-]. cbv zeta.
    split; intros Href; apply check_credentials_bad_request; exact Href.
  - cbn [fst].
    split; [split; reflexivity|]. split; [split; reflexivity|].
    split; [discriminate|]. split; [discriminate|]. discriminate.
Qed.

(** ** When the list routes answer *)

Lemma mapM_each_returned {A B} (f : A -> M B) (l : list A) (w : world) (bs : list B) :
  (forall a, read_only (f a)) ->
  fst (mapM f l w) = Return bs ->
  Forall (fun a => exists b, fst (f a w) = Return b) l.
Proof.
  intros Hro. revert bs. induction l as [|a l IH]; intros bs; simpl; [constructor|].
  unfold bind at 1. pose proof (Hro a w) as Hw.
  destruct (f a w) as [[b| | |] w1] eqn:Ea; try discriminate. simpl in Hw. subst w1.
  unfold bind at 1. destruct (mapM f l w) as [[bs'| | |] w2] eqn:E; try discriminate.
  intros _. constructor.
  - exists b. rewrite Ea. reflexivity.
  - apply (IH bs'). reflexivity.
Qed.

Lemma candidate_returned_shaped (P : Platform) (d : document) (w : world)
    (r : CandidateResponse) :
  fst (CandidateResponse_of_doc P d w) = Return r -> candidate_shaped P d = true.
Proof.
  unfold CandidateResponse_of_doc, CandidateResponse_new, candidate_shaped, has_key, bind,
    getitem.
  destruct (d !! "_id") as [i|]; [|discriminate].
  destruct (d !! "email") as [ve|]; [|discriminate].
  destruct (d !! "name") as [vn|]; [|discriminate].
  unfold ret at 1 2 3.
  destruct ve as [|s| |]; try discriminate.
  rewrite email_arg_str. cbn [is_email].
  destruct (EmailStr P s); [|discriminate].
  destruct vn as [|n| |]; try discriminate. reflexivity.
Qed.

Lemma job_returned_shaped (d : document) (w : world) (r : JobResponse) :
  fst (JobResponse_of_doc d w) = Return r -> job_shaped d = true.
Proof.
  unfold JobResponse_of_doc, JobResponse_of_kwargs, job_shaped, has_key, bind, getitem.
  destruct (d !! "_id"); [|discriminate]. cbn [ret fst snd].
  destruct (d !! "id"); [discriminate|].
  destruct (d !! "title") as [[]|]; try discriminate.
  destruct (d !! "description") as [[]|]; try discriminate.
  destruct (d !! "department") as [[]|]; try discriminate.
  destruct (d !! "location") as [[]|]; try discriminate.
  destruct (d !! "employment_type") as [[]|]; try discriminate.
  destruct (d !! "salary_range") as [[]|]; try discriminate;
    (destruct (d !! "application_deadline") as [[]|]; try discriminate;
     (destruct (d !! "required_skills") as [[]|]; try discriminate;
      (destruct (d !! "additional_info") as [[]|]; try discriminate; reflexivity))).
Qed.

(** X14. The list routes are all or nothing over the first 100
    documents: GetCandidates and ViewCandidates return exactly when each
    of the first 100 candidate documents has an _id, a string field
    email that the validator accepts and a string field name, ListJobs
    exactly when each of the first 100 job documents has the fields of
    the Job schema with their types (and no field named id).  One
    document out of shape among them makes the whole request fail;
    documents beyond the hundredth do not matter. *)
Theorem list_routes_return_iff_shaped (P : Platform) (w : world) :
  ((exists l, fst (get_candidates P w) = Return l)
   <-> Forall (fun d => candidate_shaped P d = true) (take 100 (candidates w)))
  /\ ((exists l, fst (view_candidates P w) = Return l)
      <-> Forall (fun d => candidate_shaped P d = true) (take 100 (candidates w)))
  /\ ((exists l, fst (get_jobs w) = Return l)
      <-> Forall (fun d => job_shaped d = true) (take 100 (jobs w))).
Proof.
  assert ((exists l, fst (mapM (CandidateResponse_of_doc P) (take 100 (candidates w)) w)
                     = Return l)
          <-> Forall (fun d => candidate_shaped P d = true) (take 100 (candidates w))) as Hc.
  { split.
    - intros [l Hl].
      apply mapM_each_returned in Hl; [|apply read_only_CandidateResponse_of_doc].
      eapply Forall_impl; [exact Hl|]. intros d [r Hr].
      apply (candidate_returned_shaped P d w r Hr).
    - intros H.
      destruct (mapM_total (CandidateResponse_of_doc P) (take 100 (candidates w)) w)
        as [l Hl].
      + eapply Forall_impl; [exact H|]. intros d Hd. apply candidate_shaped_returns, Hd.
      + exists l. rewrite Hl. reflexivity. }
  split; [exact Hc|]. split; [exact Hc|].
  change (get_jobs w) with (mapM JobResponse_of_doc (take 100 (jobs w)) w).
  split.
  - intros [l Hl].
    apply mapM_each_returned in Hl; [|apply read_only_JobResponse_of_doc].
    eapply Forall_impl; [exact Hl|]. intros d [r Hr].
    apply (job_returned_shaped d w r Hr).
  - intros H.
    destruct (mapM_total JobResponse_of_doc (take 100 (jobs w)) w) as [l Hl].
    + eapply Forall_impl; [exact H|]. intros d Hd. apply job_shaped_returns, Hd.
    + exists l. rewrite Hl. reflexivity.
Qed.

Lemma list_routes_on_staffed_world :
  (exists l, fst (get_candidates demo_platform staffed_world) = Return l)
  /\ (exists l, fst (get_jobs staffed_world) = Return l).
Proof.
  destruct (list_routes_return_iff_shaped demo_platform staffed_world) as (Hc & _ & Hj).
  split; [apply Hc | apply Hj]; repeat constructor.
Defined.

(** A candidate record created out of band whose e-mail field is no
    address makes the candidate lists fail, whatever the validator. *)
Example list_routes_fail_on_invalid_address (P : Platform) :
  fst (get_candidates P
         (mkWorld [stored_candidate (generate_ObjectId 0) "bob" "B" "$2b$12$0000$p2"]
            [] [] [] 1 0 []))
  = Raise ValidationError.
Proof. reflexivity. Qed.

(** ** New documents in the lists *)

Lemma mapM_app_returned {A B} (f : A -> M B) (l1 l2 : list A) (w : world)
    (bs1 bs2 : list B) :
  (forall a, read_only (f a)) ->
  fst (mapM f l1 w) = Return bs1 -> fst (mapM f l2 w) = Return bs2 ->
  fst (mapM f (l1 ++ l2) w) = Return (bs1 ++ bs2).
Proof.
  intros Hro. revert bs1. induction l1 as [|a l1 IH]; intros bs1 H1 H2.
  - injection H1 as <-. exact H2.
  - cbn [mapM app] in *. unfold bind in H1 |- *. pose proof (Hro a w) as Hw.
    destruct (f a w) as [[b| | |] w1]; try discriminate. simpl in Hw. subst w1.
    destruct (mapM f l1 w) as [[bs'| | |] w2] eqn:E; try discriminate.
    injection H1 as <-. specialize (IH bs' eq_refl H2).
    pose proof (read_only_mapM f (l1 ++ l2) Hro w) as Hw'.
    destruct (mapM f (l1 ++ l2) w) as [r w3]. simpl in IH, Hw'. subst r w3. reflexivity.
Qed.

Lemma list_after_append {B} (f : document -> M B) (l : list document) (x : document)
    (b : B) (w w' : world) :
  (forall a, constant (f a)) ->
  fst (f x w) = Return b ->
  (length l < 100 -> forall bs,
     fst (mapM f (take 100 l) w) = Return bs ->
     fst (mapM f (take 100 (l ++ [x])) w') = Return (bs ++ [b]))
  /\ (100 <= length l ->
      fst (mapM f (take 100 (l ++ [x])) w') = fst (mapM f (take 100 l) w)).
Proof.
  intros Hc Hx.
  assert (forall a, read_only (f a)) as Hro.
  { intros a w0. destruct (Hc a) as [r Hr]. rewrite Hr. reflexivity. }
  split.
  - intros Hlen bs Hbs.
    rewrite (constant_fst _ w w') by (apply constant_mapM, Hc).
    rewrite take_ge in Hbs by lia.
    rewrite take_ge by (rewrite length_app; simpl; lia).
    apply (mapM_app_returned f l [x] w bs [b] Hro Hbs).
    simpl. unfold bind. pose proof (Hro x w) as Hw.
    destruct (f x w) as [r w1]. simpl in Hx, Hw. subst r w1. reflexivity.
  - intros Hlen. rewrite take_app_le by exact Hlen.
    apply constant_fst, constant_mapM, Hc.
Qed.

(** X15. A new candidate shows in the candidate lists only while there
    is room: after a signup that stored a candidate (the address
    validates to a normal form that was not registered, the bcrypt
    handler accepted the password), GetCandidates and ViewCandidates
    return what they returned before followed by the new candidate when
    fewer than 100 candidates were stored, and answer exactly as before
    when 100 or more were. *)
Theorem signup_and_the_candidate_lists
    (P : Platform) (body : Candidate) (e h : string) (w : world) :
  normalises P (email body) e ->
  email_registered Candidates e w = false ->
  bcrypt_handler_hash (bcrypt P) (urandom w) (password body) = inr h ->
  let w' := snd (signup P body w) in
  let created :=
    mkCandidateResponse (str_of_ObjectId (generate_ObjectId (oid_counter w)))
      e (name body) in
  fst (signup P body w) = Return created
  /\ (length (candidates w) < 100 -> forall l,
      fst (get_candidates P w) = Return l ->
      fst (get_candidates P w') = Return (l ++ [created])
      /\ fst (view_candidates P w') = Return (l ++ [created]))
  /\ (100 <= length (candidates w) ->
      fst (get_candidates P w') = fst (get_candidates P w)
      /\ fst (view_candidates P w') = fst (view_candidates P w)).
Proof.
  intros Hnorm Hfree Hh. cbv zeta.
  set (x := stored_candidate (generate_ObjectId (oid_counter w)) e (name body) h).
  pose proof (signup_stores P body e h w Hnorm Hfree Hh) as Hsign.
  assert (candidates (snd (signup P body w)) = candidates w ++ [x]) as Hnew
    by (rewrite Hsign; reflexivity).
  split; [rewrite Hsign; reflexivity|].
  assert (forall w0, get_candidates P w0
                     = mapM (CandidateResponse_of_doc P) (take 100 (candidates w0)) w0)
    as Hrun by reflexivity.
  assert (forall w0, view_candidates P w0
                     = mapM (CandidateResponse_of_doc P) (take 100 (candidates w0)) w0)
    as Hview by reflexivity.
  rewrite ?Hview, ?Hrun, Hnew.
  destruct (list_after_append (CandidateResponse_of_doc P) (candidates w) x
              (mkCandidateResponse (str_of_ObjectId (generate_ObjectId (oid_counter w)))
                 e (name body))
              w (snd (signup P body w)) (constant_CandidateResponse_of_doc P))
    as [Hroom Hfull].
  { unfold x. rewrite (CandidateResponse_of_stored P _ e e) by apply Hnorm. reflexivity. }
  split.
  - intros Hlen l Hl. split; apply (Hroom Hlen l Hl).
  - intros Hlen. split; apply (Hfull Hlen).
Qed.

Lemma signup_shows_in_small_list :
  fst (get_candidates demo_platform
         (snd (signup demo_platform (mkCandidate "b@X.com" "p2" "B") staffed_world)))
  = Return [mkCandidateResponse "000000000000000000000000" "a@x.com" "A";
            mkCandidateResponse "000000000000000000000002" "b@x.com" "B"].
Proof.
  destruct (signup_and_the_candidate_lists demo_platform (mkCandidate "b@X.com" "p2" "B")
              "b@x.com" "$2b$12$0100$p2" staffed_world
              (conj eq_refl eq_refl) eq_refl eq_refl) as (_ & Hroom & _).
  assert (length (candidates staffed_world) < 100) as Hlen by (vm_compute; lia).
  exact (proj1 (Hroom Hlen [mkCandidateResponse "000000000000000000000000" "a@x.com" "A"]
                  eq_refl)).
Defined.

(** X16. A new job shows in ListJobs only while there is room: after
    PostJob, ListJobs returns what it returned before followed by the
    posted job when fewer than 100 jobs were stored, and answers exactly
    as before when 100 or more were. *)
Theorem post_job_and_the_job_list (job : Job) (w : world) :
  let w' := snd (post_job job w) in
  let posted := mkJobResponse (str_of_ObjectId (generate_ObjectId (oid_counter w))) job in
  (length (jobs w) < 100 -> forall l,
     fst (get_jobs w) = Return l -> fst (get_jobs w') = Return (l ++ [posted]))
  /\ (100 <= length (jobs w) -> fst (get_jobs w') = fst (get_jobs w)).
Proof.
  cbv zeta.
  set (x := <["_id" := VOid (generate_ObjectId (oid_counter w))]> (Job_dict job)).
  assert (jobs (snd (post_job job w)) = jobs w ++ [x]) as Hnew
    by (rewrite post_job_run; reflexivity).
  assert (forall w0, get_jobs w0 = mapM JobResponse_of_doc (take 100 (jobs w0)) w0)
    as Hrun by reflexivity.
  rewrite !Hrun, Hnew.
  apply (list_after_append JobResponse_of_doc (jobs w) x
           (mkJobResponse (str_of_ObjectId (generate_ObjectId (oid_counter w))) job)
           w (snd (post_job job w)) constant_JobResponse_of_doc).
  unfold x. rewrite JobResponse_of_posted. reflexivity.
Qed.

Lemma post_job_shows_in_small_list :
  fst (get_jobs (snd (post_job backend_engineer staffed_world)))
  = Return [mkJobResponse "000000000000000000000001" backend_engineer;
            mkJobResponse "000000000000000000000002" backend_engineer].
Proof.
  destruct (post_job_and_the_job_list backend_engineer staffed_world) as [Hroom _].
  assert (length (jobs staffed_world) < 100) as Hlen by (vm_compute; lia).
  exact (Hroom Hlen [mkJobResponse "000000000000000000000001" backend_engineer] eq_refl).
Defined.

(** ** Uploading again *)

(** X17. When a second resume is uploaded for the same candidate and the
    file system accepts the calls of both uploads, both succeed and the
    last upload wins in the database: the document points at the second
    path and is otherwise as before the first upload, every other
    candidate document stays as it is, and the service has made four
    calls to the file system, the directory and the write of the first
    upload, then those of the second; it never removes a file. *)
Theorem upload_resume_twice
    (P : Platform) (candidate_id : string) (first second : UploadFile) (oid : ObjectId)
    (d : document) (w : world) :
  ObjectId_of_str candidate_id = Some oid ->
  selected_by_id Candidates (on_wire P oid) w = Some d ->
  fs_accepts P (fs_log w) (resume_path_of candidate_id first) (content first) ->
  fs_accepts P
    (fs_log w ++ resume_written (resume_path_of candidate_id first) (content first))
    (resume_path_of candidate_id second) (content second) ->
  let path1 := resume_path_of candidate_id first in
  let path2 := resume_path_of candidate_id second in
  let d2 := {[ "resume_path" := VStr path2 ]} ∪ ({[ "resume_path" := VStr path1 ]} ∪ d) in
  let r1 := upload_resume P candidate_id first w in
  let r2 := upload_resume P candidate_id second (snd r1) in
  fst r1 = Return "Resume uploaded successfully"
  /\ fst r2 = Return "Resume uploaded successfully"
  /\ fs_log (snd r2)
     = fs_log w ++ resume_written path1 (content first)
               ++ resume_written path2 (content second)
  /\ (exists l1 l2,
        candidates w = l1 ++ d :: l2
        /\ existsb (matches "_id" (VOid (on_wire P oid))) l1 = false
        /\ candidates (snd r2) = l1 ++ d2 :: l2)
  /\ selected_by_id Candidates (on_wire P oid) (snd r2) = Some d2
  /\ d2 !! "resume_path" = Some (VStr path2)
  /\ same_but "resume_path" d d2.
Proof.
  intros Hid Hsel Hfs1 Hfs2. cbv zeta. unfold selected_by_id in *. cbn [docs] in *.
  destruct (find_split_inv _ _ _ Hsel) as (l1 & l2 & Hl & Hl1 & Hd).
  rewrite (upload_resume_selected P candidate_id first oid l1 l2 d w Hid Hl Hl1 Hd Hfs1).
  cbn [fst snd].
  set (d1 := {[ "resume_path" := VStr (resume_path_of candidate_id first) ]} ∪ d).
  assert (matches "_id" (VOid (on_wire P oid)) d1 = true) as Hd1
    by (unfold d1; rewrite matches_set by reflexivity; exact Hd).
  erewrite (upload_resume_selected P candidate_id second oid l1 l2 d1);
    [|exact Hid | reflexivity | exact Hl1 | exact Hd1 | exact Hfs2].
  cbn [fst snd with_docs with_fs_log fs_log candidates].
  split; [reflexivity|]. split; [reflexivity|].
  split; [rewrite <- app_assoc; reflexivity|].
  split; [exists l1, l2; auto|].
  split; [|split].
  - apply find_split; [exact Hl1|]. rewrite matches_set by reflexivity. exact Hd1.
  - apply lookup_union_Some_l, lookup_singleton_eq.
  - intros k Hk. unfold d1. rewrite !set_resume_path_lookup by exact Hk. reflexivity.
Qed.

Lemma upload_resume_twice_on_staffed_world :
  let w2 :=
    snd (upload_resume demo_platform "000000000000000000000000" (mkUploadFile "cv2.pdf" "two")
           (snd (upload_resume demo_platform "000000000000000000000000"
                   (mkUploadFile "cv1.pdf" "one") staffed_world))) in
  fs_log w2
  = [(Makedirs "resumes", None);
     (WriteFile "resumes/000000000000000000000000_cv1.pdf" "one", None);
     (Makedirs "resumes", None);
     (WriteFile "resumes/000000000000000000000000_cv2.pdf" "two", None)]
  /\ selected_by_id Candidates (generate_ObjectId 0) w2
     = Some ({[ "resume_path" := VStr "resumes/000000000000000000000000_cv2.pdf" ]}
             ∪ ({[ "resume_path" := VStr "resumes/000000000000000000000000_cv1.pdf" ]}
                ∪ stored_candidate (generate_ObjectId 0) "a@x.com" "A" "$2b$12$0000$p1")).
Proof.
  cbv zeta.
  destruct (upload_resume_twice demo_platform "000000000000000000000000"
              (mkUploadFile "cv1.pdf" "one") (mkUploadFile "cv2.pdf" "two")
              (generate_ObjectId 0)
              (stored_candidate (generate_ObjectId 0) "a@x.com" "A" "$2b$12$0000$p1")
              staffed_world eq_refl eq_refl (conj eq_refl eq_refl) (conj eq_refl eq_refl))
    as (_ & _ & H3 & _ & H5 & _).
  split; [exact H3 | exact H5].
Defined.

(** X18. From a fresh deployment on the list routes always answer, when
    requests are served one after the other and the validator returns
    addresses in normal form: in every world the service then reaches
    from an empty candidates and jobs collection, ListJobs,
    GetCandidates, ViewCandidates and ViewResumes return a list and
    change nothing, since every document the routes store and update
    has the fields the response schemas read. *)
Theorem list_routes_answer_after_fresh_start (P : Platform) (w0 w : world) :
  idempotent_validator P ->
  fresh_world w0 -> reachable P w0 w ->
  (exists l, get_jobs w = (Return l, w) /\ length l = Nat.min 100 (length (jobs w)))
  /\ (exists l, get_candidates P w = (Return l, w)
                /\ length l = Nat.min 100 (length (candidates w)))
  /\ (exists l, view_candidates P w = (Return l, w)
                /\ length l = Nat.min 100 (length (candidates w)))
  /\ (exists l, view_resumes w = (Return l, w) /\ length l <= 100).
Proof.
  intros Hidem Hfresh Hreach.
  destruct (list_routes_return_after_fresh_start P w0 w Hidem Hfresh Hreach)
    as ([lj Hj] & [lc Hc] & [lv Hv] & [lr Hr]).
  assert (forall {X} (f : document -> M X) (l : list document) (bs : list X),
            mapM f (take 100 l) w = (Return bs, w) ->
            length bs = Nat.min 100 (length l)) as Hlen.
  { intros X f l bs H. rewrite <- length_take. apply (mapM_length f _ w). rewrite H.
    reflexivity. }
  split; [exists lj; split; [exact Hj | apply (Hlen _ JobResponse_of_doc), Hj]|].
  split; [exists lc; split; [exact Hc | apply (Hlen _ (CandidateResponse_of_doc P)), Hc]|].
  split; [exists lv; split; [exact Hv | apply (Hlen _ (CandidateResponse_of_doc P)), Hv]|].
  exists lr. split; [exact Hr|].
  assert (fst (view_resumes w) = Return lr) as H by (rewrite Hr; reflexivity).
  apply mapM_length in H. rewrite H.
  etransitivity; [apply filter_length_le|]. rewrite length_take. lia.
Qed.

Lemma list_routes_answer_on_reached_world :
  exists l,
    get_candidates demo_platform
      (serve demo_platform
         (PostResume "000000000000000000000000" (mkUploadFile "cv.pdf" "%PDF"))
         (serve demo_platform (PostSignup alice) empty_world))
    = (Return l,
       serve demo_platform
         (PostResume "000000000000000000000000" (mkUploadFile "cv.pdf" "%PDF"))
         (serve demo_platform (PostSignup alice) empty_world))
    /\ length l = 1.
Proof.
  destruct (list_routes_answer_after_fresh_start demo_platform empty_world
              (serve demo_platform
                 (PostResume "000000000000000000000000" (mkUploadFile "cv.pdf" "%PDF"))
                 (serve demo_platform (PostSignup alice) empty_world)))
    as (_ & [l [Hl Hlen]] & _).
  - exact demo_validator_idempotent.
  - repeat split.
  - apply reachable_serve, reachable_serve, reachable_start.
  - exists l. split; [exact Hl | exact Hlen].
Defined.

(** ** From signup to application *)

Lemma existsb_snoc {A} (p : A -> bool) (l : list A) (a : A) :
  p a = true -> existsb p (l ++ [a]) = true.
Proof. intros H. rewrite existsb_app. simpl. rewrite H, orb_true_r. reflexivity. Qed.

(** X19. After a signup on an address that validates to a normal form
    and the posting of a job, Apply with the identifier PostJob returned
    and any address that validates to the same normal form succeeds and
    adds one application, provided the address was registered already
    or the bcrypt handler accepted the password (the signup then
    created the candidate). *)
Theorem apply_after_signup_and_post_job
    (P : Platform) (body : Candidate) (e address : string) (job : Job) (w : world) :
  normalises P (email body) e ->
  EmailStr P address = Some e ->
  email_registered Candidates e w = true
  \/ (exists h, bcrypt_handler_hash (bcrypt P) (urandom w) (password body) = inr h) ->
  let w1 := snd (signup P body w) in
  let posted := post_job job w1 in
  let job_id := str_of_ObjectId (generate_ObjectId (oid_counter w1)) in
  fst posted = Return (mkJobResponse job_id job)
  /\ fst (apply_for_job P job_id address (snd posted)) = Return "Job application successful"
  /\ length (applications (snd (apply_for_job P job_id address (snd posted))))
     = S (length (applications w)).
Proof.
  intros Hnorm Haddr Hcase. cbv zeta. rewrite post_job_run. cbn [fst snd].
  split; [reflexivity|].
  rewrite apply_for_job_run, Haddr, apply_handler_run, ObjectId_of_str_generated,
    on_wire_generated.
  unfold id_stored, email_registered.
  cbn [docs with_oid_counter with_docs jobs candidates applications].
  rewrite existsb_snoc by (apply matches_lookup; reflexivity). cbn [negb].
  assert (existsb (matches "email" (VStr e)) (candidates (snd (signup P body w))) = true
          /\ applications (snd (signup P body w)) = applications w) as [-> Happ].
  { split; [|apply signup_keeps].
    destruct (email_registered Candidates e w) eqn:E.
    - destruct Hnorm as [He _]. rewrite signup_run, He, signup_handler_run.
      cbn [email]. unfold email_registered in E. cbn [docs] in E. rewrite E. exact E.
    - destruct Hcase as [Hc | [h Hh]]; [discriminate|].
      rewrite (signup_stores P body e h w Hnorm E Hh).
      cbn [snd with_oid_counter with_docs with_urandom candidates].
      apply existsb_snoc, matches_lookup. reflexivity. }
  cbn [negb fst snd with_oid_counter with_docs applications].
  split; [reflexivity|]. rewrite length_app, Happ. simpl. lia.
Qed.

Lemma apply_after_signup_and_post_job_on_empty_world :
  fst (apply_for_job demo_platform "000000000000000000000001" "a@X.com" staffed_world)
  = Return "Job application successful".
Proof.
  exact (proj1 (proj2 (apply_after_signup_and_post_job demo_platform alice "a@x.com"
                         "a@X.com" backend_engineer empty_world
                         (conj eq_refl eq_refl) eq_refl
                         (or_intror (ex_intro _ "$2b$12$0000$p1" eq_refl))))).
Defined.

(** X20. The two job updates never insert: UpdateJob fails exactly when
    the identifier is malformed or selects no job document, and
    UpdateJobStatus exactly when in addition the status is outside the
    pattern; a failed update leaves the world as it was. *)
Theorem job_updates_never_insert (P : Platform) (job_id : string) (w : world) :
  (forall job,
     let r := update_job P job_id job w in
     (fst r <> Return (mkJobResponse job_id job)
      <-> ObjectId_of_str job_id = None
          \/ exists oid, ObjectId_of_str job_id = Some oid
                         /\ id_stored Jobs (on_wire P oid) w = false)
     /\ (fst r <> Return (mkJobResponse job_id job) -> snd r = w))
  /\ (forall status,
        let r := update_job_status P job_id status w in
        (fst r <> Return ("Job status updated to " +:+ status)
         <-> Pattern.search status_pattern status = false
             \/ ObjectId_of_str job_id = None
             \/ exists oid, ObjectId_of_str job_id = Some oid
                            /\ id_stored Jobs (on_wire P oid) w = false)
        /\ (fst r <> Return ("Job status updated to " +:+ status) -> snd r = w)).
Proof.
  assert (forall oid upd,
            match set_first (matches "_id" (VOid oid)) upd (jobs w) with
            | Some _ => id_stored Jobs oid w = true
            | None => id_stored Jobs oid w = false
            end) as Hset.
  { intros oid upd. unfold id_stored. cbn [docs].
    destruct (set_first _ upd (jobs w)) eqn:E.
    - destruct (existsb _ (jobs w)) eqn:Ex; [reflexivity|].
      apply (set_first_None _ upd) in Ex. congruence.
    - eapply set_first_None, E. }
  split.
  - intros job. cbv zeta. rewrite update_job_run.
    destruct (ObjectId_of_str job_id) as [oid|].
    2:{ cbn [fst snd]. split; [|reflexivity].
        split; [intros _; left; reflexivity | discriminate]. }
    specialize (Hset (on_wire P oid) (Job_dict job)).
    destruct (set_first _ _ (jobs w)); cbn [fst snd].
    + split; [|intros H; destruct H; reflexivity].
      split; [intros H; destruct H; reflexivity|].
      intros [H | (o & [= <-] & H)]; [discriminate | congruence].
    + split; [|reflexivity].
      split; [intros _; right; exists oid; auto | discriminate].
  - intros status. cbv zeta. rewrite update_job_status_run.
    destruct (Pattern.search status_pattern status); cbn [negb].
    2:{ cbn [fst snd]. split; [|reflexivity].
        split; [intros _; left; reflexivity | discriminate]. }
    destruct (ObjectId_of_str job_id) as [oid|].
    2:{ cbn [fst snd]. split; [|reflexivity].
        split; [intros _; right; left; reflexivity | discriminate]. }
    specialize (Hset (on_wire P oid) {[ "status" := VStr status ]}).
    destruct (set_first _ _ (jobs w)); cbn [fst snd].
    + split; [|intros H; destruct H; reflexivity].
      split; [intros H; destruct H; reflexivity|].
      intros [H | [H | (o & [= <-] & H)]]; [discriminate | discriminate | congruence].
    + split; [|reflexivity].
      split; [intros _; right; right; exists oid; auto | discriminate].
Qed.

(** ** Identifiers the driver completes *)

(** An identifier string of 24 characters that holds blanks converts to
    fewer than 12 bytes: the conversion accepts it, and the store is
    asked for the 12 bytes the driver makes of it. *)
Example short_identifier_is_looked_up :
  let blanks := "00 00 00 00 00 00 00 01 " in
  String.length blanks = 24
  /\ ObjectId_of_str blanks = Some (mkObjectId [0; 0; 0; 0; 0; 0; 0; 1]%N)
  /\ (forall (P : Platform) (w : world),
        get_job P blanks w
        = match List.find
                  (matches "_id" (VOid (mkObjectId (short_id P [0; 0; 0; 0; 0; 0; 0; 1]%N))))
                  (jobs w) with
          | Some j => JobResponse_of_doc j w
          | None => (HTTPException 404 "Job not found", w)
          end).
Proof.
  cbv zeta. split; [reflexivity|]. split; [reflexivity|].
  intros P w. rewrite get_job_run. reflexivity.
Qed.
